(** * Device status ledger: SQL triggers and the device-history read path

    A shallow embedding of the ledger code of the inventory application:

    - the ledger tables [cellular_device_transactions],
      [serial_device_transactions], [part_transactions] and
      [accessory_transactions] with their NOT NULL, FOREIGN KEY and CHECK
      constraints;
    - the ledger-creation functions [fn_create_*_transaction];
    - the trigger functions [trg_cellular_device_transaction],
      [trg_serial_device_transaction] (insert and update path), the earlier
      [trg_*_device_status_change] and [trg_*_quantity_change];
    - the read path [loadDeviceHistory] of the device page.

    SQL values are nullable: a column or PL/pgSQL variable of type [T] is an
    [option T], [None] being NULL, and comparisons follow SQL's three-valued
    logic.  A function that raises returns [Raise]; the enclosing statement
    is then rolled back, which is why [Raise] carries no database. *)

From Stdlib Require Import ZArith NArith List Ascii String Bool Lia.
From Stdlib Require Import Sorting.Permutation Sorting.Sorted.
Import ListNotations.

Local Open Scope string_scope.
Local Open Scope Z_scope.

(** ** Results of PL/pgSQL code *)

Inductive result (A : Type) : Type :=
| Ok (a : A)
| Raise (msg : string).

Arguments Ok {A} a.
Arguments Raise {A} msg.

Definition bind {A B : Type} (m : result A) (k : A -> result B) : result B :=
  match m with
  | Ok a => k a
  | Raise msg => Raise msg
  end.

Declare Scope plpgsql_scope.
Delimit Scope plpgsql_scope with plpgsql.
Notation "x <- m ;; k" := (bind m (fun x => k))
  (at level 100, m at next level, right associativity) : plpgsql_scope.
Local Open Scope plpgsql_scope.

Definition succeeds {A : Type} (m : result A) : bool :=
  match m with
  | Ok _ => true
  | Raise _ => false
  end.

(** ** SQL values and three-valued logic *)

(** UUID are 128-bit identifiers; the code only compares them. *)
Definition uuid : Type := N.

Definition is_null {A : Type} (x : option A) : bool :=
  match x with
  | None => true
  | Some _ => false
  end.

Definition is_not_null {A : Type} (x : option A) : bool := negb (is_null x).

Definition sql_eq {A : Type} (eqb : A -> A -> bool) (x y : option A) : option bool :=
  match x, y with
  | Some a, Some b => Some (eqb a b)
  | _, _ => None
  end.

Definition sql_ne {A : Type} (eqb : A -> A -> bool) (x y : option A) : option bool :=
  match x, y with
  | Some a, Some b => Some (negb (eqb a b))
  | _, _ => None
  end.

Definition sql_and (a b : option bool) : option bool :=
  match a, b with
  | Some false, _ => Some false
  | _, Some false => Some false
  | Some true, Some true => Some true
  | _, _ => None
  end.

Definition sql_or (a b : option bool) : option bool :=
  match a, b with
  | Some true, _ => Some true
  | _, Some true => Some true
  | Some false, Some false => Some false
  | _, _ => None
  end.

(** [IF c THEN], [CASE WHEN c THEN] and [WHERE c] take the branch only when
    [c] is TRUE: NULL counts as not taken. *)
Definition is_true (c : option bool) : bool :=
  match c with
  | Some true => true
  | _ => false
  end.

(** A CHECK constraint rejects a row only when its condition is FALSE. *)
Definition check_passes (c : option bool) : bool :=
  match c with
  | Some false => false
  | _ => true
  end.

(** [a || b] on TEXT: NULL if either side is NULL. *)
Definition sql_concat (a b : option string) : option string :=
  match a, b with
  | Some x, Some y => Some (x ++ y)
  | _, _ => None
  end.

Definition coalesce {A : Type} (x : option A) (dflt : A) : option A :=
  match x with
  | Some a => Some a
  | None => Some dflt
  end.

(** INTEGER is a signed 32-bit integer; PostgreSQL raises on overflow
    instead of wrapping. *)
Definition int4_min : Z := - 2 ^ 31.
Definition int4_max : Z := 2 ^ 31 - 1.

Definition in_int4 (z : Z) : bool := (int4_min <=? z) && (z <=? int4_max).

Definition int4 (z : Z) : result Z :=
  if in_int4 z then Ok z else Raise "integer out of range".

Definition sql_sub (x y : option Z) : result (option Z) :=
  match x, y with
  | Some a, Some b => z <- int4 (a - b) ;; Ok (Some z)
  | _, _ => Ok None
  end.

Definition sql_abs (x : option Z) : result (option Z) :=
  match x with
  | Some a => z <- int4 (Z.abs a) ;; Ok (Some z)
  | None => Ok None
  end.

Definition sql_lt (x y : option Z) : option bool :=
  match x, y with
  | Some a, Some b => Some (a <? b)
  | _, _ => None
  end.

Definition sql_gt (x y : option Z) : option bool := sql_lt y x.

Definition sql_ge (x y : option Z) : option bool :=
  match x, y with
  | Some a, Some b => Some (b <=? a)
  | _, _ => None
  end.

(** ** Enumerated types *)

(** [CREATE TYPE device_status AS ENUM (...)]. *)
Module Status.

Inductive device_status : Type :=
| in_stock | sold | returned | quarantine | repair | qc_required | qc_failed.

Definition eqb (a b : device_status) : bool :=
  match a, b with
  | in_stock, in_stock | sold, sold | returned, returned
  | quarantine, quarantine | repair, repair
  | qc_required, qc_required | qc_failed, qc_failed => true
  | _, _ => false
  end.

End Status.

(** [CREATE TYPE transaction_type AS ENUM (...)]. *)
Module Kind.

Inductive transaction_type : Type :=
| purchase | sale | return_in | return_out | repair | qc | transfer.

Definition eqb (a b : transaction_type) : bool :=
  match a, b with
  | purchase, purchase | sale, sale | return_in, return_in
  | return_out, return_out | repair, repair | qc, qc
  | transfer, transfer => true
  | _, _ => false
  end.

End Kind.

(** ** Rows *)

(** The session of the caller: [auth.uid()] and [NOW()], the start time of
    the current transaction. *)
Record session : Type := {
  auth_uid : option uuid;
  now : Z
}.

(** [users]: the columns the ledger reads. *)
Module User.
Record row : Type := {
  id : option uuid;
  full_name : option string
}.
End User.

(** [cellular_devices] and [serial_devices]: the columns the triggers read.
    The two tables differ in their identifier and descriptive columns only,
    which no trigger reads. *)
Module Device.
Record row : Type := {
  id : option uuid;
  status : option Status.device_status;
  qc_status : option string;
  qc_comments : option string;
  repair_completed : option bool;
  created_by : option uuid;
  updated_by : option uuid
}.
End Device.

(** [purchase_order_devices]. *)
Module Pod.
Record row : Type := {
  purchase_order_id : option uuid;
  cellular_device_id : option uuid;
  serial_device_id : option uuid
}.
End Pod.

(** [cellular_device_transactions] and [serial_device_transactions]. *)
Module Tx.
Record row : Type := {
  id : option uuid;
  device_id : option uuid;
  transaction_type : option Kind.transaction_type;
  reference_id : option uuid;
  previous_status : option Status.device_status;
  new_status : option Status.device_status;
  notes : option string;
  created_by : option uuid;
  created_at : option Z
}.
End Tx.

(** [parts] and [accessories]: the columns the quantity triggers read. *)
Module Item.
Record row : Type := {
  id : option uuid;
  quantity : option Z
}.
End Item.

(** [part_transactions] and [accessory_transactions]; [item_id] is the
    column [part_id], respectively [accessory_id]. *)
Module QtyTx.
Record row : Type := {
  id : option uuid;
  item_id : option uuid;
  transaction_type : option Kind.transaction_type;
  reference_id : option uuid;
  quantity : option Z;
  previous_quantity : option Z;
  new_quantity : option Z;
  notes : option string;
  created_by : option uuid;
  created_at : option Z
}.
End QtyTx.

(** ** The database *)

(** Tables are lists of rows in insertion order; [uuid_seed] is the state of
    [uuid_generate_v4()]. *)
Record db : Type := {
  users : list User.row;
  cellular_devices : list Device.row;
  serial_devices : list Device.row;
  purchase_order_devices : list Pod.row;
  cellular_device_transactions : list Tx.row;
  serial_device_transactions : list Tx.row;
  parts : list Item.row;
  accessories : list Item.row;
  part_transactions : list QtyTx.row;
  accessory_transactions : list QtyTx.row;
  uuid_seed : N
}.

(** The two device variants and the two stock variants. *)
Inductive variant : Type := cellular | serial.
Inductive stock : Type := part | accessory.

Definition devices (v : variant) (d : db) : list Device.row :=
  match v with
  | cellular => cellular_devices d
  | serial => serial_devices d
  end.

Definition device_transactions (v : variant) (d : db) : list Tx.row :=
  match v with
  | cellular => cellular_device_transactions d
  | serial => serial_device_transactions d
  end.

Definition items (k : stock) (d : db) : list Item.row :=
  match k with
  | part => parts d
  | accessory => accessories d
  end.

Definition quantity_transactions (k : stock) (d : db) : list QtyTx.row :=
  match k with
  | part => part_transactions d
  | accessory => accessory_transactions d
  end.

Definition with_devices (v : variant) (l : list Device.row) (d : db) : db :=
  {| users := users d;
     cellular_devices := match v with cellular => l | serial => cellular_devices d end;
     serial_devices := match v with cellular => serial_devices d | serial => l end;
     purchase_order_devices := purchase_order_devices d;
     cellular_device_transactions := cellular_device_transactions d;
     serial_device_transactions := serial_device_transactions d;
     parts := parts d; accessories := accessories d;
     part_transactions := part_transactions d;
     accessory_transactions := accessory_transactions d;
     uuid_seed := uuid_seed d |}.

Definition with_device_transactions (v : variant) (l : list Tx.row) (d : db) : db :=
  {| users := users d;
     cellular_devices := cellular_devices d;
     serial_devices := serial_devices d;
     purchase_order_devices := purchase_order_devices d;
     cellular_device_transactions :=
       match v with cellular => l | serial => cellular_device_transactions d end;
     serial_device_transactions :=
       match v with cellular => serial_device_transactions d | serial => l end;
     parts := parts d; accessories := accessories d;
     part_transactions := part_transactions d;
     accessory_transactions := accessory_transactions d;
     uuid_seed := uuid_seed d |}.

Definition with_quantity_transactions (k : stock) (l : list QtyTx.row) (d : db) : db :=
  {| users := users d;
     cellular_devices := cellular_devices d;
     serial_devices := serial_devices d;
     purchase_order_devices := purchase_order_devices d;
     cellular_device_transactions := cellular_device_transactions d;
     serial_device_transactions := serial_device_transactions d;
     parts := parts d; accessories := accessories d;
     part_transactions :=
       match k with part => l | accessory => part_transactions d end;
     accessory_transactions :=
       match k with part => accessory_transactions d | accessory => l end;
     uuid_seed := uuid_seed d |}.

(** [uuid_generate_v4()]: hands out the seed and advances it. *)
Definition uuid_generate_v4 (d : db) : uuid * db :=
  (uuid_seed d,
   {| users := users d;
      cellular_devices := cellular_devices d;
      serial_devices := serial_devices d;
      purchase_order_devices := purchase_order_devices d;
      cellular_device_transactions := cellular_device_transactions d;
      serial_device_transactions := serial_device_transactions d;
      parts := parts d; accessories := accessories d;
      part_transactions := part_transactions d;
      accessory_transactions := accessory_transactions d;
      uuid_seed := N.succ (uuid_seed d) |}).

(** [col REFERENCES t(id)]: a NULL reference passes, any other value must
    be the id of a row of [t]. *)
Definition has_id (ids : list (option uuid)) (x : option uuid) : bool :=
  existsb (fun y => is_true (sql_eq N.eqb y x)) ids.

Definition references (ids : list (option uuid)) (x : option uuid) : bool :=
  match x with
  | None => true
  | Some _ => has_id ids x
  end.

(** ** Ledger tables: INSERT with the table constraints *)

(** The functions that write to the ledgers are SECURITY DEFINER: they
    insert as the owner of the tables, to whom the policy
    ["System only transactions" ... FOR INSERT WITH CHECK (false)] does not
    apply.  What can reject a row are the constraints of the table. *)

(** The foreign key of [device_id].  Both ledgers are created with
    [device_id UUID NOT NULL REFERENCES <v>_devices(id)].  The later
    [DROP TABLE IF EXISTS cellular_devices CASCADE] removes the constraint
    of the cellular ledger together with the table it points to, and the
    table is created anew without any statement adding the constraint again:
    the cellular ledger accepts any device id, the serial ledger only the
    id of a serial device. *)
Definition device_id_fk (v : variant) (d : db) (device_id : option uuid) : bool :=
  match v with
  | cellular => true
  | serial => references (map Device.id (serial_devices d)) device_id
  end.

(** [CREATE TABLE cellular_device_transactions] / [serial_device_transactions]:
    [device_id], [transaction_type], [reference_id], [new_status] and
    [created_by] are NOT NULL, [device_id] is under [device_id_fk] and
    [created_by] references [users].  [previous_status] was NOT NULL in the
    first schema and is nullable since
    [ALTER COLUMN previous_status DROP NOT NULL]. *)
Definition device_transaction_ok (v : variant) (d : db) (r : Tx.row) : bool :=
  is_not_null (Tx.device_id r)
  && is_not_null (Tx.transaction_type r)
  && is_not_null (Tx.reference_id r)
  && is_not_null (Tx.new_status r)
  && is_not_null (Tx.created_by r)
  && device_id_fk v d (Tx.device_id r)
  && references (map User.id (users d)) (Tx.created_by r).

(** The effect of a successful INSERT on a device ledger: the row is
    appended and the UUID generator has advanced. *)
Definition store (v : variant) (r : Tx.row) (d : db) : db :=
  with_device_transactions v (device_transactions v d ++ [r])
    (snd (uuid_generate_v4 d)).

(** [INSERT INTO <v>_device_transactions (device_id, transaction_type,
    reference_id, previous_status, new_status, notes, created_by)
    VALUES (...) RETURNING id]: [id] and [created_at] take their defaults
    [uuid_generate_v4()] and [NOW()]. *)
Definition ledger_row (s : session) (d : db)
    (device_id : option uuid) (transaction_type : option Kind.transaction_type)
    (reference_id : option uuid)
    (previous_status new_status : option Status.device_status)
    (notes : option string) (created_by : option uuid) : Tx.row :=
  {| Tx.id := Some (fst (uuid_generate_v4 d));
     Tx.device_id := device_id;
     Tx.transaction_type := transaction_type;
     Tx.reference_id := reference_id;
     Tx.previous_status := previous_status;
     Tx.new_status := new_status;
     Tx.notes := notes;
     Tx.created_by := created_by;
     Tx.created_at := Some (now s) |}.

Definition insert_device_transaction (v : variant) (s : session)
    (device_id : option uuid) (transaction_type : option Kind.transaction_type)
    (reference_id : option uuid)
    (previous_status new_status : option Status.device_status)
    (notes : option string) (created_by : option uuid)
    (d : db) : result (option uuid * db) :=
  let r := ledger_row s d device_id transaction_type reference_id
             previous_status new_status notes created_by in
  if device_transaction_ok v d r
  then Ok (Tx.id r, store v r d)
  else Raise "violates a constraint of the device transactions table".

(** [CONSTRAINT valid_quantities CHECK (previous_quantity >= 0 AND
    new_quantity >= 0 AND ABS(new_quantity - previous_quantity) =
    ABS(quantity))]. *)
Definition valid_quantities (r : QtyTx.row) : result bool :=
  diff <- sql_sub (QtyTx.new_quantity r) (QtyTx.previous_quantity r) ;;
  lhs <- sql_abs diff ;;
  rhs <- sql_abs (QtyTx.quantity r) ;;
  Ok (check_passes
        (sql_and (sql_and (sql_ge (QtyTx.previous_quantity r) (Some 0))
                          (sql_ge (QtyTx.new_quantity r) (Some 0)))
                 (sql_eq Z.eqb lhs rhs))).

(** [CREATE TABLE part_transactions] / [accessory_transactions]: the NOT NULL
    columns and the two foreign keys. *)
Definition quantity_transaction_ok (k : stock) (d : db) (r : QtyTx.row) : bool :=
  is_not_null (QtyTx.item_id r)
  && is_not_null (QtyTx.transaction_type r)
  && is_not_null (QtyTx.reference_id r)
  && is_not_null (QtyTx.quantity r)
  && is_not_null (QtyTx.previous_quantity r)
  && is_not_null (QtyTx.new_quantity r)
  && is_not_null (QtyTx.created_by r)
  && references (map Item.id (items k d)) (QtyTx.item_id r)
  && references (map User.id (users d)) (QtyTx.created_by r).

(** The effect of a successful INSERT on a quantity ledger. *)
Definition store_quantity (k : stock) (r : QtyTx.row) (d : db) : db :=
  with_quantity_transactions k (quantity_transactions k d ++ [r])
    (snd (uuid_generate_v4 d)).

(** [INSERT INTO part_transactions / accessory_transactions (part_id |
    accessory_id, transaction_type, reference_id, quantity,
    previous_quantity, new_quantity, notes, created_by) VALUES (...)
    RETURNING id]. *)
Definition quantity_ledger_row (s : session) (d : db)
    (item_id : option uuid) (transaction_type : option Kind.transaction_type)
    (reference_id : option uuid)
    (quantity previous_quantity new_quantity : option Z)
    (notes : option string) (created_by : option uuid) : QtyTx.row :=
  {| QtyTx.id := Some (fst (uuid_generate_v4 d));
     QtyTx.item_id := item_id;
     QtyTx.transaction_type := transaction_type;
     QtyTx.reference_id := reference_id;
     QtyTx.quantity := quantity;
     QtyTx.previous_quantity := previous_quantity;
     QtyTx.new_quantity := new_quantity;
     QtyTx.notes := notes;
     QtyTx.created_by := created_by;
     QtyTx.created_at := Some (now s) |}.

Definition insert_quantity_transaction (k : stock) (s : session)
    (item_id : option uuid) (transaction_type : option Kind.transaction_type)
    (reference_id : option uuid)
    (quantity previous_quantity new_quantity : option Z)
    (notes : option string) (created_by : option uuid)
    (d : db) : result (option uuid * db) :=
  let r := quantity_ledger_row s d item_id transaction_type reference_id
             quantity previous_quantity new_quantity notes created_by in
  valid <- valid_quantities r ;;
  if quantity_transaction_ok k d r && valid
  then Ok (QtyTx.id r, store_quantity k r d)
  else Raise "violates a constraint of the quantity transactions table".

(** ** Ledger-creation functions *)

(** [fn_create_cellular_transaction] and [fn_create_serial_transaction]:
    the same body over the two ledger tables. *)
Definition fn_create_device_transaction (v : variant) (s : session)
    (device_id : option uuid) (trans_type : option Kind.transaction_type)
    (ref_id : option uuid)
    (prev_status new_status : option Status.device_status)
    (notes : option string) (user_id : option uuid)
    (d : db) : result (option uuid * db) :=
  (* Validate inputs *)
  if is_null device_id || is_null trans_type || is_null ref_id || is_null user_id
  then Raise "Required parameters cannot be null"
  else
    (* Create transaction record *)
    insert_device_transaction v s device_id trans_type ref_id
      prev_status new_status notes user_id d.

Definition fn_create_cellular_transaction := fn_create_device_transaction cellular.
Definition fn_create_serial_transaction := fn_create_device_transaction serial.

(** [fn_create_part_transaction] and [fn_create_accessory_transaction]. *)
Definition fn_create_quantity_transaction (k : stock) (s : session)
    (item_id : option uuid) (trans_type : option Kind.transaction_type)
    (ref_id : option uuid) (qty prev_qty new_qty : option Z)
    (notes : option string) (user_id : option uuid)
    (d : db) : result (option uuid * db) :=
  (* Validate inputs *)
  if is_null item_id || is_null trans_type || is_null ref_id || is_null user_id
  then Raise "Required parameters cannot be null"
  else
    (* Validate quantities *)
    if is_true (sql_lt new_qty (Some 0))
    then Raise "New quantity cannot be negative"
    else
      diff <- sql_sub new_qty prev_qty ;;
      lhs <- sql_abs diff ;;
      rhs <- sql_abs qty ;;
      if is_true (sql_ne Z.eqb lhs rhs)
      then Raise "Quantity change mismatch"
      else
        (* Create transaction record *)
        insert_quantity_transaction k s item_id trans_type ref_id
          qty prev_qty new_qty notes user_id d.

Definition fn_create_part_transaction := fn_create_quantity_transaction part.
Definition fn_create_accessory_transaction := fn_create_quantity_transaction accessory.

(** ** Trigger functions of the device tables *)

(** The row-level trigger event: [TG_OP] with the [OLD] and [NEW] rows. *)
Inductive trigger_event : Type :=
| TG_INSERT (NEW : Device.row)
| TG_UPDATE (OLD NEW : Device.row).

Definition status_is (s : option Status.device_status) (lit : Status.device_status) : bool :=
  is_true (sql_eq Status.eqb s (Some lit)).

(** [CASE WHEN NEW.status = 'sold' THEN 'sale' WHEN NEW.status = 'returned'
    THEN 'return_in' WHEN NEW.status = 'repair' THEN 'repair'
    WHEN NEW.status = 'qc_required' THEN 'qc' ELSE 'transfer' END]. *)
Definition status_transaction_type (s : option Status.device_status)
  : option Kind.transaction_type :=
  if status_is s Status.sold then Some Kind.sale
  else if status_is s Status.returned then Some Kind.return_in
  else if status_is s Status.repair then Some Kind.repair
  else if status_is s Status.qc_required then Some Kind.qc
  else Some Kind.transfer.

(** ['QC ' || NEW.qc_status || ': ' || COALESCE(NEW.qc_comments, '')]. *)
Definition qc_notes (NEW : Device.row) : option string :=
  sql_concat
    (sql_concat (sql_concat (Some "QC ") (Device.qc_status NEW)) (Some ": "))
    (coalesce (Device.qc_comments NEW) "").

(** The note of a status-change row. *)
Definition status_change_notes (NEW : Device.row) : option string :=
  if status_is (Device.status NEW) Status.qc_required then
    if is_not_null (Device.qc_status NEW) then qc_notes NEW
    else Some "Pending QC"
  else if status_is (Device.status NEW) Status.repair then
    if is_true (Device.repair_completed NEW) then Some "Repair completed"
    else Some "Repair required"
  else None.

(** [EXISTS (SELECT 1 FROM purchase_order_devices
             WHERE cellular_device_id = NEW.id)], with [serial_device_id]
    in the serial trigger. *)
Definition linked_to_purchase_order (v : variant) (d : db) (NEW : Device.row) : bool :=
  existsb
    (fun p =>
       is_true (sql_eq N.eqb
                  (match v with
                   | cellular => Pod.cellular_device_id p
                   | serial => Pod.serial_device_id p
                   end)
                  (Device.id NEW)))
    (purchase_order_devices d).

(** The three checks of the update path; each ends with the database it
    leaves. *)

(** [-- Status change]. *)
Definition status_change (v : variant) (s : session) (OLD NEW : Device.row)
    (d : db) : result db :=
  if is_true (sql_ne Status.eqb (Device.status OLD) (Device.status NEW)) then
    r <- insert_device_transaction v s
           (Device.id NEW)
           (status_transaction_type (Device.status NEW))
           (Device.id NEW)
           (Device.status OLD)
           (Device.status NEW)
           (status_change_notes NEW)
           (Device.updated_by NEW) d ;;
    Ok (snd r)
  else Ok d.

(** [-- QC status change]. *)
Definition qc_status_change (v : variant) (s : session) (OLD NEW : Device.row)
    (d : db) : result db :=
  if is_true
       (sql_or
          (sql_and (Some (is_null (Device.qc_status OLD)))
                   (Some (is_not_null (Device.qc_status NEW))))
          (sql_and (Some (is_not_null (Device.qc_status OLD)))
                   (sql_ne String.eqb (Device.qc_status NEW) (Device.qc_status OLD))))
  then
    r <- insert_device_transaction v s
           (Device.id NEW)
           (Some Kind.qc)
           (Device.id NEW)
           (Device.status NEW)
           (Device.status NEW)
           (qc_notes NEW)
           (Device.updated_by NEW) d ;;
    Ok (snd r)
  else Ok d.

(** [-- Repair status change]. *)
Definition repair_status_change (v : variant) (s : session) (OLD NEW : Device.row)
    (d : db) : result db :=
  if is_true (sql_ne Bool.eqb (Device.repair_completed OLD) (Device.repair_completed NEW))
  then
    r <- insert_device_transaction v s
           (Device.id NEW)
           (Some Kind.repair)
           (Device.id NEW)
           (Device.status NEW)
           (Device.status NEW)
           (if is_true (Device.repair_completed NEW) then Some "Repair completed"
            else Some "Repair started")
           (Device.updated_by NEW) d ;;
    Ok (snd r)
  else Ok d.

(** [trg_cellular_device_transaction] and [trg_serial_device_transaction]
    ([AFTER INSERT OR UPDATE ... FOR EACH ROW]): the same body over the two
    ledger tables and the two columns of [purchase_order_devices]. *)
Definition trg_device_transaction (v : variant) (s : session)
    (ev : trigger_event) (d : db) : result db :=
  match ev with
  | TG_INSERT NEW =>
      (* For new devices (INSERT) *)
      r <- insert_device_transaction v s
             (Device.id NEW)
             (if linked_to_purchase_order v d NEW then Some Kind.purchase
              else Some Kind.transfer)
             (Device.id NEW)
             None
             (Device.status NEW)
             (Some "Device created")
             (Device.created_by NEW) d ;;
      Ok (snd r)
  | TG_UPDATE OLD NEW =>
      (* For updates *)
      d1 <- status_change v s OLD NEW d ;;
      d2 <- qc_status_change v s OLD NEW d1 ;;
      repair_status_change v s OLD NEW d2
  end.

Definition trg_cellular_device_transaction := trg_device_transaction cellular.
Definition trg_serial_device_transaction := trg_device_transaction serial.

(** [trg_cellular_device_status_change] and [trg_serial_device_status_change]
    of the first migration ([AFTER UPDATE OF status]): they go through
    [fn_create_*_transaction] and record [auth.uid()] as the acting user. *)
Definition trg_device_status_change (v : variant) (s : session)
    (OLD NEW : Device.row) (d : db) : result db :=
  (* Only create transaction if status changed *)
  if is_true (sql_ne Status.eqb (Device.status OLD) (Device.status NEW)) then
    r <- fn_create_device_transaction v s
           (Device.id NEW)
           (status_transaction_type (Device.status NEW))
           (Device.id NEW)
           (Device.status OLD)
           (Device.status NEW)
           None
           (auth_uid s) d ;;
    Ok (snd r)
  else Ok d.

Definition trg_cellular_device_status_change := trg_device_status_change cellular.
Definition trg_serial_device_status_change := trg_device_status_change serial.

(** ** Trigger functions of the stock tables *)

(** [trg_part_quantity_change] and [trg_accessory_quantity_change]
    ([AFTER UPDATE OF quantity]). *)
Definition trg_quantity_change (k : stock) (s : session)
    (OLD NEW : Item.row) (d : db) : result db :=
  (* Only create transaction if quantity changed *)
  if is_true (sql_ne Z.eqb (Item.quantity OLD) (Item.quantity NEW)) then
    diff <- sql_sub (Item.quantity NEW) (Item.quantity OLD) ;;
    qty <- sql_abs diff ;;
    r <- fn_create_quantity_transaction k s
           (Item.id NEW)
           (if is_true (sql_gt (Item.quantity NEW) (Item.quantity OLD))
            then Some Kind.purchase else Some Kind.sale)
           (Item.id NEW)
           qty
           (Item.quantity OLD)
           (Item.quantity NEW)
           None
           (auth_uid s) d ;;
    Ok (snd r)
  else Ok d.

Definition trg_part_quantity_change := trg_quantity_change part.
Definition trg_accessory_quantity_change := trg_quantity_change accessory.

(** A statement runs in a transaction: when it raises, every change it made
    is rolled back and the database is the one before the statement. *)
Definition commit (f : db -> result db) (d : db) : db :=
  match f d with
  | Ok d' => d'
  | Raise _ => d
  end.

(** ** Statements on the device tables *)

(** [qc_status TEXT CHECK (qc_status IN ('pass', 'fail'))]. *)
Definition qc_status_check (q : option string) : bool :=
  check_passes (sql_or (sql_eq String.eqb q (Some "pass"))
                       (sql_eq String.eqb q (Some "fail"))).

(** The constraints of [cellular_devices] / [serial_devices] on the columns
    of [Device.row], apart from the primary key: NOT NULL, the two foreign
    keys to [users] and the CHECK on [qc_status]. *)
Definition device_row_ok (d : db) (r : Device.row) : bool :=
  is_not_null (Device.id r)
  && is_not_null (Device.status r)
  && is_not_null (Device.repair_completed r)
  && is_not_null (Device.created_by r)
  && is_not_null (Device.updated_by r)
  && references (map User.id (users d)) (Device.created_by r)
  && references (map User.id (users d)) (Device.updated_by r)
  && qc_status_check (Device.qc_status r).

Definition has_key (target : option uuid) (r : Device.row) : bool :=
  is_true (sql_eq N.eqb (Device.id r) target).

(** [INSERT INTO <v>_devices ...]: [NEW] is the row after the column
    defaults; the trigger [trg_<v>_device_transaction]
    ([AFTER INSERT OR UPDATE ON <v>_devices FOR EACH ROW]) runs once the row
    is stored. *)
Definition insert_device (v : variant) (s : session) (NEW : Device.row)
    (d : db) : result db :=
  if device_row_ok d NEW && negb (has_id (map Device.id (devices v d)) (Device.id NEW))
  then trg_device_transaction v s (TG_INSERT NEW)
         (with_devices v (devices v d ++ [NEW]) d)
  else Raise "violates a constraint of the devices table".

(** The SET clause of an UPDATE assigns any column but the primary key. *)
Definition assign (set : Device.row -> Device.row) (OLD : Device.row) : Device.row :=
  let r := set OLD in
  {| Device.id := Device.id OLD;
     Device.status := Device.status r;
     Device.qc_status := Device.qc_status r;
     Device.qc_comments := Device.qc_comments r;
     Device.repair_completed := Device.repair_completed r;
     Device.created_by := Device.created_by r;
     Device.updated_by := Device.updated_by r |}.

(** ** The two UPDATE triggers of a device table together *)

(** The sources create two row-level AFTER UPDATE triggers on a device
    table: [trg_after_<v>_device_update] ([AFTER UPDATE OF status], running
    [trg_<v>_device_status_change]) and [trg_<v>_device_transaction].  When
    both are attached and the statement assigns [status], they fire in the
    order of their names, the first before the second, inside the statement's
    transaction. *)
Definition after_update_triggers (v : variant) (s : session)
    (OLD NEW : Device.row) (d : db) : result db :=
  d1 <- trg_device_status_change v s OLD NEW d ;;
  trg_device_transaction v s (TG_UPDATE OLD NEW) d1.

(** The triggers an UPDATE fires on each device table.
    [serial_devices] carries both: [trg_after_serial_device_update] is
    created with the first schema and no later statement drops it.
    [cellular_devices] is dropped with CASCADE and created anew, which
    removes [trg_after_cellular_device_update]; only
    [trg_cellular_device_transaction] is created on the new table.
    [trg_after_serial_device_update] fires when the statement assigns
    [status]; in a statement that does not, [NEW.status] is [OLD.status] and
    the function it runs returns at once, so it is run for every update. *)
Definition device_update_triggers (v : variant) (s : session)
    (OLD NEW : Device.row) (d : db) : result db :=
  match v with
  | cellular => trg_device_transaction cellular s (TG_UPDATE OLD NEW) d
  | serial => after_update_triggers serial s OLD NEW d
  end.

(** [UPDATE <v>_devices SET ... WHERE id = target]: the triggers of the
    table run once the new row is stored. *)
Definition update_device (v : variant) (s : session)
    (set : Device.row -> Device.row) (target : uuid) (d : db) : result db :=
  match find (has_key (Some target)) (devices v d) with
  | None => Ok d
  | Some OLD =>
      let NEW := assign set OLD in
      if device_row_ok d NEW
      then device_update_triggers v s OLD NEW
             (with_devices v
                (map (fun r => if has_key (Some target) r then NEW else r)
                     (devices v d)) d)
      else Raise "violates a constraint of the devices table"
  end.

(** The context of an AFTER ROW trigger: [NEW] is a row of the device table
    and has passed the constraints of the table. *)
Definition stored (v : variant) (d : db) (NEW : Device.row) : Prop :=
  In NEW (devices v d) /\ device_row_ok d NEW = true.

(** A device operation, and the path of the trigger it takes. *)
Inductive device_operation : Type :=
| Create (NEW : Device.row)
| Update (set : Device.row -> Device.row) (target : uuid).

Inductive path : Type := insert_path | update_path.

Definition path_of (op : device_operation) : path :=
  match op with
  | Create _ => insert_path
  | Update _ _ => update_path
  end.

Definition execute (v : variant) (s : session) (op : device_operation)
    (d : db) : result db :=
  match op with
  | Create NEW => insert_device v s NEW d
  | Update set target => update_device v s set target d
  end.

(** A sequence of device operations, each in its own transaction.  Next to
    the final database it returns the rows each operation added to the
    ledger, tagged with the path that produced them. *)
Fixpoint run (v : variant) (ops : list (session * device_operation)) (d : db)
  : db * list (path * Tx.row) :=
  match ops with
  | [] => (d, [])
  | (s, op) :: rest =>
      let d1 := commit (execute v s op) d in
      let added := skipn (List.length (device_transactions v d)) (device_transactions v d1) in
      let (d2, log) := run v rest d1 in
      (d2, (map (pair (path_of op)) added ++ log)%list)
  end.

(** ** The read path: [loadDeviceHistory] *)

(** The page queries the datastore as the signed-in user, so the row-level
    security policies apply.

    - ["Users can read transactions" ON <v>_device_transactions FOR SELECT
      TO authenticated USING (true)];
    - ["Users can read own profile" ON users FOR SELECT TO authenticated
      USING (auth.uid() = id)], the only SELECT policy on [users]. *)
Definition authenticated (s : session) : bool := is_not_null (auth_uid s).

Definition readable_transactions (v : variant) (s : session) (d : db) : list Tx.row :=
  if authenticated s then device_transactions v d else [].

Definition readable_users (s : session) (d : db) : list User.row :=
  if authenticated s
  then filter (fun u => is_true (sql_eq N.eqb (auth_uid s) (User.id u))) (users d)
  else [].

(** [ORDER BY created_at DESC]: NULLs sort first in descending order. *)
Definition not_older (a b : option Z) : bool :=
  match a, b with
  | None, _ => true
  | Some _, None => false
  | Some x, Some y => y <=? x
  end.

Fixpoint insert_by_created_at (r : Tx.row) (l : list Tx.row) : list Tx.row :=
  match l with
  | [] => [r]
  | x :: rest =>
      if not_older (Tx.created_at r) (Tx.created_at x) then r :: l
      else x :: insert_by_created_at r rest
  end.

Definition order_by_created_at_desc (l : list Tx.row) : list Tx.row :=
  fold_right insert_by_created_at [] l.

(** A row of the response: the selected columns and the embedded
    [user:users!created_by(full_name)], which is [null] when no readable row
    of [users] has the id [created_by]. *)
Module Entry.
Record user : Type := { full_name : option string }.
Record row : Type := {
  id : option uuid;
  created_at : option Z;
  transaction_type : option Kind.transaction_type;
  previous_status : option Status.device_status;
  new_status : option Status.device_status;
  notes : option string;
  user_ : option user
}.
End Entry.

Definition embed_user (s : session) (d : db) (r : Tx.row) : option Entry.user :=
  match find (fun u => is_true (sql_eq N.eqb (User.id u) (Tx.created_by r)))
             (readable_users s d) with
  | Some u => Some {| Entry.full_name := User.full_name u |}
  | None => None
  end.

Definition select_entry (s : session) (d : db) (r : Tx.row) : Entry.row :=
  {| Entry.id := Tx.id r;
     Entry.created_at := Tx.created_at r;
     Entry.transaction_type := Tx.transaction_type r;
     Entry.previous_status := Tx.previous_status r;
     Entry.new_status := Tx.new_status r;
     Entry.notes := Tx.notes r;
     Entry.user_ := embed_user s d r |}.

(** [supabase.from(table).select(...).eq('device_id', id)
      .order('created_at', { ascending: false })]: the rows of the answer
    to a request that is served, for a route parameter that is the UUID
    [id].  The answer that carries an error instead is
    [Response.error], below. *)
Definition query_device_history (v : variant) (s : session) (id : uuid) (d : db)
  : list Entry.row :=
  map (select_entry s d)
      (order_by_created_at_desc
         (filter (fun r => is_true (sql_eq N.eqb (Tx.device_id r) (Some id)))
                 (readable_transactions v s d))).

(** The labels of the enum values, as the response carries them. *)
Definition status_label (x : Status.device_status) : string :=
  match x with
  | Status.in_stock => "in_stock"
  | Status.sold => "sold"
  | Status.returned => "returned"
  | Status.quarantine => "quarantine"
  | Status.repair => "repair"
  | Status.qc_required => "qc_required"
  | Status.qc_failed => "qc_failed"
  end.

Definition transaction_type_label (x : Kind.transaction_type) : string :=
  match x with
  | Kind.purchase => "purchase"
  | Kind.sale => "sale"
  | Kind.return_in => "return_in"
  | Kind.return_out => "return_out"
  | Kind.repair => "repair"
  | Kind.qc => "qc"
  | Kind.transfer => "transfer"
  end.

(** [str.replace('_', ' ')]: a string pattern replaces its first occurrence
    only. *)
Fixpoint replace_underscore (x : string) : string :=
  match x with
  | EmptyString => EmptyString
  | String c rest =>
      if Ascii.eqb c "_"%char then String " "%char rest
      else String c (replace_underscore rest)
  end.

(** A template literal prints [null] for a null value. *)
Definition js_status (x : option Status.device_status) : string :=
  match x with
  | Some a => status_label a
  | None => "null"
  end.

(** U+2192, the arrow of the operation text, in UTF-8. *)
Definition arrow : string :=
  String (Ascii.ascii_of_nat 226)
    (String (Ascii.ascii_of_nat 134) (String (Ascii.ascii_of_nat 146) EmptyString)).

(** The [DeviceHistory] values the page keeps. *)
Module History.
Record row : Type := {
  id : option uuid;
  date : option Z;
  operation : string;
  user : option Entry.user;
  details : option string
}.
End History.

(** [entry => ({ id, date, operation, user, details })];
    [entry.transaction_type.replace] throws on a null transaction type. *)
Definition history_of_entry (e : Entry.row) : result History.row :=
  match Entry.transaction_type e with
  | None => Raise "TypeError: Cannot read properties of null"
  | Some k =>
      Ok {| History.id := Entry.id e;
            History.date := Entry.created_at e;
            History.operation :=
              replace_underscore (transaction_type_label k) ++ " ("
              ++ js_status (Entry.previous_status e) ++ " " ++ arrow ++ " "
              ++ js_status (Entry.new_status e) ++ ")";
            History.user := Entry.user_ e;
            History.details := Entry.notes e |}
  end.

Fixpoint map_result {A B : Type} (f : A -> result B) (l : list A) : result (list B) :=
  match l with
  | [] => Ok []
  | x :: rest =>
      y <- f x ;;
      ys <- map_result f rest ;;
      Ok (y :: ys)
  end.

(** [loadDeviceHistory]: [type] and [id] are the route parameters; the
    result is the new [history] state, or the error that is logged. *)
Definition loadDeviceHistory (type : string) (id : uuid) (s : session) (d : db)
  : result (list History.row) :=
  map_result history_of_entry
    (query_device_history
       (if String.eqb type "cellular" then cellular else serial) s id d).

(** ** A sample database *)

Definition alice : User.row := {| User.id := Some 1%N; User.full_name := Some "Alice" |}.
Definition bob : User.row := {| User.id := Some 2%N; User.full_name := Some "Bob" |}.

(** A device in stock, created and last updated by Alice. *)
Definition phone : Device.row :=
  {| Device.id := Some 10%N;
     Device.status := Some Status.in_stock;
     Device.qc_status := None;
     Device.qc_comments := None;
     Device.repair_completed := Some false;
     Device.created_by := Some 1%N;
     Device.updated_by := Some 1%N |}.

Definition screen : Item.row := {| Item.id := Some 20%N; Item.quantity := Some 5 |}.

Definition sample_db : db :=
  {| users := [alice; bob];
     cellular_devices := [phone];
     serial_devices := [phone];
     purchase_order_devices := [];
     cellular_device_transactions := [];
     serial_device_transactions := [];
     parts := [screen];
     accessories := [screen];
     part_transactions := [];
     accessory_transactions := [];
     uuid_seed := 100%N |}.

(** [SET status = x]: the assignment that changes the status field and
    nothing else. *)
Definition set_status (x : Status.device_status) (r : Device.row) : Device.row :=
  {| Device.id := Device.id r;
     Device.status := Some x;
     Device.qc_status := Device.qc_status r;
     Device.qc_comments := Device.qc_comments r;
     Device.repair_completed := Device.repair_completed r;
     Device.created_by := Device.created_by r;
     Device.updated_by := Device.updated_by r |}.

(** The sample database once the phone is sold. *)
Definition sold_db : db :=
  with_devices serial [set_status Status.sold phone]
    (with_devices cellular [set_status Status.sold phone] sample_db).

Definition as_alice : session := {| auth_uid := Some 1%N; now := 1000 |}.
Definition as_bob : session := {| auth_uid := Some 2%N; now := 2000 |}.
Definition as_service : session := {| auth_uid := None; now := 3000 |}.

(** A device whose status, QC outcome and repair flag all change. *)
Definition repaired_phone : Device.row :=
  {| Device.id := Some 10%N;
     Device.status := Some Status.qc_required;
     Device.qc_status := Some "pass";
     Device.qc_comments := Some "screen replaced";
     Device.repair_completed := Some true;
     Device.created_by := Some 1%N;
     Device.updated_by := Some 2%N |}.

Definition repaired_db : db := with_devices cellular [repaired_phone] sample_db.

(** The phone sent to QC with a verdict in the same update. *)
Definition checked_phone : Device.row :=
  {| Device.id := Some 10%N;
     Device.status := Some Status.qc_required;
     Device.qc_status := Some "pass";
     Device.qc_comments := None;
     Device.repair_completed := Some false;
     Device.created_by := Some 1%N;
     Device.updated_by := Some 1%N |}.

Definition checked_db : db := with_devices cellular [checked_phone] sample_db.

(** A second phone, not yet in the sample database. *)
Definition tablet : Device.row :=
  {| Device.id := Some 11%N;
     Device.status := Some Status.in_stock;
     Device.qc_status := None;
     Device.qc_comments := None;
     Device.repair_completed := Some false;
     Device.created_by := Some 2%N;
     Device.updated_by := Some 2%N |}.

(** The screen part after a delivery of two pieces. *)
Definition screen_restocked : Item.row :=
  {| Item.id := Some 20%N; Item.quantity := Some 7 |}.

Definition restocked_db : db :=
  {| users := users sample_db;
     cellular_devices := cellular_devices sample_db;
     serial_devices := serial_devices sample_db;
     purchase_order_devices := [];
     cellular_device_transactions := [];
     serial_device_transactions := [];
     parts := [screen_restocked];
     accessories := [screen_restocked];
     part_transactions := [];
     accessory_transactions := [];
     uuid_seed := 100%N |}.

(** Bob sells the phone: the client sets the status and [updated_by]. *)
Definition sell_as_bob (r : Device.row) : Device.row :=
  {| Device.id := Device.id r;
     Device.status := Some Status.sold;
     Device.qc_status := Device.qc_status r;
     Device.qc_comments := Device.qc_comments r;
     Device.repair_completed := Device.repair_completed r;
     Device.created_by := Device.created_by r;
     Device.updated_by := Some 2%N |}.

Definition sold_by_bob_db : db :=
  fst (run cellular [(as_bob, Update sell_as_bob 10%N)] sample_db).

(** ** Predicates on ledgers *)

(** The path a trigger event takes through the trigger function. *)
Definition path_of_event (ev : trigger_event) : path :=
  match ev with
  | TG_INSERT _ => insert_path
  | TG_UPDATE _ _ => update_path
  end.

(** A row agrees with the path that produced it: it has no previous status
    exactly on the insert path. *)
Definition on_path (p : path) (r : Tx.row) : Prop :=
  Tx.previous_status r = None <-> p = insert_path.

(** [d'] is [d] with some ledger rows added, all satisfying [P]; the device
    tables are the same. *)
Definition extends (v : variant) (P : Tx.row -> Prop) (d d' : db) : Prop :=
  (forall w, devices w d' = devices w d)
  /\ exists added,
       device_transactions v d' = (device_transactions v d ++ added)%list
       /\ Forall P added.

(** The order of the history: a row comes before the rows that are not
    newer. *)
Definition newest_first (a b : Tx.row) : Prop :=
  not_older (Tx.created_at a) (Tx.created_at b) = true.

(** ** The trigger function before its reference id was changed *)

(** [COALESCE(x, y)]. *)
Definition coalesce_null {A : Type} (x y : option A) : option A :=
  match x with
  | Some _ => x
  | None => y
  end.

(** A subquery used as an expression: NULL when it returns no row, the value
    of its row when it returns one, an error when it returns more. *)
Definition scalar_subquery {A : Type} (rows : list (option A)) : result (option A) :=
  match rows with
  | [] => Ok None
  | [x] => Ok x
  | _ :: _ :: _ =>
      Raise "more than one row returned by a subquery used as an expression"
  end.

(** [SELECT purchase_order_id FROM purchase_order_devices
     WHERE cellular_device_id = NEW.id], with [serial_device_id] in the
    serial trigger. *)
Definition linked_purchase_orders (v : variant) (d : db) (NEW : Device.row)
  : list (option uuid) :=
  map Pod.purchase_order_id
    (filter
       (fun p =>
          is_true (sql_eq N.eqb
                     (match v with
                      | cellular => Pod.cellular_device_id p
                      | serial => Pod.serial_device_id p
                      end)
                     (Device.id NEW)))
       (purchase_order_devices d)).

(** [trg_cellular_device_transaction] and [trg_serial_device_transaction] as
    first defined ("Fix device transaction handling"): the insert path takes
    the reference id from the linked purchase order,
    [COALESCE((SELECT purchase_order_id ...), NEW.id)]; the update path is
    the one of the later definition. *)
Definition trg_device_transaction_v1 (v : variant) (s : session)
    (ev : trigger_event) (d : db) : result db :=
  match ev with
  | TG_INSERT NEW =>
      po <- scalar_subquery (linked_purchase_orders v d NEW) ;;
      r <- insert_device_transaction v s
             (Device.id NEW)
             (if linked_to_purchase_order v d NEW then Some Kind.purchase
              else Some Kind.transfer)
             (coalesce_null po (Device.id NEW))
             None
             (Device.status NEW)
             (Some "Device created")
             (Device.created_by NEW) d ;;
      Ok (snd r)
  | TG_UPDATE OLD NEW =>
      d1 <- status_change v s OLD NEW d ;;
      d2 <- qc_status_change v s OLD NEW d1 ;;
      repair_status_change v s OLD NEW d2
  end.

(** [cellular_device_id UUID REFERENCES cellular_devices(id)] and
    [serial_device_id UUID REFERENCES serial_devices(id)] of
    [purchase_order_devices]. *)
Definition purchase_order_devices_fk (v : variant) (d : db) : Prop :=
  forall p, In p (purchase_order_devices d) ->
    references (map Device.id (devices v d))
      (match v with
       | cellular => Pod.cellular_device_id p
       | serial => Pod.serial_device_id p
       end) = true.

(** A [purchase_order_devices] row that links the phone to purchase order 30
    and [sample_db] with one, respectively two such rows. *)
Definition phone_link : Pod.row :=
  {| Pod.purchase_order_id := Some 30%N;
     Pod.cellular_device_id := Some 10%N;
     Pod.serial_device_id := None |}.

Definition with_links (l : list Pod.row) (d : db) : db :=
  {| users := users d;
     cellular_devices := cellular_devices d;
     serial_devices := serial_devices d;
     purchase_order_devices := l;
     cellular_device_transactions := cellular_device_transactions d;
     serial_device_transactions := serial_device_transactions d;
     parts := parts d; accessories := accessories d;
     part_transactions := part_transactions d;
     accessory_transactions := accessory_transactions d;
     uuid_seed := uuid_seed d |}.

(** The phone with its repair finished and nothing else changed. *)
Definition fixed_phone : Device.row :=
  {| Device.id := Some 10%N;
     Device.status := Some Status.in_stock;
     Device.qc_status := None;
     Device.qc_comments := None;
     Device.repair_completed := Some true;
     Device.created_by := Some 1%N;
     Device.updated_by := Some 1%N |}.

Definition fixed_db : db := with_devices cellular [fixed_phone] sample_db.

(** ** Further predicates on ledgers *)

(** A ledger row written at time [NOW()] of session [s] for the device row
    [NEW] on behalf of the user [u]. *)
Definition written_for (s : session) (NEW : Device.row) (u : option uuid)
    (r : Tx.row) : Prop :=
  Tx.device_id r = Device.id NEW
  /\ Tx.reference_id r = Device.id NEW
  /\ Tx.new_status r = Device.status NEW
  /\ Tx.created_by r = u
  /\ Tx.created_at r = Some (now s).

(** The user a trigger event is recorded for: the creator of an inserted
    row, the last updater of an updated row. *)
Definition acting_user (ev : trigger_event) : option uuid :=
  match ev with
  | TG_INSERT NEW => Device.created_by NEW
  | TG_UPDATE _ NEW => Device.updated_by NEW
  end.

Definition new_row (ev : trigger_event) : Device.row :=
  match ev with
  | TG_INSERT NEW => NEW
  | TG_UPDATE _ NEW => NEW
  end.

(** Every table but the ledger of variant [v] is the same in [d] and [d']. *)
Definition same_outside_ledger (v : variant) (d d' : db) : Prop :=
  users d' = users d
  /\ cellular_devices d' = cellular_devices d
  /\ serial_devices d' = serial_devices d
  /\ purchase_order_devices d' = purchase_order_devices d
  /\ parts d' = parts d
  /\ accessories d' = accessories d
  /\ part_transactions d' = part_transactions d
  /\ accessory_transactions d' = accessory_transactions d
  /\ (forall w, w <> v -> device_transactions w d' = device_transactions w d).

(** One step of a trigger: nothing, or one row stored. *)
Definition writes (v : variant) (P : Tx.row -> Prop) (d d' : db) : Prop :=
  d' = d \/ exists r, d' = store v r d /\ P r.

(** The phone after Bob touched it without changing its status. *)
Definition touched_phone : Device.row :=
  {| Device.id := Some 10%N;
     Device.status := Some Status.in_stock;
     Device.qc_status := None;
     Device.qc_comments := None;
     Device.repair_completed := Some false;
     Device.created_by := Some 1%N;
     Device.updated_by := Some 2%N |}.

Definition touched_db : db := with_devices cellular [touched_phone] sample_db.

(** ** The ledger as a history of the device *)

Fixpoint last_row {A : Type} (l : list A) : option A :=
  match l with
  | [] => None
  | [x] => Some x
  | _ :: rest => last_row rest
  end.

(** The ledger rows of device [i], oldest first. *)
Definition rows_of_device (v : variant) (i : uuid) (d : db) : list Tx.row :=
  filter (fun r => is_true (sql_eq N.eqb (Tx.device_id r) (Some i)))
         (device_transactions v d).

(** Every device has a status, and the latest ledger row of a device, when
    there is one, shows the status the device has now. *)
Definition ledger_tracks_status (v : variant) (d : db) : Prop :=
  Forall (fun dev => Device.status dev <> None) (devices v d)
  /\ forall i r,
       last_row (rows_of_device v i d) = Some r ->
       exists dev,
         find (has_key (Some i)) (devices v d) = Some dev
         /\ Tx.new_status r = Device.status dev.

(** Bob sends the phone to repair, then Alice tries to sell a device that
    does not exist and marks the repair as done. *)
Definition repair_visit : list (session * device_operation) :=
  [(as_bob, Update (set_status Status.repair) 10%N);
   (as_alice, Update (set_status Status.sold) 99%N);
   (as_alice, Update (fun r => {| Device.id := Device.id r;
                                  Device.status := Device.status r;
                                  Device.qc_status := Device.qc_status r;
                                  Device.qc_comments := Device.qc_comments r;
                                  Device.repair_completed := Some true;
                                  Device.created_by := Device.created_by r;
                                  Device.updated_by := Some 1%N |}) 10%N)].

(** ** Statements on the stock tables *)

Definition with_items (k : stock) (l : list Item.row) (d : db) : db :=
  {| users := users d;
     cellular_devices := cellular_devices d;
     serial_devices := serial_devices d;
     purchase_order_devices := purchase_order_devices d;
     cellular_device_transactions := cellular_device_transactions d;
     serial_device_transactions := serial_device_transactions d;
     parts := match k with part => l | accessory => parts d end;
     accessories := match k with part => accessories d | accessory => l end;
     part_transactions := part_transactions d;
     accessory_transactions := accessory_transactions d;
     uuid_seed := uuid_seed d |}.

Definition has_item_key (target : option uuid) (r : Item.row) : bool :=
  is_true (sql_eq N.eqb (Item.id r) target).

(** [UPDATE parts SET quantity = q WHERE id = target], and the same on
    [accessories]: [quantity INTEGER NOT NULL] with
    [CONSTRAINT positive_quantity CHECK (quantity >= 0)]; the trigger
    [trg_after_part_update] / [trg_after_accessory_update]
    ([AFTER UPDATE OF quantity ... FOR EACH ROW]) runs once the row is
    stored. *)
Definition update_quantity (k : stock) (s : session) (q : option Z)
    (target : uuid) (d : db) : result db :=
  match find (has_item_key (Some target)) (items k d) with
  | None => Ok d
  | Some OLD =>
      let NEW := {| Item.id := Item.id OLD; Item.quantity := q |} in
      if match q with Some z => in_int4 z | None => true end
      then
        if is_not_null q && check_passes (sql_ge q (Some 0))
        then trg_quantity_change k s OLD NEW
               (with_items k
                  (map (fun r => if has_item_key (Some target) r then NEW else r)
                       (items k d)) d)
        else Raise "violates a constraint of the stock table"
      else Raise "integer out of range"
  end.

(** A sequence of quantity updates, each in its own transaction. *)
Fixpoint run_stock (k : stock) (ops : list (session * option Z * uuid)) (d : db) : db :=
  match ops with
  | [] => d
  | (s, q, target) :: rest =>
      run_stock k rest (commit (update_quantity k s q target) d)
  end.

(** The ledger rows of item [i], oldest first. *)
Definition rows_of_item (k : stock) (i : uuid) (d : db) : list QtyTx.row :=
  filter (fun r => is_true (sql_eq N.eqb (QtyTx.item_id r) (Some i)))
         (quantity_transactions k d).

(** Each row starts from the quantity the row before it ended with. *)
Fixpoint chained (l : list QtyTx.row) : Prop :=
  match l with
  | [] => True
  | r1 :: rest =>
      match rest with
      | [] => True
      | r2 :: _ => QtyTx.previous_quantity r2 = QtyTx.new_quantity r1
      end /\ chained rest
  end.

(** Every item has a quantity; the ledger rows of an item form a chain, and
    the latest one, when there is one, ends with the quantity the item has
    now. *)
Definition ledger_tracks_quantity (k : stock) (d : db) : Prop :=
  Forall (fun it => Item.quantity it <> None) (items k d)
  /\ forall i,
       chained (rows_of_item k i d)
       /\ forall r,
            last_row (rows_of_item k i d) = Some r ->
            exists it,
              find (has_item_key (Some i)) (items k d) = Some it
              /\ QtyTx.new_quantity r = Item.quantity it.

(** Alice receives two screens, Bob uses three, an update without a user and
    an update to a negative quantity are rejected. *)
Definition stock_movements : list (session * option Z * uuid) :=
  [(as_alice, Some 7, 20%N);
   (as_bob, Some 4, 20%N);
   (as_service, Some 9, 20%N);
   (as_bob, Some (-1), 20%N);
   (as_bob, Some 4, 20%N)].

(** ** [fn_split_to_array] *)

(** The fields of a non-empty text between the occurrences of a one-character
    delimiter, as [string_to_array] cuts them. *)
Fixpoint split_on (sep : ascii) (x : string) : list string :=
  match x with
  | EmptyString => [EmptyString]
  | String c rest =>
      if Ascii.eqb c sep then EmptyString :: split_on sep rest
      else
        match split_on sep rest with
        | field :: fields => String c field :: fields
        | [] => [String c EmptyString]
        end
  end.

(** [string_to_array(x, sep)]: NULL for a NULL text, the empty array for the
    empty text. *)
Definition string_to_array (x : option string) (sep : ascii) : option (list string) :=
  match x with
  | None => None
  | Some EmptyString => Some []
  | Some s => Some (split_on sep s)
  end.

(** [TRIM(x)]: the text without its leading and trailing spaces. *)
Fixpoint ltrim (x : string) : string :=
  match x with
  | EmptyString => EmptyString
  | String c rest => if Ascii.eqb c " " then ltrim rest else x
  end.

Fixpoint rtrim (x : string) : string :=
  match x with
  | EmptyString => EmptyString
  | String c rest =>
      match rtrim rest with
      | EmptyString => if Ascii.eqb c " " then EmptyString else String c EmptyString
      | kept => String c kept
      end
  end.

Definition trim (x : string) : string := rtrim (ltrim x).

(** [SELECT ARRAY(SELECT TRIM(unnest)
                  FROM unnest(string_to_array(p_string, ';')))]:
    [unnest] of a NULL array yields no row, and [ARRAY] of no row is the
    empty array. *)
Definition fn_split_to_array (p_string : option string) : list string :=
  match string_to_array p_string ";" with
  | None => []
  | Some fields => map trim fields
  end.

Fixpoint has_char (c : ascii) (x : string) : bool :=
  match x with
  | EmptyString => false
  | String c' rest => Ascii.eqb c' c || has_char c rest
  end.

Fixpoint count_char (c : ascii) (x : string) : nat :=
  match x with
  | EmptyString => 0
  | String c' rest => (if Ascii.eqb c' c then 1 else 0) + count_char c rest
  end.

(** ** Profiles of the users who sign up *)

(** The columns of [auth.users] that [handle_new_user] reads.  The metadata
    is a JSON object; it is kept as the text [->>] extracts for each of its
    keys, NULL for a JSON [null]. *)
Module AuthUser.
Record row : Type := {
  id : option uuid;
  email : option string;
  raw_user_meta_data : option (list (string * option string))
}.
End AuthUser.

(** [object ->> key]: NULL when the object is NULL or has no such key. *)
Definition json_text (object : option (list (string * option string)))
    (key : string) : option string :=
  match object with
  | None => None
  | Some fields =>
      match find (fun field => String.eqb (fst field) key) fields with
      | Some (_, value) => value
      | None => None
      end
  end.

Definition with_users (l : list User.row) (d : db) : db :=
  {| users := l;
     cellular_devices := cellular_devices d;
     serial_devices := serial_devices d;
     purchase_order_devices := purchase_order_devices d;
     cellular_device_transactions := cellular_device_transactions d;
     serial_device_transactions := serial_device_transactions d;
     parts := parts d;
     accessories := accessories d;
     part_transactions := part_transactions d;
     accessory_transactions := accessory_transactions d;
     uuid_seed := uuid_seed d |}.

(** [handle_new_user], the trigger [AFTER INSERT ON auth.users FOR EACH ROW]:
    [INSERT INTO public.users (id, full_name, role)
     VALUES (NEW.id, COALESCE(NEW.raw_user_meta_data->>'full_name', NEW.email),
             'user')
     ON CONFLICT (id) DO NOTHING].
    The NOT NULL constraints of [users] are checked on the proposed row
    before the primary key is probed for a conflict; the role ['user']
    passes the CHECK on [role]. *)
Definition handle_new_user (NEW : AuthUser.row) (d : db) : result db :=
  let profile :=
    {| User.id := AuthUser.id NEW;
       User.full_name :=
         coalesce_null (json_text (AuthUser.raw_user_meta_data NEW) "full_name")
                       (AuthUser.email NEW) |} in
  if is_not_null (User.id profile) && is_not_null (User.full_name profile)
  then
    if has_id (map User.id (users d)) (User.id profile)
    then Ok d
    else Ok (with_users (users d ++ [profile]) d)
  else Raise "null value violates not-null constraint".

(** [INSERT INTO public.users (id, full_name, role)
     SELECT id, COALESCE(raw_user_meta_data->>'full_name', email), 'user'
     FROM auth.users ON CONFLICT (id) DO NOTHING]: one statement, which the
    first violation aborts. *)
Fixpoint create_existing_users (auth_users : list AuthUser.row) (d : db) : result db :=
  match auth_users with
  | [] => Ok d
  | u :: rest =>
      d' <- handle_new_user u d ;;
      create_existing_users rest d'
  end.

(** A sign-up by e-mail without a name, and one by phone without either. *)
Definition carol_signup : AuthUser.row :=
  {| AuthUser.id := Some 3%N;
     AuthUser.email := Some "carol@example.com";
     AuthUser.raw_user_meta_data := Some [("phone_verified", Some "false")] |}.

Definition phone_signup : AuthUser.row :=
  {| AuthUser.id := Some 4%N;
     AuthUser.email := None;
     AuthUser.raw_user_meta_data := Some [("full_name", None)] |}.

(** The accounts at the time the profiles are first created: Carol, and
    Alice, who has a profile already. *)
Definition existing_accounts : list AuthUser.row :=
  [carol_signup;
   {| AuthUser.id := Some 1%N;
      AuthUser.email := Some "alice@example.com";
      AuthUser.raw_user_meta_data := Some [("full_name", Some "Alice A.")] |}].

(** A device that Carol books in. *)
Definition carol_phone : Device.row :=
  {| Device.id := Some 12%N;
     Device.status := Some Status.in_stock;
     Device.qc_status := None;
     Device.qc_comments := None;
     Device.repair_completed := Some false;
     Device.created_by := Some 3%N;
     Device.updated_by := Some 3%N |}.

(** ** [get_cellular_device_details] *)

(** The columns of [cellular_devices] and of [tac_codes] that the function
    reads, and a row of the table it returns. *)
Module CellularDevice.
Record row : Type := {
  id : option uuid;
  imei : option string;
  tac_id : option uuid
}.
End CellularDevice.

Module TacCode.
Record row : Type := {
  id : option uuid;
  manufacturer : option string;
  model_name : option string
}.
End TacCode.

Module Details.
Record row : Type := {
  imei : option string;
  manufacturer : option string;
  model_name : option string
}.
End Details.

(** [cd LEFT JOIN tac_codes tc ON cd.tac_id = tc.id], for one row [cd]: a
    row for each TAC that matches, and one with NULLs for [tc] when none
    does. *)
Definition left_join_tac_codes (tc_rows : list TacCode.row) (cd : CellularDevice.row)
  : list (CellularDevice.row * option TacCode.row) :=
  match filter (fun tc => is_true (sql_eq N.eqb (CellularDevice.tac_id cd) (TacCode.id tc)))
               tc_rows with
  | [] => [(cd, None)]
  | matches => map (fun tc => (cd, Some tc)) matches
  end.

(** [SELECT cd.imei, tc.manufacturer, tc.model_name]. *)
Definition details (joined : CellularDevice.row * option TacCode.row) : Details.row :=
  {| Details.imei := CellularDevice.imei (fst joined);
     Details.manufacturer :=
       match snd joined with Some tc => TacCode.manufacturer tc | None => None end;
     Details.model_name :=
       match snd joined with Some tc => TacCode.model_name tc | None => None end |}.

(** [RETURN QUERY SELECT ... FROM cellular_devices cd
     LEFT JOIN tac_codes tc ON cd.tac_id = tc.id WHERE cd.id = device_id].
    The function is SECURITY DEFINER: it reads the tables as their owner. *)
Definition get_cellular_device_details (cd_rows : list CellularDevice.row)
    (tc_rows : list TacCode.row) (device_id : option uuid) : list Details.row :=
  map details
    (filter (fun joined => is_true (sql_eq N.eqb (CellularDevice.id (fst joined)) device_id))
       (flat_map (left_join_tac_codes tc_rows) cd_rows)).

Definition sample_tac_codes : list TacCode.row :=
  [ {| TacCode.id := Some 30%N; TacCode.manufacturer := Some "Apple";
       TacCode.model_name := Some "iPhone 12" |};
    {| TacCode.id := Some 31%N; TacCode.manufacturer := Some "Samsung";
       TacCode.model_name := Some "Galaxy S21" |} ].

Definition galaxy : CellularDevice.row :=
  {| CellularDevice.id := Some 10%N; CellularDevice.imei := Some "356938035643809";
     CellularDevice.tac_id := Some 31%N |}.

Definition sample_cellular_devices : list CellularDevice.row :=
  [ galaxy;
    {| CellularDevice.id := Some 13%N; CellularDevice.imei := Some "490154203237518";
       CellularDevice.tac_id := Some 30%N |} ].

(** ** [loadDeviceHistory] from the answer of the request on *)

(** What the awaited request resolves to, [{ data, error }]: the rows, or
    the error of a request that was not served (a route parameter that is
    not a UUID, a connection that failed). *)
Module Response.
Record t : Type := {
  data : option (list Entry.row);
  error : option string
}.
End Response.

(** The state of the page that [loadDeviceHistory] acts on, with what it
    has written to the console. *)
Module Page.
Record state : Type := {
  history : list History.row;
  loading : bool;
  logged : list string
}.
End Page.

Definition setHistory (h : list History.row) (st : Page.state) : Page.state :=
  {| Page.history := h; Page.loading := Page.loading st; Page.logged := Page.logged st |}.

Definition setLoading (b : bool) (st : Page.state) : Page.state :=
  {| Page.history := Page.history st; Page.loading := b; Page.logged := Page.logged st |}.

(** [console.error('Error loading device history:', error)]. *)
Definition console_error (e : string) (st : Page.state) : Page.state :=
  {| Page.history := Page.history st; Page.loading := Page.loading st;
     Page.logged := (Page.logged st ++ [e])%list |}.

(** The body of [loadDeviceHistory] after the [await]:
    [if (error) throw error; if (data) { setHistory(data.map(...)) }] inside
    [try], the [catch] that logs what was thrown, by the request or by the
    mapping, and [finally { setLoading(false) }]. *)
Definition loadDeviceHistory_on (answer : Response.t) (st : Page.state) : Page.state :=
  setLoading false
    match Response.error answer with
    | Some e => console_error e st
    | None =>
        match Response.data answer with
        | Some rows =>
            match map_result history_of_entry rows with
            | Ok h => setHistory h st
            | Raise e => console_error e st
            end
        | None => st
        end
    end.

(** The answer to the request of [loadDeviceHistory] when it is served. *)
Definition device_history_answer (type : string) (id : uuid) (s : session) (d : db)
  : Response.t :=
  {| Response.data :=
       Some (query_device_history
               (if String.eqb type "cellular" then cellular else serial) s id d);
     Response.error := None |}.

(** The phone after Alice sent it to repair and Bob sold it, and the page
    while it loads. *)
Definition traded_db : db :=
  fst (run cellular
         [(as_alice, Update (set_status Status.repair) 10%N);
          (as_bob, Update sell_as_bob 10%N)]
         sample_db).

Definition loading_page : Page.state :=
  {| Page.history := []; Page.loading := true; Page.logged := [] |}.

(** * Properties *)

Lemma Ok_inj {A : Type} (a b : A) : Ok a = Ok b -> a = b.
Proof. congruence. Qed.

(** ** Comparisons and keys *)

Lemma status_eqb_spec (a b : Status.device_status) : reflect (a = b) (Status.eqb a b).
Proof. destruct a, b; constructor; congruence. Qed.

Lemma status_eqb_neq (a b : Status.device_status) : a <> b -> Status.eqb a b = false.
Proof. destruct (status_eqb_spec a b); congruence. Qed.

Lemma status_ne_fires (a b : Status.device_status) :
  a <> b -> is_true (sql_ne Status.eqb (Some a) (Some b)) = true.
Proof. intros H. simpl. now rewrite (status_eqb_neq _ _ H). Qed.

Lemma status_ne_true_inv (x y : option Status.device_status) :
  is_true (sql_ne Status.eqb x y) = true ->
  exists a b, x = Some a /\ y = Some b /\ a <> b.
Proof.
  destruct x as [a|], y as [b|]; simpl; try discriminate.
  destruct (status_eqb_spec a b); simpl; try discriminate.
  intros _. now exists a, b.
Qed.

Lemma has_id_true (ids : list (option uuid)) (x : option uuid) :
  has_id ids x = true <-> exists i, x = Some i /\ In (Some i) ids.
Proof.
  unfold has_id. rewrite existsb_exists. split.
  - intros [y [Hin Hy]]. destruct y as [j|], x as [i|]; simpl in Hy; try discriminate.
    destruct (N.eqb_spec j i); [|discriminate]. subst j. now exists i.
  - intros [i [-> Hin]]. exists (Some i). split; [assumption|].
    simpl. now rewrite N.eqb_refl.
Qed.

Lemma has_id_of_row (l : list Device.row) (r : Device.row) (i : uuid) :
  In r l -> Device.id r = Some i -> has_id (map Device.id l) (Device.id r) = true.
Proof.
  intros Hin Hid. apply has_id_true. exists i. split; [assumption|].
  rewrite <- Hid. now apply in_map.
Qed.

Lemma is_not_null_true {A : Type} (x : option A) :
  is_not_null x = true <-> exists a, x = Some a.
Proof.
  destruct x; simpl; split; intros H; try discriminate; eauto.
  now destruct H.
Qed.

(** ** The effect of an INSERT on the other tables *)

Lemma device_transactions_store (v : variant) (r : Tx.row) (d : db) :
  device_transactions v (store v r d) = (device_transactions v d ++ [r])%list.
Proof. now destruct v. Qed.

Lemma devices_store (v w : variant) (r : Tx.row) (d : db) :
  devices w (store v r d) = devices w d.
Proof. now destruct v, w. Qed.

Lemma device_row_ok_users (d d' : db) (r : Device.row) :
  users d' = users d -> device_row_ok d' r = device_row_ok d r.
Proof. intros H. unfold device_row_ok. now rewrite H. Qed.

Lemma stored_store (v w : variant) (r : Tx.row) (d : db) (NEW : Device.row) :
  stored v d NEW -> stored v (store w r d) NEW.
Proof.
  intros [Hin Hok]. split.
  - now rewrite devices_store.
  - now rewrite (device_row_ok_users d).
Qed.

(** What the table constraints say about a stored device row. *)
Lemma device_row_ok_inv (d : db) (r : Device.row) :
  device_row_ok d r = true ->
  (exists i, Device.id r = Some i)
  /\ (exists a, Device.status r = Some a)
  /\ (exists c, Device.repair_completed r = Some c)
  /\ has_id (map User.id (users d)) (Device.created_by r) = true
  /\ has_id (map User.id (users d)) (Device.updated_by r) = true.
Proof.
  unfold device_row_ok. rewrite !andb_true_iff.
  intros [[[[[[[H1 H2] H3] H4] H5] H6] H7] _].
  apply is_not_null_true in H1, H2, H3, H4, H5.
  repeat split; try assumption.
  - destruct H4 as [u Hu]. now rewrite Hu in *.
  - destruct H5 as [u Hu]. now rewrite Hu in *.
Qed.

Lemma device_id_fk_of_row (v : variant) (d : db) (r : Device.row) (i : uuid) :
  In r (devices v d) -> Device.id r = Some i ->
  device_id_fk v d (Device.id r) = true.
Proof.
  intros Hin Hi. destruct v; [reflexivity|]. unfold device_id_fk.
  rewrite Hi. cbn [references]. rewrite <- Hi. now apply has_id_of_row with i.
Qed.

(** Every row written for a stored device on behalf of a known user passes
    the constraints of the ledger table. *)
Lemma ledger_row_ok (v : variant) (s : session) (d : db) (NEW : Device.row)
    (k : Kind.transaction_type) (prev : option Status.device_status)
    (notes : option string) (u : option uuid) :
  stored v d NEW ->
  has_id (map User.id (users d)) u = true ->
  device_transaction_ok v d
    (ledger_row s d (Device.id NEW) (Some k) (Device.id NEW) prev
       (Device.status NEW) notes u) = true.
Proof.
  intros [Hin Hok] Hu.
  destruct (device_row_ok_inv _ _ Hok) as [[i Hi] [[a Ha] _]].
  unfold device_transaction_ok; simpl.
  rewrite Hi, Ha. simpl.
  destruct (proj1 (has_id_true _ _) Hu) as [w [-> _]]. simpl.
  rewrite <- Hi, (device_id_fk_of_row v d NEW i Hin Hi). simpl.
  exact Hu.
Qed.

Lemma trigger_row_ok (v : variant) (s : session) (d : db) (NEW : Device.row)
    (k : Kind.transaction_type) (prev : option Status.device_status)
    (notes : option string) (u : option uuid) :
  stored v d NEW ->
  u = Device.created_by NEW \/ u = Device.updated_by NEW ->
  device_transaction_ok v d
    (ledger_row s d (Device.id NEW) (Some k) (Device.id NEW) prev
       (Device.status NEW) notes u) = true.
Proof.
  intros Hst Hu. apply ledger_row_ok; [assumption|].
  destruct Hst as [_ Hok].
  destruct (device_row_ok_inv _ _ Hok) as [_ [_ [_ [Hc Hb]]]].
  destruct Hu; now subst u.
Qed.

Lemma has_id_false_not_ok (v : variant) (s : session) (d : db) (r : Tx.row) :
  has_id (map User.id (users d)) (Tx.created_by r) = false ->
  device_transaction_ok v d r = false.
Proof.
  intros H. unfold device_transaction_ok.
  destruct (Tx.created_by r) as [u|]; simpl.
  - rewrite H. now rewrite andb_false_r.
  - now rewrite !andb_false_r.
Qed.

Lemma insert_device_transaction_inv (v : variant) (s : session)
    (dev : option uuid) (k : option Kind.transaction_type) (ref : option uuid)
    (prev new : option Status.device_status) (notes : option string)
    (u : option uuid) (d : db) (x : option uuid * db) :
  insert_device_transaction v s dev k ref prev new notes u d = Ok x ->
  device_transaction_ok v d (ledger_row s d dev k ref prev new notes u) = true
  /\ snd x = store v (ledger_row s d dev k ref prev new notes u) d.
Proof.
  unfold insert_device_transaction.
  destruct (device_transaction_ok v d _); [|discriminate].
  intros H. injection H as <-. now split.
Qed.

Lemma insert_device_transaction_ok (v : variant) (s : session)
    (dev : option uuid) (k : option Kind.transaction_type) (ref : option uuid)
    (prev new : option Status.device_status) (notes : option string)
    (u : option uuid) (d : db) :
  device_transaction_ok v d (ledger_row s d dev k ref prev new notes u) = true ->
  insert_device_transaction v s dev k ref prev new notes u d
  = Ok (Some (uuid_seed d), store v (ledger_row s d dev k ref prev new notes u) d).
Proof. intros H. unfold insert_device_transaction. now rewrite H. Qed.

(** ** The three checks of the update path *)

Lemma status_transaction_type_lookup (b : Status.device_status) :
  status_transaction_type (Some b)
  = Some match b with
         | Status.sold => Kind.sale
         | Status.returned => Kind.return_in
         | Status.repair => Kind.repair
         | Status.qc_required => Kind.qc
         | _ => Kind.transfer
         end.
Proof. now destruct b. Qed.

Lemma status_transaction_type_some (x : option Status.device_status) :
  exists k, status_transaction_type x = Some k.
Proof.
  destruct x as [b|]; [rewrite status_transaction_type_lookup|]; eexists; reflexivity.
Qed.

(** The condition of the QC check, in the words of the comparison it makes. *)
Lemma qc_condition_iff (o n : option string) :
  is_true
    (sql_or (sql_and (Some (is_null o)) (Some (is_not_null n)))
            (sql_and (Some (is_not_null o)) (sql_ne String.eqb n o))) = true
  <-> (o = None /\ n <> None)
      \/ (exists q0 q, o = Some q0 /\ n = Some q /\ q0 <> q).
Proof.
  destruct o as [q0|], n as [q|]; simpl.
  - destruct (String.eqb_spec q q0) as [->|Hne]; simpl; split.
    + discriminate.
    + intros [[H _]|[a [b [Ha [Hb Hab]]]]]; [discriminate|]. congruence.
    + intros _. right. exists q0, q. repeat split; congruence.
    + trivial.
  - split; [discriminate|].
    intros [[H _]|[a [b [_ [Hb _]]]]]; discriminate.
  - split; [|trivial]. intros _. left. split; congruence.
  - split; [discriminate|].
    intros [[_ H]|[a [b [Ha _]]]]; [congruence|discriminate].
Qed.

Section UpdatePath.

Variables (v : variant) (s : session) (OLD NEW : Device.row).

Lemma status_change_run (d : db) :
  stored v d NEW ->
  status_change v s OLD NEW d
  = Ok (if is_true (sql_ne Status.eqb (Device.status OLD) (Device.status NEW))
        then store v (ledger_row s d (Device.id NEW)
                        (status_transaction_type (Device.status NEW))
                        (Device.id NEW) (Device.status OLD) (Device.status NEW)
                        (status_change_notes NEW) (Device.updated_by NEW)) d
        else d).
Proof.
  intros Hst. unfold status_change.
  destruct (is_true _); [|reflexivity].
  destruct (status_transaction_type_some (Device.status NEW)) as [k Hk].
  rewrite insert_device_transaction_ok; [reflexivity|].
  rewrite Hk. apply trigger_row_ok; auto.
Qed.

Lemma qc_status_change_run (d : db) :
  stored v d NEW ->
  qc_status_change v s OLD NEW d
  = Ok (if is_true
             (sql_or
                (sql_and (Some (is_null (Device.qc_status OLD)))
                         (Some (is_not_null (Device.qc_status NEW))))
                (sql_and (Some (is_not_null (Device.qc_status OLD)))
                         (sql_ne String.eqb (Device.qc_status NEW) (Device.qc_status OLD))))
        then store v (ledger_row s d (Device.id NEW) (Some Kind.qc)
                        (Device.id NEW) (Device.status NEW) (Device.status NEW)
                        (qc_notes NEW) (Device.updated_by NEW)) d
        else d).
Proof.
  intros Hst. unfold qc_status_change.
  destruct (is_true _); [|reflexivity].
  rewrite insert_device_transaction_ok; [reflexivity|].
  apply trigger_row_ok; auto.
Qed.

Lemma repair_status_change_run (d : db) :
  stored v d NEW ->
  repair_status_change v s OLD NEW d
  = Ok (if is_true (sql_ne Bool.eqb (Device.repair_completed OLD)
                                     (Device.repair_completed NEW))
        then store v (ledger_row s d (Device.id NEW) (Some Kind.repair)
                        (Device.id NEW) (Device.status NEW) (Device.status NEW)
                        (if is_true (Device.repair_completed NEW)
                         then Some "Repair completed" else Some "Repair started")
                        (Device.updated_by NEW)) d
        else d).
Proof.
  intros Hst. unfold repair_status_change.
  destruct (is_true _); [|reflexivity].
  rewrite insert_device_transaction_ok; [reflexivity|].
  apply trigger_row_ok; auto.
Qed.

(** Each check leaves the device tables and the users alone and keeps the
    ledger it found as a prefix. *)
Lemma stored_if_store (b : bool) (r : Tx.row) (d : db) :
  stored v d NEW -> stored v (if b then store v r d else d) NEW.
Proof. destruct b; [apply stored_store|trivial]. Qed.

(** The update path never raises on a stored row: the three checks run one
    after the other. *)
Lemma update_path_run (d : db) :
  stored v d NEW ->
  exists d1 d2 d3,
    status_change v s OLD NEW d = Ok d1
    /\ qc_status_change v s OLD NEW d1 = Ok d2
    /\ repair_status_change v s OLD NEW d2 = Ok d3
    /\ trg_device_transaction v s (TG_UPDATE OLD NEW) d = Ok d3
    /\ stored v d1 NEW /\ stored v d2 NEW /\ stored v d3 NEW.
Proof.
  intros Hst.
  pose proof (status_change_run d Hst) as H1.
  set (d1 := if is_true (sql_ne Status.eqb _ _) then _ else d) in H1.
  assert (Hst1 : stored v d1 NEW) by (apply stored_if_store; exact Hst).
  pose proof (qc_status_change_run d1 Hst1) as H2.
  set (d2 := if is_true (sql_or _ _) then _ else d1) in H2.
  assert (Hst2 : stored v d2 NEW) by (apply stored_if_store; exact Hst1).
  pose proof (repair_status_change_run d2 Hst2) as H3.
  set (d3 := if is_true (sql_ne Bool.eqb _ _) then _ else d2) in H3.
  assert (Hst3 : stored v d3 NEW) by (apply stored_if_store; exact Hst2).
  exists d1, d2, d3. repeat split; try assumption; try apply Hst1; try apply Hst2; try apply Hst3.
  simpl. rewrite H1. simpl. rewrite H2. simpl. exact H3.
Qed.

End UpdatePath.

(** ** Updates that change the status only *)

Lemma qc_unchanged_skips (q : option string) :
  is_true
    (sql_or (sql_and (Some (is_null q)) (Some (is_not_null q)))
            (sql_and (Some (is_not_null q)) (sql_ne String.eqb q q))) = false.
Proof. destruct q as [x|]; simpl; [now rewrite String.eqb_refl|reflexivity]. Qed.

Lemma repair_unchanged_skips (c : option bool) :
  is_true (sql_ne Bool.eqb c c) = false.
Proof. now destruct c as [[|]|]. Qed.

(** The earlier status-change trigger with a known acting user. *)
Lemma status_change_trigger_run (v : variant) (s : session) (d : db)
    (OLD NEW : Device.row) (a b : Status.device_status) :
  Device.status OLD = Some a -> Device.status NEW = Some b -> a <> b ->
  stored v d NEW ->
  has_id (map User.id (users d)) (auth_uid s) = true ->
  trg_device_status_change v s OLD NEW d
  = Ok (store v (ledger_row s d (Device.id NEW)
                   (status_transaction_type (Some b)) (Device.id NEW)
                   (Some a) (Some b) None (auth_uid s)) d).
Proof.
  intros Ha Hb Hab Hst Hu.
  unfold trg_device_status_change, fn_create_device_transaction.
  rewrite Ha, Hb, (status_ne_fires _ _ Hab).
  destruct (device_row_ok_inv _ _ (proj2 Hst)) as [[i Hi] _].
  destruct (proj1 (has_id_true _ _) Hu) as [w [Hw _]].
  rewrite Hi, Hw, status_transaction_type_lookup. simpl.
  rewrite insert_device_transaction_ok; [reflexivity|].
  rewrite <- Hi, <- Hb, <- Hw. apply ledger_row_ok; assumption.
Qed.




(** ** Updates that change several fields *)



(** One row per check that fires, whatever the other two checks do. *)
Lemma update_path_one_row_per_check
    (v : variant) (s : session) (d : db) (OLD NEW : Device.row) :
  stored v d NEW ->
  exists d',
    trg_device_transaction v s (TG_UPDATE OLD NEW) d = Ok d'
    /\ List.length (device_transactions v d')
       = (List.length (device_transactions v d)
          + (if is_true (sql_ne Status.eqb (Device.status OLD) (Device.status NEW))
             then 1 else 0)
          + (if is_true
                  (sql_or
                     (sql_and (Some (is_null (Device.qc_status OLD)))
                              (Some (is_not_null (Device.qc_status NEW))))
                     (sql_and (Some (is_not_null (Device.qc_status OLD)))
                              (sql_ne String.eqb (Device.qc_status NEW)
                                                 (Device.qc_status OLD))))
             then 1 else 0)
          + (if is_true (sql_ne Bool.eqb (Device.repair_completed OLD)
                                          (Device.repair_completed NEW))
             then 1 else 0))%nat.
Proof.
  intros Hst.
  destruct (update_path_run v s OLD NEW d Hst)
    as [d1 [d2 [d3 [H1 [H2 [H3 [Htrg [Hst1 [Hst2 _]]]]]]]]].
  exists d3. split; [exact Htrg|].
  rewrite status_change_run in H1 by assumption.
  rewrite qc_status_change_run in H2 by assumption.
  rewrite repair_status_change_run in H3 by assumption.
  apply Ok_inj in H1, H2, H3. subst d3 d2 d1.
  repeat match goal with
         | |- context [if ?b then store _ _ _ else _] => destruct b
         end;
    rewrite ?device_transactions_store, ?length_app; simpl; lia.
Qed.

(** Status set to qc_required and QC outcome set to pass in one update: two
    rows, the status-change row and the QC row, both of kind qc. *)
Example qc_required_and_pass_in_one_update :
  exists d',
    trg_cellular_device_transaction as_alice (TG_UPDATE phone checked_phone) checked_db
    = Ok d'
    /\ map (fun r => (Tx.transaction_type r, Tx.previous_status r,
                      Tx.new_status r, Tx.notes r))
           (cellular_device_transactions d')
       = [(Some Kind.qc, Some Status.in_stock, Some Status.qc_required,
           Some "QC pass: ");
          (Some Kind.qc, Some Status.qc_required, Some Status.qc_required,
           Some "QC pass: ")].
Proof. eexists. split; reflexivity. Qed.

(** C6.  On a device update the QC check appends its ledger row exactly when
    the QC outcome was assigned for the first time (null to non-null) or
    changed to a different value.  That row has kind qc, previous and new
    status both equal to the device's current status, and the note
    ["QC " verdict ": " comments].  The rows of the other two checks are not
    QC-outcome rows: a status-change row has different previous and new
    status, a repair row has kind repair. *)
Theorem qc_row_exactly_when_outcome_assigned_or_changed
    (v : variant) (s : session) (d : db) (OLD NEW : Device.row) :
  stored v d NEW ->
  exists d1 d2 d3,
    status_change v s OLD NEW d = Ok d1
    /\ qc_status_change v s OLD NEW d1 = Ok d2
    /\ repair_status_change v s OLD NEW d2 = Ok d3
    /\ trg_device_transaction v s (TG_UPDATE OLD NEW) d = Ok d3
    /\ ((Device.qc_status OLD = None /\ Device.qc_status NEW <> None)
        \/ (exists q0 q, Device.qc_status OLD = Some q0
                         /\ Device.qc_status NEW = Some q /\ q0 <> q) ->
        exists r q,
          device_transactions v d2 = (device_transactions v d1 ++ [r])%list
          /\ Device.qc_status NEW = Some q
          /\ Tx.device_id r = Device.id NEW
          /\ Tx.transaction_type r = Some Kind.qc
          /\ Tx.previous_status r = Device.status NEW
          /\ Tx.new_status r = Device.status NEW
          /\ Tx.notes r
             = Some ((("QC " ++ q) ++ ": ")
                     ++ match Device.qc_comments NEW with
                        | Some comments => comments
                        | None => ""
                        end))
    /\ (~ ((Device.qc_status OLD = None /\ Device.qc_status NEW <> None)
           \/ (exists q0 q, Device.qc_status OLD = Some q0
                            /\ Device.qc_status NEW = Some q /\ q0 <> q)) ->
        device_transactions v d2 = device_transactions v d1)
    /\ (exists before,
          device_transactions v d1 = (device_transactions v d ++ before)%list
          /\ Forall (fun r => Tx.previous_status r <> Tx.new_status r) before)
    /\ (exists after,
          device_transactions v d3 = (device_transactions v d2 ++ after)%list
          /\ Forall (fun r => Tx.transaction_type r = Some Kind.repair) after).
Proof.
  intros Hst.
  destruct (update_path_run v s OLD NEW d Hst)
    as [d1 [d2 [d3 [H1 [H2 [H3 [Htrg [Hst1 [Hst2 _]]]]]]]]].
  exists d1, d2, d3. repeat (split; [assumption|]).
  rewrite status_change_run in H1 by assumption.
  rewrite qc_status_change_run in H2 by assumption.
  rewrite repair_status_change_run in H3 by assumption.
  apply Ok_inj in H1, H2, H3.
  split; [|split; [|split]].
  - intros Hqc. rewrite (proj2 (qc_condition_iff _ _) Hqc) in H2.
    assert (Hq : exists q, Device.qc_status NEW = Some q).
    { destruct Hqc as [[_ Hn]|[q0 [q [_ [Hn _]]]]]; [|eauto].
      destruct (Device.qc_status NEW) as [q|]; [eauto|congruence]. }
    destruct Hq as [q Hq].
    eexists _, q. subst d2. rewrite device_transactions_store.
    split; [reflexivity|]. split; [assumption|].
    simpl. unfold qc_notes. rewrite Hq.
    destruct (Device.qc_comments NEW); now repeat split.
  - intros Hqc.
    destruct (is_true (sql_or _ _)) eqn:E in H2.
    + apply qc_condition_iff in E. contradiction.
    + now subst d2.
  - destruct (is_true (sql_ne Status.eqb _ _)) eqn:E in H1.
    + eexists [_]. subst d1. rewrite device_transactions_store.
      split; [reflexivity|]. constructor; [|constructor]. simpl.
      destruct (status_ne_true_inv _ _ E) as [a [b [-> [-> Hab]]]]. congruence.
    + exists []. subst d1. now rewrite app_nil_r.
  - destruct (is_true (sql_ne Bool.eqb _ _)) eqn:E in H3.
    + eexists [_]. subst d3. rewrite device_transactions_store.
      split; [reflexivity|]. now constructor.
    + exists []. subst d3. now rewrite app_nil_r.
Qed.

Lemma qc_row_exactly_when_outcome_assigned_or_changed_witness :
  stored cellular repaired_db repaired_phone
  /\ exists d1 d2,
       status_change cellular as_bob phone repaired_phone repaired_db = Ok d1
       /\ qc_status_change cellular as_bob phone repaired_phone d1 = Ok d2
       /\ exists r, cellular_device_transactions d2
                    = (cellular_device_transactions d1 ++ [r])%list
                    /\ Tx.notes r = Some "QC pass: screen replaced".
Proof.
  assert (Hst : stored cellular repaired_db repaired_phone)
    by (split; [left; reflexivity | reflexivity]).
  split; [exact Hst|].
  destruct (qc_row_exactly_when_outcome_assigned_or_changed cellular as_bob
              repaired_db phone repaired_phone Hst)
    as [d1 [d2 [d3 [H1 [H2 [_ [_ [Hyes _]]]]]]]].
  exists d1, d2. split; [exact H1|]. split; [exact H2|].
  destruct Hyes as [r [q [Hl [Hq [_ [_ [_ [_ Hn]]]]]]]].
  - left. split; [reflexivity | discriminate].
  - exists r. split; [exact Hl|].
    injection Hq as <-. exact Hn.
Defined.

(** ** Creating a device *)

Lemma devices_with_devices (v : variant) (l : list Device.row) (d : db) :
  devices v (with_devices v l d) = l.
Proof. now destruct v. Qed.

Lemma device_transactions_with_devices (v w : variant) (l : list Device.row) (d : db) :
  device_transactions w (with_devices v l d) = device_transactions w d.
Proof. now destruct v, w. Qed.

Lemma stored_with_devices (v : variant) (l : list Device.row) (d : db) (NEW : Device.row) :
  In NEW l -> device_row_ok d NEW = true -> stored v (with_devices v l d) NEW.
Proof.
  intros Hin Hok. split.
  - now rewrite devices_with_devices.
  - rewrite (device_row_ok_users d); [assumption|]. now destruct v.
Qed.





(** ** What a trigger run adds to the ledger *)

Lemma insert_device_transaction_added (v : variant) (s : session)
    (dev : option uuid) (k : option Kind.transaction_type) (ref : option uuid)
    (prev new : option Status.device_status) (notes : option string)
    (u : option uuid) (d : db) (x : option uuid * db) :
  insert_device_transaction v s dev k ref prev new notes u d = Ok x ->
  new <> None
  /\ snd x = store v (ledger_row s d dev k ref prev new notes u) d.
Proof.
  intros H. apply insert_device_transaction_inv in H. destruct H as [Hok Hx].
  split; [|assumption].
  unfold device_transaction_ok in Hok. rewrite !andb_true_iff in Hok. simpl in Hok.
  destruct Hok as [[[[_ Hn] _] _] _]. now destruct new.
Qed.

Lemma bind_Ok_inv {A B : Type} (m : result A) (k : A -> result B) (b : B) :
  bind m k = Ok b -> exists a, m = Ok a /\ k a = Ok b.
Proof. destruct m as [a|msg]; simpl; [eauto|discriminate]. Qed.

(** A check either leaves the database as it is or stores one row. *)
Lemma status_change_added (v : variant) (s : session) (OLD NEW : Device.row) (d d' : db) :
  status_change v s OLD NEW d = Ok d' ->
  d' = d \/ exists r, d' = store v r d /\ Tx.previous_status r <> None.
Proof.
  unfold status_change.
  destruct (is_true _) eqn:E; [|intros H; left; congruence].
  intros H. apply bind_Ok_inv in H. destruct H as [x [H Hx]].
  apply insert_device_transaction_added in H. destruct H as [_ H].
  apply Ok_inj in Hx. subst d'.
  right. eexists. split; [exact H|]. simpl.
  destruct (status_ne_true_inv _ _ E) as [a [b [-> _]]]. discriminate.
Qed.

Lemma qc_status_change_added (v : variant) (s : session) (OLD NEW : Device.row) (d d' : db) :
  qc_status_change v s OLD NEW d = Ok d' ->
  d' = d \/ exists r, d' = store v r d /\ Tx.previous_status r <> None.
Proof.
  unfold qc_status_change.
  destruct (is_true _); [|intros H; left; congruence].
  intros H. apply bind_Ok_inv in H. destruct H as [x [H Hx]].
  apply insert_device_transaction_added in H. destruct H as [Hn H].
  apply Ok_inj in Hx. subst d'.
  right. eexists. split; [exact H|]. exact Hn.
Qed.

Lemma repair_status_change_added (v : variant) (s : session) (OLD NEW : Device.row) (d d' : db) :
  repair_status_change v s OLD NEW d = Ok d' ->
  d' = d \/ exists r, d' = store v r d /\ Tx.previous_status r <> None.
Proof.
  unfold repair_status_change.
  destruct (is_true _); [|intros H; left; congruence].
  intros H. apply bind_Ok_inv in H. destruct H as [x [H Hx]].
  apply insert_device_transaction_added in H. destruct H as [Hn H].
  apply Ok_inj in Hx. subst d'.
  right. eexists. split; [exact H|]. exact Hn.
Qed.

Lemma extends_refl (v : variant) (P : Tx.row -> Prop) (d : db) : extends v P d d.
Proof. split; [reflexivity|]. exists []. now rewrite app_nil_r. Qed.

Lemma extends_store (v : variant) (P : Tx.row -> Prop) (r : Tx.row) (d : db) :
  P r -> extends v P d (store v r d).
Proof.
  intros Hr. split; [intros w; apply devices_store|].
  exists [r]. split; [apply device_transactions_store | now constructor].
Qed.

Lemma extends_trans (v : variant) (P : Tx.row -> Prop) (d1 d2 d3 : db) :
  extends v P d1 d2 -> extends v P d2 d3 -> extends v P d1 d3.
Proof.
  intros [Hd1 [l1 [Hl1 HP1]]] [Hd2 [l2 [Hl2 HP2]]]. split.
  - intros w. now rewrite Hd2, Hd1.
  - exists (l1 ++ l2)%list. split.
    + now rewrite Hl2, Hl1, app_assoc.
    + apply Forall_app. now split.
Qed.

Lemma extends_check (v : variant) (P : Tx.row -> Prop) (d d' : db) :
  (d' = d \/ exists r, d' = store v r d /\ P r) -> extends v P d d'.
Proof.
  intros [->|[r [-> Hr]]]; [apply extends_refl | now apply extends_store].
Qed.

Lemma trigger_extends (v : variant) (s : session) (ev : trigger_event) (d d' : db) :
  trg_device_transaction v s ev d = Ok d' ->
  extends v (on_path (path_of_event ev)) d d'.
Proof.
  destruct ev as [NEW|OLD NEW]; simpl; intros H.
  - apply bind_Ok_inv in H. destruct H as [x [H Hx]].
    apply insert_device_transaction_added in H. destruct H as [_ H].
    apply Ok_inj in Hx. subst d'. rewrite H.
    apply extends_store. unfold on_path. simpl. tauto.
  - apply bind_Ok_inv in H. destruct H as [d1 [H1 H]].
    apply bind_Ok_inv in H. destruct H as [d2 [H2 H3]].
    assert (Himp : forall r, Tx.previous_status r <> None -> on_path update_path r).
    { intros r Hr. unfold on_path. split; [contradiction|discriminate]. }
    apply extends_trans with d1; [|apply extends_trans with d2]; apply extends_check.
    + destruct (status_change_added _ _ _ _ _ _ H1) as [?|[r [? ?]]]; eauto.
    + destruct (qc_status_change_added _ _ _ _ _ _ H2) as [?|[r [? ?]]]; eauto.
    + destruct (repair_status_change_added _ _ _ _ _ _ H3) as [?|[r [? ?]]]; eauto.
Qed.

Lemma fn_create_device_transaction_added (v : variant) (s : session)
    (dev : option uuid) (k : option Kind.transaction_type) (ref : option uuid)
    (prev new : option Status.device_status) (notes : option string)
    (u : option uuid) (d : db) (x : option uuid * db) :
  fn_create_device_transaction v s dev k ref prev new notes u d = Ok x ->
  snd x = store v (ledger_row s d dev k ref prev new notes u) d.
Proof.
  unfold fn_create_device_transaction. destruct (_ || _); [discriminate|].
  intros H. now apply insert_device_transaction_added in H.
Qed.

(** The earlier trigger function either leaves the database as it is or
    stores one row, from the old status to the new one. *)
Lemma status_change_trigger_added (v : variant) (s : session)
    (OLD NEW : Device.row) (d d' : db) :
  trg_device_status_change v s OLD NEW d = Ok d' ->
  d' = d
  \/ exists r,
       d' = store v r d
       /\ Tx.previous_status r <> None
       /\ Tx.device_id r = Device.id NEW
       /\ Tx.previous_status r = Device.status OLD
       /\ Tx.new_status r = Device.status NEW.
Proof.
  unfold trg_device_status_change.
  destruct (is_true _) eqn:E; [|intros H; left; congruence].
  intros H. apply bind_Ok_inv in H. destruct H as [x [H Hx]].
  apply fn_create_device_transaction_added in H.
  apply Ok_inj in Hx. subst d'.
  right. eexists. split; [exact H|]. cbn [Tx.previous_status Tx.device_id Tx.new_status ledger_row].
  destruct (status_ne_true_inv _ _ E) as [a [b [-> _]]].
  repeat split. discriminate.
Qed.

Lemma device_update_triggers_extends (v : variant) (s : session)
    (OLD NEW : Device.row) (d d' : db) :
  device_update_triggers v s OLD NEW d = Ok d' ->
  extends v (on_path update_path) d d'.
Proof.
  destruct v; cbn [device_update_triggers]; intros H.
  - exact (trigger_extends cellular s (TG_UPDATE OLD NEW) d d' H).
  - unfold after_update_triggers in H. apply bind_Ok_inv in H.
    destruct H as [d1 [H1 H2]].
    apply extends_trans with d1.
    + apply extends_check.
      destruct (status_change_trigger_added _ _ _ _ _ _ H1) as [?|[r [? [Hr _]]]];
        [now left|].
      right. exists r. split; [assumption|].
      unfold on_path. split; [contradiction|discriminate].
    + exact (trigger_extends serial s (TG_UPDATE OLD NEW) d1 d' H2).
Qed.

(** ** Sequences of device operations *)

Lemma skipn_length_app {A : Type} (l added : list A) :
  skipn (List.length l) (l ++ added) = added.
Proof. induction l as [|x l IH]; [reflexivity | exact IH]. Qed.

Lemma execute_added (v : variant) (s : session) (op : device_operation) (d d' : db) :
  execute v s op d = Ok d' ->
  exists added,
    device_transactions v d' = (device_transactions v d ++ added)%list
    /\ Forall (on_path (path_of op)) added.
Proof.
  destruct op as [NEW|set target]; simpl.
  - unfold insert_device. destruct (_ && _); [|discriminate].
    intros H. apply trigger_extends in H. destruct H as [_ [added [Hl HP]]].
    exists added. now rewrite Hl, device_transactions_with_devices.
  - unfold update_device. destruct (find _ _) as [OLD|].
    + destruct (device_row_ok _ _); [|discriminate].
      intros H. apply device_update_triggers_extends in H.
      destruct H as [_ [added [Hl HP]]].
      exists added. now rewrite Hl, device_transactions_with_devices.
    + intros H. apply Ok_inj in H. subst d'. exists []. now rewrite app_nil_r.
Qed.

Lemma commit_added (v : variant) (s : session) (op : device_operation) (d : db) :
  exists added,
    device_transactions v (commit (execute v s op) d)
    = (device_transactions v d ++ added)%list
    /\ Forall (on_path (path_of op)) added.
Proof.
  unfold commit. destruct (execute v s op d) as [d'|msg] eqn:E.
  - now apply execute_added with s.
  - exists []. now rewrite app_nil_r.
Qed.

(** C7.  Whatever the sequence of device operations, the ledger afterwards is
    the ledger before followed by the rows the operations produced, and such
    a row has a null previous status if and only if the creation (insert)
    path produced it; every row the update path produced has a non-null
    previous status. *)
Theorem null_previous_status_iff_insert_path
    (v : variant) (ops : list (session * device_operation)) (d : db) :
  device_transactions v (fst (run v ops d))
  = (device_transactions v d ++ map snd (snd (run v ops d)))%list
  /\ (forall p r, In (p, r) (snd (run v ops d)) ->
                  (Tx.previous_status r = None <-> p = insert_path))
  /\ (forall r, In (update_path, r) (snd (run v ops d)) ->
                Tx.previous_status r <> None).
Proof.
  assert (H : device_transactions v (fst (run v ops d))
              = (device_transactions v d ++ map snd (snd (run v ops d)))%list
              /\ forall p r, In (p, r) (snd (run v ops d)) -> on_path p r).
  { revert d. induction ops as [|[s op] rest IH]; intros d; simpl.
    - split; [now rewrite app_nil_r | intros p r []].
    - destruct (commit_added v s op d) as [added [Hl HP]].
      specialize (IH (commit (execute v s op) d)).
      destruct (run v rest (commit (execute v s op) d)) as [d2 log].
      simpl in *. destruct IH as [IHl IHP].
      rewrite Hl, skipn_length_app. split.
      + rewrite IHl, Hl, map_app, map_map, app_assoc. simpl. now rewrite map_id.
      + intros p r Hin. apply in_app_or in Hin. destruct Hin as [Hin|Hin].
        * apply in_map_iff in Hin. destruct Hin as [r' [Heq Hin]].
          injection Heq as <- <-.
          rewrite Forall_forall in HP. now apply HP.
        * now apply IHP. }
  destruct H as [Hl HP]. split; [exact Hl|]. split; [exact HP|].
  intros r Hin Hnone. apply HP in Hin. apply Hin in Hnone. discriminate.
Qed.

(** Creating the tablet, selling the phone and a rejected update leave two
    rows, one per path. *)
Example run_sample :
  snd (run cellular
         [(as_bob, Create tablet);
          (as_alice, Update (set_status Status.sold) 10%N);
          (as_alice, Update (fun r => set_status Status.sold
                                        {| Device.id := Device.id r;
                                           Device.status := Device.status r;
                                           Device.qc_status := Some "maybe";
                                           Device.qc_comments := Device.qc_comments r;
                                           Device.repair_completed := Device.repair_completed r;
                                           Device.created_by := Device.created_by r;
                                           Device.updated_by := Device.updated_by r |})
                            11%N)]
         sample_db)
  = [(insert_path,
      {| Tx.id := Some 100%N; Tx.device_id := Some 11%N;
         Tx.transaction_type := Some Kind.transfer; Tx.reference_id := Some 11%N;
         Tx.previous_status := None; Tx.new_status := Some Status.in_stock;
         Tx.notes := Some "Device created"; Tx.created_by := Some 2%N;
         Tx.created_at := Some 2000 |});
     (update_path,
      {| Tx.id := Some 101%N; Tx.device_id := Some 10%N;
         Tx.transaction_type := Some Kind.sale; Tx.reference_id := Some 10%N;
         Tx.previous_status := Some Status.in_stock; Tx.new_status := Some Status.sold;
         Tx.notes := None; Tx.created_by := Some 1%N;
         Tx.created_at := Some 1000 |})].
Proof. reflexivity. Qed.

(** ** Status transitions are never rejected *)

Lemma find_replace {A : Type} (f : A -> bool) (OLD NEW : A) (l : list A) :
  find f l = Some OLD -> f NEW = true ->
  find f (map (fun r => if f r then NEW else r) l) = Some NEW.
Proof.
  intros Hfind HNEW. induction l as [|x l IH]; [discriminate|]. simpl in *.
  destruct (f x) eqn:E.
  - now rewrite HNEW.
  - rewrite E. now apply IH.
Qed.






(** ** Quantity ledgers *)

Lemma quantity_transactions_store (k : stock) (r : QtyTx.row) (d : db) :
  quantity_transactions k (store_quantity k r d)
  = (quantity_transactions k d ++ [r])%list.
Proof. now destruct k. Qed.

Lemma in_int4_bounds (z : Z) :
  in_int4 z = true <-> - 2147483648 <= z <= 2147483647.
Proof.
  unfold in_int4, int4_min, int4_max.
  change (2 ^ 31) with 2147483648.
  rewrite andb_true_iff, !Z.leb_le. lia.
Qed.

Lemma valid_quantities_inv (r : QtyTx.row) (q p n : Z) :
  valid_quantities r = Ok true ->
  QtyTx.quantity r = Some q ->
  QtyTx.previous_quantity r = Some p ->
  QtyTx.new_quantity r = Some n ->
  0 <= p /\ 0 <= n /\ Z.abs (n - p) = Z.abs q.
Proof.
  unfold valid_quantities. intros H Hq Hp Hn. rewrite Hq, Hp, Hn in H.
  unfold sql_sub, sql_abs, int4 in H.
  destruct (in_int4 (n - p)); cbn [bind] in H; [|discriminate].
  destruct (in_int4 (Z.abs (n - p))); cbn [bind] in H; [|discriminate].
  destruct (in_int4 (Z.abs q)); cbn [bind] in H; [|discriminate].
  apply Ok_inj in H. unfold sql_ge, sql_eq in H.
  destruct (Z.leb_spec 0 p), (Z.leb_spec 0 n),
    (Z.eqb_spec (Z.abs (n - p)) (Z.abs q));
    cbn [sql_and check_passes] in H; try discriminate.
  auto.
Qed.

Lemma insert_quantity_transaction_inv (k : stock) (s : session)
    (item : option uuid) (t : option Kind.transaction_type) (ref : option uuid)
    (qty prev new : option Z) (notes : option string) (u : option uuid)
    (d : db) (x : option uuid * db) :
  insert_quantity_transaction k s item t ref qty prev new notes u d = Ok x ->
  quantity_transaction_ok k d
    (quantity_ledger_row s d item t ref qty prev new notes u) = true
  /\ valid_quantities (quantity_ledger_row s d item t ref qty prev new notes u)
     = Ok true
  /\ snd x = store_quantity k
               (quantity_ledger_row s d item t ref qty prev new notes u) d.
Proof.
  unfold insert_quantity_transaction. intros H.
  apply bind_Ok_inv in H. destruct H as [valid [Hv H]].
  destruct (quantity_transaction_ok k d _); [|discriminate].
  destruct valid; [|discriminate]. simpl in H.
  apply Ok_inj in H. subst x. now repeat split.
Qed.

(** A write that goes through has passed the validation of the function and
    the constraints of the table. *)
Lemma fn_create_quantity_transaction_inv (k : stock) (s : session)
    (item : option uuid) (t : option Kind.transaction_type) (ref : option uuid)
    (qty prev new : option Z) (notes : option string) (u : option uuid)
    (d : db) (x : option uuid * db) :
  fn_create_quantity_transaction k s item t ref qty prev new notes u d = Ok x ->
  snd x = store_quantity k
            (quantity_ledger_row s d item t ref qty prev new notes u) d
  /\ exists q p n,
       qty = Some q /\ prev = Some p /\ new = Some n
       /\ 0 <= p /\ 0 <= n /\ Z.abs (n - p) = Z.abs q.
Proof.
  unfold fn_create_quantity_transaction.
  destruct (_ || _); [discriminate|].
  destruct (is_true (sql_lt new (Some 0))); [discriminate|].
  intros H.
  apply bind_Ok_inv in H. destruct H as [diff [_ H]].
  apply bind_Ok_inv in H. destruct H as [lhs [_ H]].
  apply bind_Ok_inv in H. destruct H as [rhs [_ H]].
  destruct (is_true (sql_ne Z.eqb lhs rhs)); [discriminate|].
  apply insert_quantity_transaction_inv in H. destruct H as [Hok [Hv Hx]].
  split; [exact Hx|].
  unfold quantity_transaction_ok in Hok. rewrite !andb_true_iff in Hok. simpl in Hok.
  destruct Hok as [[[[[[_ Hq] Hp] Hn] _] _] _].
  apply is_not_null_true in Hq, Hp, Hn.
  destruct Hq as [q ->], Hp as [p ->], Hn as [n ->].
  exists q, p, n. repeat (split; [reflexivity|]).
  exact (valid_quantities_inv _ q p n Hv eq_refl eq_refl eq_refl).
Qed.

Lemma not_Ok_Raise {A : Type} (m : result A) :
  (forall x, m <> Ok x) -> exists msg, m = Raise msg.
Proof. destruct m as [a|msg]; [intros H; now destruct (H a) | eauto]. Qed.

(** C4 (amended).  Every part or accessory ledger write that goes through
    records one row with [|new_quantity - previous_quantity|] equal to the
    absolute value of the recorded quantity delta (the recorded delta itself
    may be negative) and a non-negative new quantity; when the new quantity
    is negative or the two absolute values differ the write fails and no
    ledger row is added. *)
Theorem quantity_write_is_checked
    (k : stock) (s : session)
    (item : option uuid) (t : option Kind.transaction_type) (ref : option uuid)
    (qty prev new : option Z) (notes : option string) (u : option uuid)
    (d : db) :
  (forall x,
      fn_create_quantity_transaction k s item t ref qty prev new notes u d = Ok x ->
      exists r q p n,
        quantity_transactions k (snd x) = (quantity_transactions k d ++ [r])%list
        /\ QtyTx.quantity r = Some q
        /\ QtyTx.previous_quantity r = Some p
        /\ QtyTx.new_quantity r = Some n
        /\ Z.abs (n - p) = Z.abs q
        /\ 0 <= n)
  /\ ((exists n, new = Some n /\ n < 0)
      \/ (exists q p n, qty = Some q /\ prev = Some p /\ new = Some n
                        /\ Z.abs (n - p) <> Z.abs q) ->
      (exists msg,
          fn_create_quantity_transaction k s item t ref qty prev new notes u d
          = Raise msg)
      /\ quantity_transactions k
           (commit (fun d0 =>
                      x <- fn_create_quantity_transaction k s item t ref
                             qty prev new notes u d0 ;;
                      Ok (snd x)) d)
         = quantity_transactions k d).
Proof.
  split.
  - intros x H. apply fn_create_quantity_transaction_inv in H.
    destruct H as [Hx [q [p [n [-> [-> [-> [Hp [Hn Habs]]]]]]]]].
    eexists _, q, p, n. rewrite Hx, quantity_transactions_store.
    now repeat split.
  - intros Hbad.
    assert (Hfail : exists msg,
               fn_create_quantity_transaction k s item t ref qty prev new notes u d
               = Raise msg).
    { apply not_Ok_Raise. intros x H.
      apply fn_create_quantity_transaction_inv in H.
      destruct H as [_ [q [p [n [Hq [Hp [Hn [_ [Hpos Habs]]]]]]]]].
      destruct Hbad as [[n' [Hn' Hneg]]|[q' [p' [n' [Hq' [Hp' [Hn' Hne]]]]]]].
      - rewrite Hn in Hn'. injection Hn' as <-. lia.
      - rewrite Hq in Hq'. rewrite Hp in Hp'. rewrite Hn in Hn'.
        injection Hq' as <-. injection Hp' as <-. injection Hn' as <-.
        contradiction. }
    split; [exact Hfail|].
    destruct Hfail as [msg Hmsg]. unfold commit. now rewrite Hmsg.
Qed.

(** C4, as stated, fails: a write whose recorded quantity delta is -3 goes
    through although [|new_quantity - previous_quantity|] is 3. *)
Lemma negative_delta_is_recorded :
  exists x r,
    fn_create_part_transaction as_alice (Some 20%N) (Some Kind.sale) (Some 20%N)
      (Some (-3)) (Some 5) (Some 2) None (Some 1%N) sample_db = Ok x
    /\ part_transactions (snd x) = (part_transactions sample_db ++ [r])%list
    /\ QtyTx.quantity r = Some (-3)
    /\ QtyTx.previous_quantity r = Some 5
    /\ QtyTx.new_quantity r = Some 2
    /\ Z.abs (2 - 5) <> -3.
Proof.
  eexists _, _. split; [reflexivity|]. simpl.
  split; [reflexivity|]. now repeat split.
Qed.

(** ** Validation of the required fields *)

Lemma required_null_iff {A B C D : Type}
    (a : option A) (b : option B) (c : option C) (e : option D) :
  is_null a || is_null b || is_null c || is_null e = true
  <-> a = None \/ b = None \/ c = None \/ e = None.
Proof.
  destruct a, b, c, e; simpl; split; intros H; try discriminate; try tauto;
    repeat (destruct H as [H|H]; try discriminate).
Qed.

Lemma fn_create_device_transaction_required (v : variant) (s : session)
    (dev : option uuid) (t : option Kind.transaction_type) (ref : option uuid)
    (prev new : option Status.device_status) (notes : option string)
    (u : option uuid) (d : db) :
  fn_create_device_transaction v s dev t ref prev new notes u d
  = Raise "Required parameters cannot be null"
  <-> dev = None \/ t = None \/ ref = None \/ u = None.
Proof.
  rewrite <- required_null_iff. unfold fn_create_device_transaction.
  destruct (_ || _); [tauto|].
  unfold insert_device_transaction.
  destruct (device_transaction_ok v d _); split; discriminate.
Qed.

Lemma fn_create_quantity_transaction_required (k : stock) (s : session)
    (item : option uuid) (t : option Kind.transaction_type) (ref : option uuid)
    (qty prev new : option Z) (notes : option string) (u : option uuid) (d : db) :
  fn_create_quantity_transaction k s item t ref qty prev new notes u d
  = Raise "Required parameters cannot be null"
  <-> item = None \/ t = None \/ ref = None \/ u = None.
Proof.
  rewrite <- required_null_iff. unfold fn_create_quantity_transaction.
  destruct (_ || _); [tauto|].
  split; [|discriminate]. intros H. exfalso.
  destruct (is_true (sql_lt new (Some 0))); [discriminate|].
  destruct (sql_sub new prev) as [diff|m1] eqn:E1; cbn [bind] in H.
  2:{ destruct new as [n|], prev as [p|]; cbn [sql_sub] in E1; try discriminate.
      unfold int4 in E1. destruct (in_int4 (n - p)); cbn [bind] in E1; congruence. }
  destruct (sql_abs diff) as [lhs|m2] eqn:E2; cbn [bind] in H.
  2:{ destruct diff as [z|]; cbn [sql_abs] in E2; try discriminate.
      unfold int4 in E2. destruct (in_int4 (Z.abs z)); cbn [bind] in E2; congruence. }
  destruct (sql_abs qty) as [rhs|m3] eqn:E3; cbn [bind] in H.
  2:{ destruct qty as [z|]; cbn [sql_abs] in E3; try discriminate.
      unfold int4 in E3. destruct (in_int4 (Z.abs z)); cbn [bind] in E3; congruence. }
  destruct (is_true (sql_ne Z.eqb lhs rhs)); [discriminate|].
  unfold insert_quantity_transaction in H.
  destruct (valid_quantities _) as [valid|m4] eqn:E4; cbn [bind] in H.
  - destruct (_ && _); discriminate.
  - unfold valid_quantities in E4.
    change (QtyTx.new_quantity (quantity_ledger_row s d item t ref qty prev new notes u))
      with new in E4.
    change (QtyTx.previous_quantity (quantity_ledger_row s d item t ref qty prev new notes u))
      with prev in E4.
    change (QtyTx.quantity (quantity_ledger_row s d item t ref qty prev new notes u))
      with qty in E4.
    rewrite E1 in E4. cbn [bind] in E4. rewrite E2 in E4. cbn [bind] in E4.
    rewrite E3 in E4. cbn [bind] in E4. discriminate.
Qed.

Lemma int4_of_abs (z : Z) : in_int4 (Z.abs z) = true -> int4 z = Ok z.
Proof.
  intros H. unfold int4.
  assert (Hz : in_int4 z = true).
  { revert H. unfold in_int4, int4_min, int4_max.
    change (2 ^ 31) with 2147483648.
    rewrite !andb_true_iff, !Z.leb_le. lia. }
  now rewrite Hz.
Qed.

(** C5 (amended).  Every ledger-creation function raises its
    "Required parameters cannot be null" error if and only if a required
    identifying field (device or item id, transaction kind, reference id,
    acting user id) is null.  A call can fail for other reasons.  A
    device-ledger write goes through exactly when, besides the four fields,
    the new status is present, the acting user is a row of [users] and, for
    the serial ledger, the device is a row of [serial_devices]; the cellular
    ledger accepts any device id.  With the four fields present a
    quantity-ledger write raises "New quantity cannot be negative" for a
    negative new quantity, and "Quantity change mismatch" when
    [|new - previous|] differs from [|quantity|].  Whatever the failure, the
    call is rolled back as a whole and writes no ledger row. *)
Theorem required_fields_are_validated :
  (forall (v : variant) (s : session)
          (dev : option uuid) (t : option Kind.transaction_type) (ref : option uuid)
          (prev new : option Status.device_status) (notes : option string)
          (u : option uuid) (d : db),
      (fn_create_device_transaction v s dev t ref prev new notes u d
       = Raise "Required parameters cannot be null"
       <-> dev = None \/ t = None \/ ref = None \/ u = None)
      /\ (succeeds (fn_create_device_transaction v s dev t ref prev new notes u d)
          = true
          <-> dev <> None /\ t <> None /\ ref <> None /\ u <> None
              /\ new <> None
              /\ has_id (map User.id (users d)) u = true
              /\ (v = serial ->
                  has_id (map Device.id (serial_devices d)) dev = true))
      /\ (forall msg,
             fn_create_device_transaction v s dev t ref prev new notes u d = Raise msg ->
             commit (fun d0 =>
                       x <- fn_create_device_transaction v s dev t ref prev new
                              notes u d0 ;;
                       Ok (snd x)) d = d))
  /\ (forall (k : stock) (s : session)
             (item : option uuid) (t : option Kind.transaction_type) (ref : option uuid)
             (qty prev new : option Z) (notes : option string)
             (u : option uuid) (d : db),
         (fn_create_quantity_transaction k s item t ref qty prev new notes u d
          = Raise "Required parameters cannot be null"
          <-> item = None \/ t = None \/ ref = None \/ u = None)
         /\ (forall n,
                ~ (item = None \/ t = None \/ ref = None \/ u = None) ->
                new = Some n -> n < 0 ->
                fn_create_quantity_transaction k s item t ref qty prev new notes u d
                = Raise "New quantity cannot be negative")
         /\ (forall q p n,
                ~ (item = None \/ t = None \/ ref = None \/ u = None) ->
                qty = Some q -> prev = Some p -> new = Some n ->
                0 <= n ->
                in_int4 (Z.abs (n - p)) = true -> in_int4 (Z.abs q) = true ->
                Z.abs (n - p) <> Z.abs q ->
                fn_create_quantity_transaction k s item t ref qty prev new notes u d
                = Raise "Quantity change mismatch")
         /\ (forall msg,
                fn_create_quantity_transaction k s item t ref qty prev new notes u d
                = Raise msg ->
                commit (fun d0 =>
                          x <- fn_create_quantity_transaction k s item t ref
                                 qty prev new notes u d0 ;;
                          Ok (snd x)) d = d)).
Proof.
  split.
  - intros. split; [apply fn_create_device_transaction_required|]. split.
    + unfold fn_create_device_transaction, insert_device_transaction,
        device_transaction_ok.
      cbn [Tx.device_id Tx.transaction_type Tx.reference_id Tx.new_status
           Tx.created_by ledger_row].
      destruct dev as [i|], t as [k|], ref as [r|], u as [w|], new as [b|];
        cbn [is_null is_not_null negb orb andb succeeds references];
        try (split; [discriminate | intros H; decompose [and] H; congruence]).
      destruct v; cbn [device_id_fk references andb].
      * destruct (has_id (map User.id (users d)) (Some w)); cbn [succeeds];
          (split; [intros H | intros [_ [_ [_ [_ [_ [H _]]]]]]]);
          try discriminate H;
          repeat split; try reflexivity; intros; discriminate.
      * destruct (has_id (map Device.id (serial_devices d)) (Some i)) eqn:Hi,
          (has_id (map User.id (users d)) (Some w)) eqn:Hw; cbn [andb succeeds];
          (split; [intros H | intros [_ [_ [_ [_ [_ [H1 H2]]]]]]]);
          try discriminate H; try discriminate H1;
          try (specialize (H2 eq_refl); discriminate H2);
          repeat split; try reflexivity; intros; discriminate.
    + intros msg H. unfold commit. now rewrite H.
  - intros. split; [apply fn_create_quantity_transaction_required|].
    split; [|split].
    + intros n Hnn -> Hn. rewrite <- required_null_iff in Hnn.
      unfold fn_create_quantity_transaction.
      destruct (_ || _); [now elim Hnn|].
      cbn [sql_lt is_true]. now rewrite (proj2 (Z.ltb_lt n 0) Hn).
    + intros q p n Hnn -> -> -> Hn Hd Hq Hne.
      rewrite <- required_null_iff in Hnn.
      unfold fn_create_quantity_transaction.
      destruct (_ || _); [now elim Hnn|].
      cbn [sql_lt is_true]. rewrite (proj2 (Z.ltb_ge n 0) Hn).
      cbn [sql_sub]. rewrite (int4_of_abs _ Hd). cbn [bind sql_abs].
      unfold int4 at 1. rewrite Hd. cbn [bind].
      unfold int4 at 1. rewrite Hq. cbn [bind sql_ne is_true].
      now rewrite (proj2 (Z.eqb_neq _ _) Hne).
    + intros msg H. unfold commit. now rewrite H.
Qed.

(** C5, as stated, fails in its "only if" half: with the four required
    fields present, a device-ledger write with a null new status is rejected
    by the NOT NULL constraint of the table, and a part-ledger write with a
    negative new quantity is rejected by the quantity validation. *)
Lemma failure_with_all_required_fields :
  fn_create_cellular_transaction as_alice
    (Some 10%N) (Some Kind.sale) (Some 10%N) (Some Status.in_stock) None None
    (Some 1%N) sample_db
  = Raise "violates a constraint of the device transactions table"
  /\ fn_create_part_transaction as_alice
       (Some 20%N) (Some Kind.sale) (Some 20%N) (Some 6) (Some 5) (Some (-1)) None
       (Some 1%N) sample_db
     = Raise "New quantity cannot be negative".
Proof. split; reflexivity. Qed.

(** A part-ledger write whose delta does not match the two quantities. *)
Example quantity_mismatch_is_raised :
  fn_create_part_transaction as_alice
    (Some 20%N) (Some Kind.sale) (Some 20%N) (Some 2) (Some 5) (Some 2) None
    (Some 1%N) sample_db
  = Raise "Quantity change mismatch".
Proof. reflexivity. Qed.

(** The two device ledgers differ on a device id that no device has: the
    cellular ledger, without its foreign key, stores the row; the serial
    ledger rejects it. *)
Example unknown_device_in_the_two_ledgers :
  succeeds (fn_create_cellular_transaction as_alice
              (Some 99%N) (Some Kind.sale) (Some 99%N) (Some Status.in_stock)
              (Some Status.sold) None (Some 1%N) sample_db) = true
  /\ fn_create_serial_transaction as_alice
       (Some 99%N) (Some Kind.sale) (Some 99%N) (Some Status.in_stock)
       (Some Status.sold) None (Some 1%N) sample_db
     = Raise "violates a constraint of the device transactions table".
Proof. split; reflexivity. Qed.

(** ** Quantity triggers *)

Lemma int4_ok (z : Z) : - 2147483648 <= z <= 2147483647 -> int4 z = Ok z.
Proof. intros H. unfold int4. now rewrite (proj2 (in_int4_bounds z) H). Qed.

Lemma has_id_of_item (l : list Item.row) (r : Item.row) (i : uuid) :
  In r l -> Item.id r = Some i -> has_id (map Item.id l) (Some i) = true.
Proof.
  intros Hin Hid. apply has_id_true. exists i. split; [reflexivity|].
  rewrite <- Hid. now apply in_map.
Qed.

(** The quantity trigger for a stored item and a known acting user. *)
Lemma trg_quantity_change_run (k : stock) (s : session) (d : db)
    (OLD NEW : Item.row) (p n : Z) (i w : uuid) :
  Item.quantity OLD = Some p -> Item.quantity NEW = Some n ->
  0 <= p <= 2147483647 -> 0 <= n <= 2147483647 -> p <> n ->
  Item.id NEW = Some i -> In NEW (items k d) ->
  auth_uid s = Some w -> has_id (map User.id (users d)) (Some w) = true ->
  trg_quantity_change k s OLD NEW d
  = Ok (store_quantity k
          (quantity_ledger_row s d (Some i)
             (Some (if p <? n then Kind.purchase else Kind.sale)) (Some i)
             (Some (Z.abs (n - p))) (Some p) (Some n) None (Some w)) d).
Proof.
  intros Hp Hn Hpr Hnr Hne Hi Hin Hw Hu.
  unfold trg_quantity_change. rewrite Hp, Hn, Hi, Hw.
  assert (E : is_true (sql_ne Z.eqb (Some p) (Some n)) = true).
  { cbn [sql_ne is_true]. destruct (Z.eqb_spec p n); [contradiction|reflexivity]. }
  rewrite E. clear E.
  assert (Eabs : Z.abs (Z.abs (n - p)) = Z.abs (n - p)) by lia.
  unfold sql_gt, sql_lt.
  replace (if is_true (Some (p <? n)) then Some Kind.purchase else Some Kind.sale)
    with (Some (if p <? n then Kind.purchase else Kind.sale))
    by now destruct (p <? n).
  unfold fn_create_quantity_transaction, insert_quantity_transaction,
    valid_quantities.
  cbn [sql_sub sql_abs bind is_null orb is_true sql_lt
       QtyTx.quantity QtyTx.previous_quantity QtyTx.new_quantity
       quantity_ledger_row].
  rewrite !(int4_ok (n - p)) by lia. cbn [bind sql_abs].
  rewrite !(int4_ok (Z.abs (n - p))) by lia. cbn [bind sql_abs sql_sub].
  rewrite !Eabs, !(int4_ok (Z.abs (n - p))) by lia. cbn [bind].
  destruct (Z.ltb_spec n 0); [lia|].
  cbn [sql_ne sql_eq sql_ge sql_and is_true check_passes].
  rewrite Z.eqb_refl.
  destruct (Z.leb_spec 0 p); [|lia]. destruct (Z.leb_spec 0 n); [|lia].
  cbn [negb sql_and check_passes].
  assert (Hok : quantity_transaction_ok k d
                  (quantity_ledger_row s d (Some i)
                     (Some (if p <? n then Kind.purchase else Kind.sale)) (Some i)
                     (Some (Z.abs (n - p))) (Some p) (Some n) None (Some w)) = true).
  { unfold quantity_transaction_ok, quantity_ledger_row. simpl.
    now rewrite (has_id_of_item _ _ i Hin Hi), Hu. }
  rewrite Hok. reflexivity.
Qed.

(** C10 (amended).  An update of a part or accessory row that changes its
    quantity, made by a signed-in user ([auth.uid()] is the id of a user),
    makes the quantity trigger append exactly one ledger row: its kind is
    purchase when the new quantity is greater than the old one and sale
    otherwise, and its recorded quantity is [|new - old|].  Without a
    signed-in user the trigger raises and the update is rejected.  An update
    that leaves the quantity unchanged appends no row. *)
Theorem quantity_change_appends_one_row
    (k : stock) (s : session) (d : db) (OLD NEW : Item.row) (p n : Z) (i : uuid) :
  Item.quantity OLD = Some p -> Item.quantity NEW = Some n ->
  0 <= p <= 2147483647 -> 0 <= n <= 2147483647 ->
  Item.id NEW = Some i -> In NEW (items k d) ->
  (p <> n ->
   has_id (map User.id (users d)) (auth_uid s) = true ->
   exists d' r,
     trg_quantity_change k s OLD NEW d = Ok d'
     /\ quantity_transactions k d' = (quantity_transactions k d ++ [r])%list
     /\ QtyTx.item_id r = Item.id NEW
     /\ (p < n -> QtyTx.transaction_type r = Some Kind.purchase)
     /\ (n < p -> QtyTx.transaction_type r = Some Kind.sale)
     /\ QtyTx.quantity r = Some (Z.abs (n - p))
     /\ QtyTx.previous_quantity r = Some p
     /\ QtyTx.new_quantity r = Some n)
  /\ (p <> n -> auth_uid s = None ->
      trg_quantity_change k s OLD NEW d = Raise "Required parameters cannot be null")
  /\ (p = n -> trg_quantity_change k s OLD NEW d = Ok d).
Proof.
  intros Hp Hn Hpr Hnr Hi Hin. split; [|split].
  - intros Hne Hu.
    destruct (proj1 (has_id_true _ _) Hu) as [w [Hw _]].
    rewrite Hw in Hu.
    rewrite (trg_quantity_change_run k s d OLD NEW p n i w) by assumption.
    eexists _, _. split; [reflexivity|].
    rewrite quantity_transactions_store. split; [reflexivity|].
    cbn [QtyTx.item_id QtyTx.transaction_type QtyTx.quantity
         QtyTx.previous_quantity QtyTx.new_quantity quantity_ledger_row].
    split; [now rewrite Hi|].
    split; [intros Hlt; now rewrite (proj2 (Z.ltb_lt p n) Hlt)|].
    split; [intros Hlt; destruct (Z.ltb_spec p n); [lia|reflexivity]|].
    now repeat split.
  - intros Hne Hnone.
    unfold trg_quantity_change. rewrite Hp, Hn, Hi, Hnone.
    assert (E : is_true (sql_ne Z.eqb (Some p) (Some n)) = true).
    { cbn [sql_ne is_true]. destruct (Z.eqb_spec p n); [contradiction|reflexivity]. }
    rewrite E. cbn [sql_sub sql_abs bind].
    rewrite (int4_ok (n - p)) by lia. cbn [bind sql_abs].
    rewrite (int4_ok (Z.abs (n - p))) by lia. cbn [bind].
    unfold fn_create_quantity_transaction. cbn [is_null].
    rewrite !orb_true_r. reflexivity.
  - intros ->. unfold trg_quantity_change. rewrite Hp, Hn.
    cbn [sql_ne is_true]. now rewrite Z.eqb_refl.
Qed.

Lemma quantity_change_appends_one_row_witness :
  exists d' r,
    trg_part_quantity_change as_alice screen screen_restocked restocked_db = Ok d'
    /\ part_transactions d' = (part_transactions restocked_db ++ [r])%list
    /\ QtyTx.transaction_type r = Some Kind.purchase
    /\ QtyTx.quantity r = Some 2.
Proof.
  assert (Hp : 0 <= 5 <= 2147483647) by lia.
  assert (Hn : 0 <= 7 <= 2147483647) by lia.
  assert (Hin : In screen_restocked (items part restocked_db)) by (left; reflexivity).
  destruct (quantity_change_appends_one_row part as_alice restocked_db
              screen screen_restocked 5 7 20%N eq_refl eq_refl Hp Hn eq_refl Hin)
    as [Hyes _].
  destruct Hyes as [d' [r [Ht [Hl [_ [Hk [_ [Hq _]]]]]]]]; [lia | reflexivity |].
  exists d', r. repeat split; try assumption.
  apply Hk. lia.
Defined.

(** C10, as stated, fails: in a session without a signed-in user an update
    that changes the quantity of a part appends no ledger row, the trigger
    raises instead. *)
Lemma quantity_change_without_user_appends_nothing :
  Item.quantity screen = Some 5
  /\ Item.quantity screen_restocked = Some 7
  /\ In screen_restocked (parts restocked_db)
  /\ trg_part_quantity_change as_service screen screen_restocked restocked_db
     = Raise "Required parameters cannot be null"
  /\ ~ (exists d' r,
          trg_part_quantity_change as_service screen screen_restocked restocked_db
          = Ok d'
          /\ part_transactions d' = (part_transactions restocked_db ++ [r])%list).
Proof.
  split; [reflexivity|]. split; [reflexivity|]. split; [left; reflexivity|].
  split; [reflexivity|].
  intros [d' [r [H _]]]. discriminate H.
Qed.

(** ** The device history *)

Lemma not_older_total (a b : option Z) :
  not_older a b = false -> not_older b a = true.
Proof.
  destruct a as [x|], b as [y|]; simpl; try discriminate; try reflexivity.
  rewrite Z.leb_gt, Z.leb_le. lia.
Qed.

Lemma insert_by_created_at_perm (r : Tx.row) (l : list Tx.row) :
  Permutation (insert_by_created_at r l) (r :: l).
Proof.
  induction l as [|x l IH]; simpl; [apply Permutation_refl|].
  destruct (not_older _ _); [apply Permutation_refl|].
  apply perm_trans with (x :: r :: l); [now apply perm_skip | apply perm_swap].
Qed.

Lemma order_by_created_at_desc_perm (l : list Tx.row) :
  Permutation (order_by_created_at_desc l) l.
Proof.
  induction l as [|x l IH]; simpl; [constructor|].
  apply perm_trans with (x :: order_by_created_at_desc l);
    [apply insert_by_created_at_perm | now apply perm_skip].
Qed.

Lemma insert_by_created_at_hd (r x : Tx.row) (l : list Tx.row) :
  newest_first x r -> HdRel newest_first x l ->
  HdRel newest_first x (insert_by_created_at r l).
Proof.
  intros Hxr Hl. destruct l as [|y l]; simpl; [now constructor|].
  destruct (not_older _ _); constructor; [assumption|].
  now inversion Hl.
Qed.

Lemma insert_by_created_at_sorted (r : Tx.row) (l : list Tx.row) :
  Sorted newest_first l -> Sorted newest_first (insert_by_created_at r l).
Proof.
  induction 1 as [|x l Hs IH Hhd]; simpl; [repeat constructor|].
  destruct (not_older (Tx.created_at r) (Tx.created_at x)) eqn:E.
  - constructor; [now constructor | now constructor].
  - constructor; [exact IH|].
    apply insert_by_created_at_hd; [|exact Hhd].
    now apply not_older_total.
Qed.

Lemma order_by_created_at_desc_sorted (l : list Tx.row) :
  Sorted newest_first (order_by_created_at_desc l).
Proof.
  induction l as [|x l IH]; simpl; [constructor|].
  now apply insert_by_created_at_sorted.
Qed.

(** The embedded user of a row: present exactly when the acting user is the
    signed-in reader, the only profile the policy on [users] lets them
    read. *)
Lemma embed_user_own (s : session) (d : db) (r : Tx.row) (w : uuid) :
  auth_uid s = Some w ->
  Tx.created_by r = Some w ->
  embed_user s d r
  = match find (fun u => is_true (sql_eq N.eqb (User.id u) (Some w))) (users d) with
    | Some u => Some {| Entry.full_name := User.full_name u |}
    | None => None
    end.
Proof.
  intros Hw Hr. unfold embed_user, readable_users, authenticated.
  rewrite Hw, Hr. simpl.
  induction (users d) as [|u l IH]; [reflexivity|]. cbn [filter find].
  destruct (User.id u) as [j|] eqn:Ej; cbn [sql_eq is_true]; [|exact IH].
  destruct (N.eqb_spec w j) as [Heq|Hne].
  - subst j. cbn [find]. rewrite Ej. cbn [sql_eq is_true].
    now rewrite N.eqb_refl.
  - destruct (N.eqb_spec j w) as [Heq|_]; [now elim Hne|]. exact IH.
Qed.

Lemma embed_user_other (s : session) (d : db) (r : Tx.row) (w : uuid) :
  auth_uid s = Some w ->
  Tx.created_by r <> Some w ->
  embed_user s d r = None.
Proof.
  intros Hw Hr. unfold embed_user.
  destruct (find _ (readable_users s d)) as [u|] eqn:E; [|reflexivity].
  apply find_some in E. destruct E as [Hin Hu].
  unfold readable_users, authenticated in Hin. rewrite Hw in Hin. simpl in Hin.
  apply filter_In in Hin. destruct Hin as [_ Hown].
  destruct (User.id u) as [j|]; simpl in Hown; [|discriminate].
  destruct (N.eqb_spec w j); [subst j|discriminate].
  destruct (Tx.created_by r) as [c|]; simpl in Hu; [|discriminate].
  destruct (N.eqb_spec w c); [subst c|discriminate]. congruence.
Qed.

(** What the query of [loadDeviceHistory] returns to a signed-in reader: the
    ledger rows of the queried device and no others, newest first, each with
    the acting user's display name only when the acting user is the reader;
    the embedded user of every other row is null. *)
Lemma query_device_history_spec (v : variant) (s : session) (id w : uuid) (d : db) :
  auth_uid s = Some w ->
  exists rows,
    query_device_history v s id d = map (select_entry s d) rows
    /\ Permutation rows
         (filter (fun r => is_true (sql_eq N.eqb (Tx.device_id r) (Some id)))
                 (device_transactions v d))
    /\ Sorted newest_first rows
    /\ (forall r, In r rows ->
          Tx.device_id r = Some id
          /\ (Tx.created_by r <> Some w -> embed_user s d r = None)).
Proof.
  intros Hw. unfold query_device_history, readable_transactions, authenticated.
  rewrite Hw. simpl.
  eexists. split; [reflexivity|].
  split; [apply order_by_created_at_desc_perm|].
  split; [apply order_by_created_at_desc_sorted|].
  intros r Hin.
  apply (Permutation_in _ (order_by_created_at_desc_perm _)) in Hin.
  apply filter_In in Hin. destruct Hin as [_ Hid]. split.
  - destruct (Tx.device_id r) as [j|]; simpl in Hid; [|discriminate].
    destruct (N.eqb_spec j id); [now subst|discriminate].
  - intros Hother. now apply embed_user_other with w.
Qed.

(** C9 at a failing input.  Bob sold the phone; the ledger row names him as
    the acting user and [users] holds his display name.  When Alice opens the
    history of the phone, the row comes back with a null user instead of
    Bob's display name; when Bob opens it, his name is there. *)
Theorem device_history_hides_other_users :
  cellular_device_transactions sold_by_bob_db
  = [{| Tx.id := Some 100%N; Tx.device_id := Some 10%N;
        Tx.transaction_type := Some Kind.sale; Tx.reference_id := Some 10%N;
        Tx.previous_status := Some Status.in_stock;
        Tx.new_status := Some Status.sold;
        Tx.notes := None; Tx.created_by := Some 2%N;
        Tx.created_at := Some 2000 |}]
  /\ In bob (users sold_by_bob_db)
  /\ loadDeviceHistory "cellular" 10%N as_alice sold_by_bob_db
     = Ok [{| History.id := Some 100%N;
              History.date := Some 2000;
              History.operation := "sale (in_stock " ++ arrow ++ " sold)";
              History.user := None;
              History.details := None |}]
  /\ loadDeviceHistory "cellular" 10%N as_bob sold_by_bob_db
     = Ok [{| History.id := Some 100%N;
              History.date := Some 2000;
              History.operation := "sale (in_stock " ++ arrow ++ " sold)";
              History.user := Some {| Entry.full_name := Some "Bob" |};
              History.details := None |}].
Proof.
  split; [reflexivity|]. split; [right; left; reflexivity|].
  split; reflexivity.
Qed.

(** * Further properties *)

(** ** The repair check *)

Lemma repair_condition_iff (o n : option bool) :
  is_true (sql_ne Bool.eqb o n) = true
  <-> exists c c', o = Some c /\ n = Some c' /\ c <> c'.
Proof.
  destruct o as [c|], n as [c'|]; simpl; split;
    try discriminate; try (intros [x [y [H1 [H2 _]]]]; discriminate).
  - intros H. exists c, c'. repeat split. destruct c, c'; simpl in H; congruence.
  - intros [x [y [H1 [H2 Hne]]]]. injection H1 as <-. injection H2 as <-.
    destruct c, c'; simpl; congruence.
Qed.

(** X1.  On a device update the repair check appends its ledger row exactly
    when the repair-completed flag changed.  The row has kind repair,
    previous and new status both the device's current status, the acting
    user [NEW.updated_by], and the note "Repair completed" when the flag is
    now set, "Repair started" when it is now cleared. *)
Theorem repair_row_exactly_when_flag_changed
    (v : variant) (s : session) (d : db) (OLD NEW : Device.row) :
  stored v d NEW ->
  exists d1 d2 d3,
    status_change v s OLD NEW d = Ok d1
    /\ qc_status_change v s OLD NEW d1 = Ok d2
    /\ repair_status_change v s OLD NEW d2 = Ok d3
    /\ trg_device_transaction v s (TG_UPDATE OLD NEW) d = Ok d3
    /\ (forall c c',
          Device.repair_completed OLD = Some c ->
          Device.repair_completed NEW = Some c' -> c <> c' ->
          exists r,
            device_transactions v d3 = (device_transactions v d2 ++ [r])%list
            /\ Tx.device_id r = Device.id NEW
            /\ Tx.transaction_type r = Some Kind.repair
            /\ Tx.previous_status r = Device.status NEW
            /\ Tx.new_status r = Device.status NEW
            /\ Tx.created_by r = Device.updated_by NEW
            /\ Tx.notes r
               = Some (if c' then "Repair completed" else "Repair started"))
    /\ (Device.repair_completed OLD = Device.repair_completed NEW ->
        device_transactions v d3 = device_transactions v d2).
Proof.
  intros Hst.
  destruct (update_path_run v s OLD NEW d Hst)
    as [d1 [d2 [d3 [H1 [H2 [H3 [Htrg [Hst1 [Hst2 _]]]]]]]]].
  exists d1, d2, d3. repeat (split; [assumption|]).
  rewrite repair_status_change_run in H3 by assumption.
  apply Ok_inj in H3. split.
  - intros c c' Hc Hc' Hne.
    assert (E : is_true (sql_ne Bool.eqb (Device.repair_completed OLD)
                                          (Device.repair_completed NEW)) = true)
      by (apply repair_condition_iff; now exists c, c').
    rewrite E in H3. eexists. subst d3. rewrite device_transactions_store.
    split; [reflexivity|]. simpl. rewrite Hc'. now destruct c'.
  - intros Heq. rewrite Heq, repair_unchanged_skips in H3. now subst d3.
Qed.

Lemma repair_row_exactly_when_flag_changed_witness :
  stored cellular fixed_db fixed_phone
  /\ exists d3 r,
       trg_cellular_device_transaction as_alice (TG_UPDATE phone fixed_phone) fixed_db
       = Ok d3
       /\ cellular_device_transactions d3 = [r]
       /\ Tx.notes r = Some "Repair completed".
Proof.
  assert (Hst : stored cellular fixed_db fixed_phone)
    by (split; [left; reflexivity | reflexivity]).
  split; [exact Hst|].
  destruct (repair_row_exactly_when_flag_changed cellular as_alice fixed_db
              phone fixed_phone Hst)
    as [d1 [d2 [d3 [H1 [H2 [_ [Ht [Hyes _]]]]]]]].
  destruct (Hyes false true eq_refl eq_refl) as [r [Hl [_ [_ [_ [_ [_ Hn]]]]]]];
    [discriminate|].
  exists d3, r. split; [exact Ht|]. split; [|exact Hn].
  change (device_transactions cellular d3 = [r]). rewrite Hl.
  vm_compute in H1. apply Ok_inj in H1. subst d1.
  vm_compute in H2. apply Ok_inj in H2. subst d2. reflexivity.
Defined.

(** ** Updates that no check reacts to *)

Lemma status_unchanged_skips (x : option Status.device_status) :
  is_true (sql_ne Status.eqb x x) = false.
Proof. destruct x as [a|]; [|reflexivity]. simpl. now destruct a. Qed.

Lemma qc_cleared_skips (o : option string) :
  is_true
    (sql_or (sql_and (Some (is_null o)) (Some (is_not_null (@None string))))
            (sql_and (Some (is_not_null o)) (sql_ne String.eqb None o))) = false.
Proof. now destruct o. Qed.

(** X2.  An update that leaves the status and the repair-completed flag as
    they were, and either leaves the QC outcome as it was or clears it to
    NULL, writes nothing: both trigger functions return without touching the
    database and without raising, whatever the row, the database and the
    session. *)
Theorem unrelated_update_appends_nothing
    (v : variant) (s : session) (d : db) (OLD NEW : Device.row) :
  Device.status NEW = Device.status OLD ->
  Device.repair_completed NEW = Device.repair_completed OLD ->
  Device.qc_status NEW = Device.qc_status OLD \/ Device.qc_status NEW = None ->
  trg_device_transaction v s (TG_UPDATE OLD NEW) d = Ok d
  /\ trg_device_status_change v s OLD NEW d = Ok d.
Proof.
  intros Hs Hr Hq. split.
  - unfold trg_device_transaction, status_change, qc_status_change,
      repair_status_change.
    rewrite Hs, Hr, status_unchanged_skips, repair_unchanged_skips.
    cbn [bind].
    destruct Hq as [Hq|Hq]; rewrite Hq.
    + now rewrite qc_unchanged_skips.
    + now rewrite qc_cleared_skips.
  - unfold trg_device_status_change. now rewrite Hs, status_unchanged_skips.
Qed.

Lemma unrelated_update_appends_nothing_witness :
  trg_cellular_device_transaction as_service
    (TG_UPDATE repaired_phone
       {| Device.id := Some 10%N;
          Device.status := Some Status.qc_required;
          Device.qc_status := None;
          Device.qc_comments := Some "verdict withdrawn";
          Device.repair_completed := Some true;
          Device.created_by := Some 1%N;
          Device.updated_by := None |})
    sample_db
  = Ok sample_db.
Proof.
  apply (unrelated_update_appends_nothing cellular as_service sample_db
           repaired_phone); [reflexivity | reflexivity | right; reflexivity].
Defined.

(** ** What a trigger run writes, and where *)

Lemma same_outside_ledger_refl (v : variant) (d : db) : same_outside_ledger v d d.
Proof. unfold same_outside_ledger. now repeat split. Qed.

Lemma same_outside_ledger_store (v : variant) (r : Tx.row) (d : db) :
  same_outside_ledger v d (store v r d).
Proof.
  unfold same_outside_ledger. repeat split; try (now destruct v).
  intros w Hw. destruct v, w; try reflexivity; now elim Hw.
Qed.

Lemma same_outside_ledger_trans (v : variant) (d1 d2 d3 : db) :
  same_outside_ledger v d1 d2 -> same_outside_ledger v d2 d3 ->
  same_outside_ledger v d1 d3.
Proof.
  unfold same_outside_ledger.
  intros [A1 [A2 [A3 [A4 [A5 [A6 [A7 [A8 A9]]]]]]]]
         [B1 [B2 [B3 [B4 [B5 [B6 [B7 [B8 B9]]]]]]]].
  repeat split; try congruence.
  intros w Hw. now rewrite B9, A9.
Qed.

Lemma status_change_writes (v : variant) (s : session) (OLD NEW : Device.row) (d d' : db) :
  status_change v s OLD NEW d = Ok d' ->
  writes v (written_for s NEW (Device.updated_by NEW)) d d'.
Proof.
  unfold status_change.
  destruct (is_true _); [|intros H; left; congruence].
  intros H. apply bind_Ok_inv in H. destruct H as [x [H Hx]].
  apply insert_device_transaction_added in H. destruct H as [_ H].
  apply Ok_inj in Hx. subst d'.
  right. eexists. split; [exact H|]. unfold written_for. now repeat split.
Qed.

Lemma qc_status_change_writes (v : variant) (s : session) (OLD NEW : Device.row) (d d' : db) :
  qc_status_change v s OLD NEW d = Ok d' ->
  writes v (written_for s NEW (Device.updated_by NEW)) d d'.
Proof.
  unfold qc_status_change.
  destruct (is_true _); [|intros H; left; congruence].
  intros H. apply bind_Ok_inv in H. destruct H as [x [H Hx]].
  apply insert_device_transaction_added in H. destruct H as [_ H].
  apply Ok_inj in Hx. subst d'.
  right. eexists. split; [exact H|]. unfold written_for. now repeat split.
Qed.

Lemma repair_status_change_writes (v : variant) (s : session) (OLD NEW : Device.row) (d d' : db) :
  repair_status_change v s OLD NEW d = Ok d' ->
  writes v (written_for s NEW (Device.updated_by NEW)) d d'.
Proof.
  unfold repair_status_change.
  destruct (is_true _); [|intros H; left; congruence].
  intros H. apply bind_Ok_inv in H. destruct H as [x [H Hx]].
  apply insert_device_transaction_added in H. destruct H as [_ H].
  apply Ok_inj in Hx. subst d'.
  right. eexists. split; [exact H|]. unfold written_for. now repeat split.
Qed.

Lemma writes_frame (v : variant) (P : Tx.row -> Prop) (d d' : db) :
  writes v P d d' ->
  same_outside_ledger v d d'
  /\ exists added,
       device_transactions v d' = (device_transactions v d ++ added)%list
       /\ Forall P added /\ (List.length added <= 1)%nat.
Proof.
  intros [->|[r [-> Hr]]].
  - split; [apply same_outside_ledger_refl|].
    exists []. rewrite app_nil_r. repeat split; [constructor | simpl; lia].
  - split; [apply same_outside_ledger_store|].
    exists [r]. rewrite device_transactions_store.
    repeat split; [now constructor | simpl; lia].
Qed.

(** X3.  A run of the ledger trigger that returns writes to one table only,
    the ledger of its own device table: every other table is as before, the
    ledger keeps its rows and gains one row on the insert path and at most
    three on the update path.  Every row it adds carries the device's id as
    device id and as reference id, the device's current status as new
    status, the transaction time as creation time, and as acting user the
    creator of an inserted row, respectively the last updater of an updated
    row, not the session user. *)
Theorem trigger_writes_only_its_ledger
    (v : variant) (s : session) (ev : trigger_event) (d d' : db) :
  trg_device_transaction v s ev d = Ok d' ->
  same_outside_ledger v d d'
  /\ exists added,
       device_transactions v d' = (device_transactions v d ++ added)%list
       /\ Forall (written_for s (new_row ev) (acting_user ev)) added
       /\ match ev with
          | TG_INSERT _ => List.length added = 1%nat
          | TG_UPDATE _ _ => (List.length added <= 3)%nat
          end.
Proof.
  destruct ev as [NEW|OLD NEW]; simpl; intros H.
  - apply bind_Ok_inv in H. destruct H as [x [H Hx]].
    apply insert_device_transaction_added in H. destruct H as [_ H].
    apply Ok_inj in Hx. subst d'. rewrite H.
    split; [apply same_outside_ledger_store|].
    eexists [_]. rewrite device_transactions_store.
    split; [reflexivity|]. split; [|reflexivity].
    constructor; [|constructor]. unfold written_for. now repeat split.
  - apply bind_Ok_inv in H. destruct H as [d1 [H1 H]].
    apply bind_Ok_inv in H. destruct H as [d2 [H2 H3]].
    apply status_change_writes, writes_frame in H1.
    apply qc_status_change_writes, writes_frame in H2.
    apply repair_status_change_writes, writes_frame in H3.
    destruct H1 as [F1 [l1 [E1 [P1 L1]]]], H2 as [F2 [l2 [E2 [P2 L2]]]],
      H3 as [F3 [l3 [E3 [P3 L3]]]].
    split.
    + apply same_outside_ledger_trans with d2; [|assumption].
      now apply same_outside_ledger_trans with d1.
    + exists (l1 ++ l2 ++ l3)%list. split; [|split].
      * now rewrite E3, E2, E1, <- !app_assoc.
      * rewrite !Forall_app. now repeat split.
      * rewrite !length_app. lia.
Qed.

Lemma trigger_writes_only_its_ledger_witness :
  exists d' added,
    trg_serial_device_transaction as_bob (TG_UPDATE phone repaired_phone)
      (with_devices serial [repaired_phone] sample_db) = Ok d'
    /\ cellular_device_transactions d' = []
    /\ serial_device_transactions d' = added
    /\ Forall (fun r => Tx.created_by r = Some 2%N) added.
Proof.
  set (d := with_devices serial [repaired_phone] sample_db).
  assert (Hrun : exists d', trg_device_transaction serial as_bob
                              (TG_UPDATE phone repaired_phone) d = Ok d')
    by (eexists; reflexivity).
  destruct Hrun as [d' Hrun].
  destruct (trigger_writes_only_its_ledger serial as_bob
              (TG_UPDATE phone repaired_phone) d d' Hrun)
    as [[_ [_ [_ [_ [_ [_ [_ [_ Hother]]]]]]]] [added [Hl [HP _]]]].
  exists d', added. split; [exact Hrun|]. split; [|split].
  - apply (Hother cellular). discriminate.
  - exact Hl.
  - eapply Forall_impl; [|exact HP]. intros r [_ [_ [_ [Hu _]]]]. exact Hu.
Defined.

(** ** The status-change trigger of the first migration *)

(** X4.  The earlier status-change trigger, run for a stored row whose old
    and new status are [a] and [b]: when the status did not change it
    returns without writing, even in a session without a user; when it
    changed it goes through exactly when [auth.uid()] is the id of a row of
    [users], and then records [auth.uid()], not [NEW.updated_by], as the
    acting user, with a null note. *)
Theorem status_change_trigger_needs_a_user
    (v : variant) (s : session) (d : db) (OLD NEW : Device.row)
    (a b : Status.device_status) :
  stored v d NEW ->
  Device.status OLD = Some a -> Device.status NEW = Some b ->
  (a = b -> trg_device_status_change v s OLD NEW d = Ok d)
  /\ (a <> b ->
      (succeeds (trg_device_status_change v s OLD NEW d)
       = has_id (map User.id (users d)) (auth_uid s))
      /\ forall d',
           trg_device_status_change v s OLD NEW d = Ok d' ->
           exists r,
             device_transactions v d' = (device_transactions v d ++ [r])%list
             /\ Tx.created_by r = auth_uid s
             /\ Tx.notes r = None
             /\ Tx.previous_status r = Some a
             /\ Tx.new_status r = Some b).
Proof.
  intros Hst Ha Hb. split.
  - intros ->. unfold trg_device_status_change.
    now rewrite Ha, Hb, status_unchanged_skips.
  - intros Hab.
    destruct (has_id (map User.id (users d)) (auth_uid s)) eqn:Hu.
    + rewrite (status_change_trigger_run v s d OLD NEW a b) by assumption.
      split; [reflexivity|]. intros d' H. apply Ok_inj in H. subst d'.
      eexists. rewrite device_transactions_store. split; [reflexivity|].
      now repeat split.
    + assert (Hfail : succeeds (trg_device_status_change v s OLD NEW d) = false).
      { unfold trg_device_status_change, fn_create_device_transaction.
        rewrite Ha, Hb, (status_ne_fires _ _ Hab).
        destruct (_ || _); [reflexivity|].
        unfold insert_device_transaction.
        rewrite has_id_false_not_ok; [reflexivity | exact s | exact Hu]. }
      split; [exact Hfail|].
      intros d' H. rewrite H in Hfail. discriminate.
Qed.

Lemma status_change_trigger_needs_a_user_witness :
  stored cellular touched_db touched_phone
  /\ trg_cellular_device_status_change as_service phone touched_phone touched_db
     = Ok touched_db.
Proof.
  assert (Hst : stored cellular touched_db touched_phone)
    by (split; [left; reflexivity | reflexivity]).
  split; [exact Hst|].
  exact (proj1 (status_change_trigger_needs_a_user cellular as_service touched_db
                  phone touched_phone Status.in_stock Status.in_stock
                  Hst eq_refl eq_refl) eq_refl).
Defined.

(** ** Both UPDATE triggers on one table *)

(** The insert-or-update trigger on a status-only update. *)
Lemma status_only_update_run (v : variant) (s : session) (d : db)
    (OLD : Device.row) (a b : Status.device_status) :
  Device.status OLD = Some a -> a <> b ->
  stored v d (set_status b OLD) ->
  trg_device_transaction v s (TG_UPDATE OLD (set_status b OLD)) d
  = Ok (store v (ledger_row s d (Device.id OLD)
                   (status_transaction_type (Some b)) (Device.id OLD)
                   (Some a) (Some b) (status_change_notes (set_status b OLD))
                   (Device.updated_by OLD)) d).
Proof.
  intros Ha Hab Hst.
  destruct (update_path_run v s OLD (set_status b OLD) d Hst)
    as [d1 [d2 [d3 [H1 [H2 [H3 [Htrg [Hst1 [Hst2 _]]]]]]]]].
  rewrite status_change_run in H1 by assumption.
  rewrite qc_status_change_run in H2 by assumption.
  rewrite repair_status_change_run in H3 by assumption.
  change (Device.status (set_status b OLD)) with (Some b) in H1.
  rewrite Ha, (status_ne_fires _ _ Hab) in H1.
  change (Device.qc_status (set_status b OLD)) with (Device.qc_status OLD) in H2.
  change (Device.repair_completed (set_status b OLD))
    with (Device.repair_completed OLD) in H3.
  rewrite qc_unchanged_skips in H2. rewrite repair_unchanged_skips in H3.
  apply Ok_inj in H1, H2, H3. subst d3 d2. rewrite Htrg. now subst d1.
Qed.

(** X5.  With both UPDATE triggers of the sources attached to a device
    table, an update that changes the status only is recorded twice when the
    session has a known user: the ledger gains two rows with the same device,
    kind, previous and new status, the first for [auth.uid()] with a null
    note, the second for [NEW.updated_by].  In a session without a user the
    first trigger raises and the update is rejected, although the second
    trigger alone accepts it. *)
Theorem both_triggers_record_a_status_change_twice
    (v : variant) (s : session) (d : db) (OLD : Device.row)
    (a b : Status.device_status) :
  Device.status OLD = Some a -> a <> b ->
  stored v d (set_status b OLD) ->
  (has_id (map User.id (users d)) (auth_uid s) = true ->
   exists d' r1 r2,
     after_update_triggers v s OLD (set_status b OLD) d = Ok d'
     /\ device_transactions v d' = (device_transactions v d ++ [r1; r2])%list
     /\ Tx.device_id r1 = Tx.device_id r2
     /\ Tx.transaction_type r1 = Tx.transaction_type r2
     /\ Tx.previous_status r1 = Some a /\ Tx.previous_status r2 = Some a
     /\ Tx.new_status r1 = Some b /\ Tx.new_status r2 = Some b
     /\ Tx.created_by r1 = auth_uid s
     /\ Tx.created_by r2 = Device.updated_by OLD
     /\ Tx.notes r1 = None)
  /\ (auth_uid s = None ->
      after_update_triggers v s OLD (set_status b OLD) d
      = Raise "Required parameters cannot be null"
      /\ succeeds (trg_device_transaction v s (TG_UPDATE OLD (set_status b OLD)) d)
         = true).
Proof.
  intros Ha Hab Hst. split.
  - intros Hu. unfold after_update_triggers.
    rewrite (status_change_trigger_run v s d OLD (set_status b OLD) a b)
      by (try assumption; reflexivity).
    cbn [bind].
    rewrite (status_only_update_run v s _ OLD a b)
      by (try assumption; now apply stored_store).
    eexists _, _, _. split; [reflexivity|].
    rewrite !device_transactions_store, <- app_assoc.
    split; [reflexivity|]. now repeat split.
  - intros Hnone. split.
    + unfold after_update_triggers, trg_device_status_change,
        fn_create_device_transaction.
      change (Device.status (set_status b OLD)) with (Some b).
      rewrite Ha, (status_ne_fires _ _ Hab), Hnone. cbn [is_null].
      now rewrite !orb_true_r.
    + now rewrite (status_only_update_run v s d OLD a b).
Qed.

Lemma both_triggers_record_a_status_change_twice_witness :
  exists d' r1 r2,
    after_update_triggers serial as_bob phone (set_status Status.sold phone) sold_db
    = Ok d'
    /\ serial_device_transactions d' = [r1; r2]
    /\ Tx.created_by r1 = Some 2%N
    /\ Tx.created_by r2 = Some 1%N.
Proof.
  assert (Hab : Status.in_stock <> Status.sold) by discriminate.
  assert (Hst : stored serial sold_db (set_status Status.sold phone))
    by (split; [left; reflexivity | reflexivity]).
  destruct (both_triggers_record_a_status_change_twice serial as_bob sold_db phone
              Status.in_stock Status.sold eq_refl Hab Hst) as [Hyes _].
  destruct (Hyes eq_refl)
    as [d' [r1 [r2 [Hrun [Hl [_ [_ [_ [_ [_ [_ [H1 [H2 _]]]]]]]]]]]]].
  exists d', r1, r2. now repeat split.
Defined.

(** ** The kind of a creation row *)

(** The INSERT statement on a device table, run on a row that passes the
    constraints and has a fresh key. *)
Lemma insert_device_run (v : variant) (s : session) (d : db) (NEW : Device.row) :
  device_row_ok d NEW = true ->
  has_id (map Device.id (devices v d)) (Device.id NEW) = false ->
  insert_device v s NEW d
  = Ok (store v
          (ledger_row s (with_devices v (devices v d ++ [NEW]) d) (Device.id NEW)
             (Some (if linked_to_purchase_order v d NEW
                    then Kind.purchase else Kind.transfer))
             (Device.id NEW) None (Device.status NEW) (Some "Device created")
             (Device.created_by NEW))
          (with_devices v (devices v d ++ [NEW]) d)).
Proof.
  intros Hok Hnew. unfold insert_device. rewrite Hok, Hnew. simpl.
  set (d0 := with_devices v (devices v d ++ [NEW]) d).
  assert (Hst : stored v d0 NEW)
    by (apply stored_with_devices; [apply in_or_app; right; now left | assumption]).
  assert (Hl : linked_to_purchase_order v d0 NEW = linked_to_purchase_order v d NEW)
    by now destruct v.
  rewrite Hl.
  replace (if linked_to_purchase_order v d NEW
           then Some Kind.purchase else Some Kind.transfer)
    with (Some (if linked_to_purchase_order v d NEW
                then Kind.purchase else Kind.transfer))
    by now destruct (linked_to_purchase_order v d NEW).
  rewrite insert_device_transaction_ok by (apply trigger_row_ok; auto).
  reflexivity.
Qed.

Lemma not_linked_under_fk (v : variant) (d : db) (NEW : Device.row) :
  purchase_order_devices_fk v d ->
  has_id (map Device.id (devices v d)) (Device.id NEW) = false ->
  linked_to_purchase_order v d NEW = false.
Proof.
  intros Hfk Hnew. unfold linked_to_purchase_order.
  destruct (existsb _ _) eqn:E; [|reflexivity].
  apply existsb_exists in E. destruct E as [p [Hin Hp]].
  specialize (Hfk p Hin).
  destruct (match v with cellular => _ | serial => _ end) as [j|];
    [|discriminate].
  destruct (Device.id NEW) as [i|]; [|discriminate].
  simpl in Hp. destruct (N.eqb_spec j i); [|discriminate]. subst j.
  simpl in Hfk. congruence.
Qed.

(** X6.  In a database that satisfies the foreign key of
    [purchase_order_devices] to the device table, the creation row of a
    newly inserted device always has kind transfer, never purchase: no row
    can reference the device before it is stored, and the trigger runs before
    any link is inserted. *)
Theorem creation_row_is_always_a_transfer
    (v : variant) (s : session) (d : db) (NEW : Device.row) :
  purchase_order_devices_fk v d ->
  device_row_ok d NEW = true ->
  has_id (map Device.id (devices v d)) (Device.id NEW) = false ->
  exists d' r,
    insert_device v s NEW d = Ok d'
    /\ device_transactions v d' = (device_transactions v d ++ [r])%list
    /\ Tx.device_id r = Device.id NEW
    /\ Tx.reference_id r = Device.id NEW
    /\ Tx.transaction_type r = Some Kind.transfer
    /\ Tx.created_by r = Device.created_by NEW.
Proof.
  intros Hfk Hok Hnew.
  rewrite insert_device_run by assumption.
  rewrite (not_linked_under_fk v d NEW Hfk Hnew).
  eexists _, _. split; [reflexivity|].
  rewrite device_transactions_store, device_transactions_with_devices.
  split; [reflexivity|]. now repeat split.
Qed.

Lemma creation_row_is_always_a_transfer_witness :
  purchase_order_devices_fk cellular (with_links [phone_link] sample_db)
  /\ exists d' r,
       insert_device cellular as_bob tablet (with_links [phone_link] sample_db) = Ok d'
       /\ cellular_device_transactions d' = [r]
       /\ Tx.transaction_type r = Some Kind.transfer.
Proof.
  assert (Hfk : purchase_order_devices_fk cellular (with_links [phone_link] sample_db)).
  { intros p [<-|[]]. reflexivity. }
  split; [exact Hfk|].
  destruct (creation_row_is_always_a_transfer cellular as_bob
              (with_links [phone_link] sample_db) tablet Hfk eq_refl eq_refl)
    as [d' [r [Hrun [Hl [_ [_ [Hk _]]]]]]].
  exists d', r. now repeat split.
Defined.

(** ** The two definitions of the ledger trigger *)

Lemma linked_purchase_orders_nil (v : variant) (d : db) (NEW : Device.row) :
  linked_to_purchase_order v d NEW = false ->
  linked_purchase_orders v d NEW = [].
Proof.
  unfold linked_to_purchase_order, linked_purchase_orders.
  induction (purchase_order_devices d) as [|p l IH]; [reflexivity|]. simpl.
  destruct (is_true _); [discriminate|]. exact IH.
Qed.

Lemma linked_purchase_orders_cons (v : variant) (d : db) (NEW : Device.row) :
  linked_purchase_orders v d NEW <> [] ->
  linked_to_purchase_order v d NEW = true.
Proof.
  intros H. destruct (linked_to_purchase_order v d NEW) eqn:E; [reflexivity|].
  now apply linked_purchase_orders_nil in E.
Qed.

Lemma device_transaction_ok_reference (v : variant) (s : session) (d : db)
    (dev : option uuid) (k : option Kind.transaction_type) (ref : option uuid)
    (ref' : uuid) (prev new : option Status.device_status)
    (notes : option string) (u : option uuid) :
  device_transaction_ok v d (ledger_row s d dev k ref prev new notes u) = true ->
  device_transaction_ok v d (ledger_row s d dev k (Some ref') prev new notes u) = true.
Proof.
  unfold device_transaction_ok. simpl. rewrite !andb_true_iff.
  intros [[[[[[H1 H2] _] H4] H5] H6] H7]. now repeat split.
Qed.

(** X7.  The first definition of the ledger trigger and the later one agree
    on every update, and on the insert of every device that no
    [purchase_order_devices] row links to.  With exactly one link they
    differ in the reference id only: the first records the purchase order,
    the later one the device.  With two or more links the first raises on
    its subquery, rejecting the insert, where the later one records a
    purchase. *)
Theorem trigger_definitions_compared
    (v : variant) (s : session) (d : db) (NEW : Device.row) :
  (forall OLD, trg_device_transaction_v1 v s (TG_UPDATE OLD NEW) d
               = trg_device_transaction v s (TG_UPDATE OLD NEW) d)
  /\ (linked_to_purchase_order v d NEW = false ->
      trg_device_transaction_v1 v s (TG_INSERT NEW) d
      = trg_device_transaction v s (TG_INSERT NEW) d)
  /\ (forall po, stored v d NEW ->
        linked_purchase_orders v d NEW = [Some po] ->
        exists r1 r2,
          trg_device_transaction_v1 v s (TG_INSERT NEW) d = Ok (store v r1 d)
          /\ trg_device_transaction v s (TG_INSERT NEW) d = Ok (store v r2 d)
          /\ Tx.reference_id r1 = Some po
          /\ Tx.reference_id r2 = Device.id NEW
          /\ Tx.transaction_type r1 = Some Kind.purchase
          /\ Tx.transaction_type r2 = Some Kind.purchase)
  /\ (forall po1 po2 rest, stored v d NEW ->
        linked_purchase_orders v d NEW = po1 :: po2 :: rest ->
        trg_device_transaction_v1 v s (TG_INSERT NEW) d
        = Raise "more than one row returned by a subquery used as an expression"
        /\ exists r,
             trg_device_transaction v s (TG_INSERT NEW) d = Ok (store v r d)
             /\ Tx.transaction_type r = Some Kind.purchase).
Proof.
  split; [reflexivity|]. split; [|split].
  - intros Hno. unfold trg_device_transaction_v1, trg_device_transaction.
    now rewrite (linked_purchase_orders_nil v d NEW Hno).
  - intros po Hst Hone.
    assert (Hl : linked_to_purchase_order v d NEW = true)
      by (apply linked_purchase_orders_cons; rewrite Hone; discriminate).
    unfold trg_device_transaction_v1, trg_device_transaction.
    rewrite Hone, Hl. cbn [scalar_subquery bind coalesce_null].
    pose proof (trigger_row_ok v s d NEW Kind.purchase None (Some "Device created")
                  (Device.created_by NEW) Hst (or_introl eq_refl)) as Hok.
    rewrite (insert_device_transaction_ok v s _ _ (Some po))
      by (now apply device_transaction_ok_reference with (Device.id NEW)).
    rewrite (insert_device_transaction_ok v s _ _ (Device.id NEW)) by exact Hok.
    eexists _, _. split; [reflexivity|]. split; [reflexivity|]. now repeat split.
  - intros po1 po2 rest Hst Hmany.
    assert (Hl : linked_to_purchase_order v d NEW = true)
      by (apply linked_purchase_orders_cons; rewrite Hmany; discriminate).
    unfold trg_device_transaction_v1, trg_device_transaction.
    rewrite Hmany, Hl. split; [reflexivity|].
    rewrite insert_device_transaction_ok by (apply trigger_row_ok; auto).
    eexists. split; [reflexivity|]. reflexivity.
Qed.

Example trigger_definitions_on_a_double_link :
  trg_device_transaction_v1 cellular as_alice (TG_INSERT phone)
    (with_links [phone_link; phone_link] sample_db)
  = Raise "more than one row returned by a subquery used as an expression"
  /\ succeeds (trg_device_transaction cellular as_alice (TG_INSERT phone)
                 (with_links [phone_link; phone_link] sample_db)) = true.
Proof. split; reflexivity. Qed.

(** ** When a quantity write goes through *)

Lemma fn_create_quantity_transaction_ok_inv (k : stock) (s : session)
    (item : option uuid) (t : option Kind.transaction_type) (ref : option uuid)
    (qty prev new : option Z) (notes : option string) (u : option uuid)
    (d : db) (x : option uuid * db) :
  fn_create_quantity_transaction k s item t ref qty prev new notes u d = Ok x ->
  quantity_transaction_ok k d
    (quantity_ledger_row s d item t ref qty prev new notes u) = true.
Proof.
  unfold fn_create_quantity_transaction.
  destruct (_ || _); [discriminate|].
  destruct (is_true (sql_lt new (Some 0))); [discriminate|].
  intros H.
  apply bind_Ok_inv in H. destruct H as [diff [_ H]].
  apply bind_Ok_inv in H. destruct H as [lhs [_ H]].
  apply bind_Ok_inv in H. destruct H as [rhs [_ H]].
  destruct (is_true (sql_ne Z.eqb lhs rhs)); [discriminate|].
  now apply insert_quantity_transaction_inv in H.
Qed.

Lemma succeeds_true {A : Type} (m : result A) :
  succeeds m = true <-> exists x, m = Ok x.
Proof.
  destruct m as [a|msg]; simpl; split; try discriminate; eauto.
  intros [x H]. discriminate.
Qed.

Lemma fn_create_quantity_transaction_run (k : stock) (s : session)
    (item : option uuid) (t : option Kind.transaction_type) (ref : option uuid)
    (q p n : Z) (notes : option string) (u : option uuid) (d : db) :
  - 2147483648 <= p <= 2147483647 -> - 2147483648 <= n <= 2147483647 ->
  0 <= p -> 0 <= n -> Z.abs (n - p) = Z.abs q ->
  quantity_transaction_ok k d
    (quantity_ledger_row s d item t ref (Some q) (Some p) (Some n) notes u) = true ->
  fn_create_quantity_transaction k s item t ref (Some q) (Some p) (Some n) notes u d
  = Ok (Some (uuid_seed d),
        store_quantity k
          (quantity_ledger_row s d item t ref (Some q) (Some p) (Some n) notes u) d).
Proof.
  intros Hpr Hnr Hp Hn Habs Hok.
  assert (Hnn : is_null item || is_null t || is_null ref || is_null u = false).
  { unfold quantity_transaction_ok in Hok. simpl in Hok.
    rewrite !andb_true_iff in Hok.
    destruct Hok as [[[[[[[[H1 H2] H3] _] _] _] H7] _] _].
    now destruct item, t, ref, u. }
  unfold fn_create_quantity_transaction, insert_quantity_transaction,
    valid_quantities.
  rewrite Hnn, Hok.
  cbn [sql_sub sql_abs bind is_true sql_lt
       QtyTx.quantity QtyTx.previous_quantity QtyTx.new_quantity
       quantity_ledger_row].
  destruct (Z.ltb_spec n 0); [lia|].
  rewrite !(int4_ok (n - p)) by lia. cbn [bind sql_abs].
  rewrite !(int4_ok (Z.abs (n - p))) by lia. cbn [bind].
  rewrite !(int4_ok (Z.abs q)) by lia. cbn [bind].
  cbn [sql_ne sql_eq sql_ge sql_and is_true check_passes].
  rewrite Habs, Z.eqb_refl.
  destruct (Z.leb_spec 0 p); [|lia]. destruct (Z.leb_spec 0 n); [|lia].
  reflexivity.
Qed.

(** X8.  A part or accessory ledger write with INTEGER quantities goes
    through exactly when the item and the acting user exist, the transaction
    kind and the reference id are present, the previous and the new quantity
    are both non-negative, and [|new - previous| = |quantity|].  A negative
    previous quantity passes the validation of the function and is rejected
    by the CHECK of the table.  A NULL quantity, previous or new quantity
    always fails. *)
Theorem quantity_write_goes_through_iff
    (k : stock) (s : session)
    (item : option uuid) (t : option Kind.transaction_type) (ref : option uuid)
    (notes : option string) (u : option uuid) (d : db) :
  (forall q p n,
      in_int4 p = true -> in_int4 n = true ->
      (succeeds (fn_create_quantity_transaction k s item t ref
                   (Some q) (Some p) (Some n) notes u d) = true
       <-> has_id (map Item.id (items k d)) item = true
           /\ t <> None /\ ref <> None
           /\ has_id (map User.id (users d)) u = true
           /\ 0 <= p /\ 0 <= n /\ Z.abs (n - p) = Z.abs q))
  /\ (forall qty prev new,
         qty = None \/ prev = None \/ new = None ->
         succeeds (fn_create_quantity_transaction k s item t ref
                     qty prev new notes u d) = false).
Proof.
  split.
  - intros q p n Hpr Hnr. apply in_int4_bounds in Hpr, Hnr.
    rewrite succeeds_true. split.
    + intros [x H].
      pose proof (fn_create_quantity_transaction_ok_inv _ _ _ _ _ _ _ _ _ _ _ _ H) as Hok.
      apply fn_create_quantity_transaction_inv in H.
      destruct H as [_ [q' [p' [n' [Hq [Hp [Hn [Hp0 [Hn0 Habs]]]]]]]]].
      injection Hq as <-. injection Hp as <-. injection Hn as <-.
      unfold quantity_transaction_ok in Hok. simpl in Hok.
      rewrite !andb_true_iff in Hok.
      destruct Hok as [[[[[[[[H1 H2] H3] _] _] _] H7] H8] H9].
      destruct item as [i|]; [|discriminate]. destruct u as [w|]; [|discriminate].
      repeat split; try assumption; now destruct t, ref.
    + intros [Hi [Ht [Href [Hu [Hp0 [Hn0 Habs]]]]]].
      eexists. apply fn_create_quantity_transaction_run; try assumption.
      unfold quantity_transaction_ok. simpl.
      destruct (proj1 (has_id_true _ _) Hi) as [i [-> _]].
      destruct (proj1 (has_id_true _ _) Hu) as [w [-> _]].
      destruct t; [|now elim Ht]. destruct ref; [|now elim Href].
      simpl. now rewrite Hi, Hu.
  - intros qty prev new Hnull.
    destruct (succeeds _) eqn:E; [|reflexivity].
    apply succeeds_true in E. destruct E as [x H].
    apply fn_create_quantity_transaction_inv in H.
    destruct H as [_ [q [p [n [Hq [Hp [Hn _]]]]]]].
    destruct Hnull as [->|[->| ->]]; discriminate.
Qed.

Example negative_previous_quantity_is_rejected_by_the_table :
  fn_create_part_transaction as_alice (Some 20%N) (Some Kind.purchase) (Some 20%N)
    (Some 3) (Some (-1)) (Some 2) None (Some 1%N) sample_db
  = Raise "violates a constraint of the quantity transactions table".
Proof. reflexivity. Qed.

(** ** The latest ledger row shows the current status *)

Lemma last_row_cons {A : Type} (x : A) (l : list A) :
  last_row (x :: l)
  = match last_row l with
    | Some y => Some y
    | None => Some x
    end.
Proof.
  revert x. induction l as [|y l IH]; intros x; [reflexivity|].
  change (last_row (x :: y :: l)) with (last_row (y :: l)).
  rewrite IH. now destruct (last_row l).
Qed.

Lemma last_row_app {A : Type} (l added : list A) :
  last_row (l ++ added)
  = match last_row added with
    | Some x => Some x
    | None => last_row l
    end.
Proof.
  induction l as [|x l IH].
  - simpl. now destruct (last_row added).
  - rewrite <- app_comm_cons, !last_row_cons, IH.
    now destruct (last_row added), (last_row l).
Qed.

Lemma last_row_In {A : Type} (l : list A) (x : A) :
  last_row l = Some x -> In x l.
Proof.
  induction l as [|y l IH]; [discriminate|]. simpl.
  destruct l as [|z rest]; [intros H; left; congruence|].
  intros H. right. now apply IH.
Qed.

Lemma last_row_none {A : Type} (l : list A) : last_row l = None -> l = [].
Proof.
  induction l as [|y l IH]; [reflexivity|]. simpl.
  destruct l as [|z rest]; [discriminate|]. intros H. apply IH in H. discriminate.
Qed.

Lemma has_key_id (target : uuid) (r : Device.row) :
  has_key (Some target) r = true <-> Device.id r = Some target.
Proof.
  unfold has_key. destruct (Device.id r) as [j|]; simpl; [|split; discriminate].
  destruct (N.eqb_spec j target); split; congruence.
Qed.

Lemma find_none_of_fresh (l : list Device.row) (j : uuid) :
  has_id (map Device.id l) (Some j) = false ->
  find (has_key (Some j)) l = None.
Proof.
  intros H. destruct (find _ l) as [r|] eqn:E; [|reflexivity].
  apply find_some in E. destruct E as [Hin Hk]. apply has_key_id in Hk.
  rewrite (proj2 (has_id_true _ _)) in H; [discriminate|].
  exists j. split; [reflexivity|]. rewrite <- Hk. now apply in_map.
Qed.

Lemma find_app {A : Type} (f : A -> bool) (l l' : list A) :
  find f (l ++ l')
  = match find f l with
    | Some x => Some x
    | None => find f l'
    end.
Proof.
  induction l as [|x l IH]; [reflexivity|]. simpl. now destruct (f x).
Qed.

Lemma find_replace_other {A : Type} (f g : A -> bool) (NEW : A) (l : list A) :
  (forall x, f x = true -> g x = false) -> g NEW = false ->
  find g (map (fun r => if f r then NEW else r) l) = find g l.
Proof.
  intros Hfg HNEW. induction l as [|x l IH]; [reflexivity|]. simpl.
  destruct (f x) eqn:E.
  - now rewrite HNEW, (Hfg x E).
  - now rewrite IH.
Qed.

Lemma rows_written_for (NEW : Device.row) (t i : uuid) (added : list Tx.row) :
  Device.id NEW = Some t ->
  Forall (fun r => Tx.device_id r = Device.id NEW
                   /\ Tx.new_status r = Device.status NEW) added ->
  filter (fun r => is_true (sql_eq N.eqb (Tx.device_id r) (Some i))) added
  = if N.eqb t i then added else [].
Proof.
  intros Ht HP. induction HP as [|r l Hr _ IH]; simpl.
  - now destruct (N.eqb t i).
  - destruct Hr as [Hd _]. rewrite Hd, Ht, IH. simpl.
    now destruct (N.eqb t i).
Qed.

Lemma update_path_rows (v : variant) (s : session) (OLD NEW : Device.row) (d d' : db) :
  trg_device_transaction v s (TG_UPDATE OLD NEW) d = Ok d' ->
  (forall w, devices w d' = devices w d)
  /\ exists added,
       device_transactions v d' = (device_transactions v d ++ added)%list
       /\ Forall (written_for s NEW (Device.updated_by NEW)) added
       /\ (is_true (sql_ne Status.eqb (Device.status OLD) (Device.status NEW)) = true ->
           added <> []).
Proof.
  simpl. intros H.
  apply bind_Ok_inv in H. destruct H as [d1 [H1 H]].
  apply bind_Ok_inv in H. destruct H as [d2 [H2 H3]].
  assert (Hfirst : is_true (sql_ne Status.eqb (Device.status OLD) (Device.status NEW)) = true ->
                   exists r, d1 = store v r d).
  { intros E. unfold status_change in H1. rewrite E in H1.
    apply bind_Ok_inv in H1. destruct H1 as [x [H1 Hx]].
    apply insert_device_transaction_added in H1. destruct H1 as [_ H1].
    apply Ok_inj in Hx. subst d1. eauto. }
  pose proof (status_change_writes _ _ _ _ _ _ H1) as W1.
  pose proof (qc_status_change_writes _ _ _ _ _ _ H2) as W2.
  pose proof (repair_status_change_writes _ _ _ _ _ _ H3) as W3.
  apply writes_frame in W1, W2, W3.
  destruct W1 as [[_ [C1 [S1 _]]] [l1 [E1 [P1 _]]]],
    W2 as [[_ [C2 [S2 _]]] [l2 [E2 [P2 _]]]],
    W3 as [[_ [C3 [S3 _]]] [l3 [E3 [P3 _]]]].
  split.
  - intros [|]; simpl; congruence.
  - exists (l1 ++ l2 ++ l3)%list. split; [|split].
    + now rewrite E3, E2, E1, <- !app_assoc.
    + rewrite !Forall_app. now repeat split.
    + intros E Hnil. destruct (Hfirst E) as [r Hr]. subst d1.
      rewrite device_transactions_store in E1.
      apply app_inv_head in E1. subst l1. discriminate.
Qed.

(** The rows the triggers of an UPDATE add are rows of the updated device
    and end at its new status; a change of status adds at least one. *)
Lemma device_update_triggers_rows (v : variant) (s : session)
    (OLD NEW : Device.row) (d d' : db) :
  device_update_triggers v s OLD NEW d = Ok d' ->
  (forall w, devices w d' = devices w d)
  /\ exists added,
       device_transactions v d' = (device_transactions v d ++ added)%list
       /\ Forall (fun r => Tx.device_id r = Device.id NEW
                           /\ Tx.new_status r = Device.status NEW) added
       /\ (is_true (sql_ne Status.eqb (Device.status OLD) (Device.status NEW)) = true ->
           added <> []).
Proof.
  assert (Hweak : forall u l, Forall (written_for s NEW u) l ->
            Forall (fun r => Tx.device_id r = Device.id NEW
                             /\ Tx.new_status r = Device.status NEW) l).
  { intros u l. apply Forall_impl. intros r [H1 [_ [H3 _]]]. now split. }
  destruct v; cbn [device_update_triggers]; intros H.
  - apply update_path_rows in H. destruct H as [Hdev [added [Hl [HP Hf]]]].
    split; [exact Hdev|]. exists added. eauto.
  - unfold after_update_triggers in H. apply bind_Ok_inv in H.
    destruct H as [d1 [H1 H2]].
    apply update_path_rows in H2. destruct H2 as [Hdev [added [Hl [HP Hf]]]].
    destruct (status_change_trigger_added _ _ _ _ _ _ H1)
      as [->|[r [-> [_ [Hr1 [_ Hr2]]]]]].
    + split; [exact Hdev|]. exists added. eauto.
    + split; [intros w; now rewrite Hdev, devices_store|].
      exists (r :: added). rewrite Hl, device_transactions_store, <- app_assoc.
      split; [reflexivity|]. split; [|discriminate].
      constructor; [now split | eauto].
Qed.

Lemma execute_keeps_tracking (v : variant) (s : session) (op : device_operation)
    (d d' : db) :
  ledger_tracks_status v d ->
  execute v s op d = Ok d' ->
  ledger_tracks_status v d'.
Proof.
  intros [Hstat Htrack] Hexec. destruct op as [NEW|set target]; simpl in Hexec.
  - (* INSERT *)
    unfold insert_device in Hexec.
    destruct (device_row_ok d NEW) eqn:Hok; [|discriminate].
    destruct (has_id _ _) eqn:Hnew; [discriminate|].
    pose proof (insert_device_run v s d NEW Hok Hnew) as Hrun.
    unfold insert_device in Hrun. rewrite Hok, Hnew in Hrun.
    rewrite Hrun in Hexec. apply Ok_inj in Hexec. subst d'. clear Hrun.
    destruct (device_row_ok_inv _ _ Hok) as [[j Hj] [[a Ha] _]].
    split.
    + rewrite devices_store, devices_with_devices.
      apply Forall_app. split; [assumption|].
      constructor; [congruence | constructor].
    + intros i r. unfold rows_of_device.
      rewrite device_transactions_store, device_transactions_with_devices,
        devices_store, devices_with_devices, filter_app, last_row_app, find_app.
      simpl. rewrite Hj. simpl.
      destruct (N.eqb_spec j i) as [<-|Hne]; simpl.
      * intros H. injection H as <-.
        rewrite Hj in Hnew. rewrite (find_none_of_fresh _ _ Hnew).
        simpl. rewrite (proj2 (has_key_id j NEW) Hj). now exists NEW.
      * intros H. destruct (Htrack i r H) as [dev [Hf Hs]].
        exists dev. now rewrite Hf.
  - (* UPDATE *)
    unfold update_device in Hexec.
    destruct (find (has_key (Some target)) (devices v d)) as [OLD|] eqn:Hfind;
      [|apply Ok_inj in Hexec; subst d'; now split].
    destruct (device_row_ok d (assign set OLD)) eqn:Hok; [|discriminate].
    set (NEW := assign set OLD) in *.
    pose proof (find_some _ _ Hfind) as [HinOLD HkOLD].
    assert (HidNEW : Device.id NEW = Some target) by now apply has_key_id.
    assert (HkNEW : has_key (Some target) NEW = true) by now apply has_key_id.
    destruct (device_row_ok_inv _ _ Hok) as [_ [[b Hb] _]].
    assert (HaOLD : exists a, Device.status OLD = Some a).
    { rewrite Forall_forall in Hstat. specialize (Hstat OLD HinOLD).
      destruct (Device.status OLD) as [a|]; [eauto | now elim Hstat]. }
    destruct HaOLD as [a Ha].
    apply device_update_triggers_rows in Hexec.
    destruct Hexec as [Hdev [added [Hl [HP Hfires]]]].
    rewrite device_transactions_with_devices in Hl.
    assert (Hdevs : devices v d'
                    = map (fun r => if has_key (Some target) r then NEW else r)
                          (devices v d))
      by (rewrite Hdev; apply devices_with_devices).
    split.
    + rewrite Hdevs. rewrite Forall_forall in *. intros x Hx.
      apply in_map_iff in Hx. destruct Hx as [y [Hy Hin]].
      destruct (has_key (Some target) y); subst x; [congruence | now apply Hstat].
    + intros i r. unfold rows_of_device.
      rewrite Hl, Hdevs, filter_app, last_row_app,
        (rows_written_for NEW target i added HidNEW HP).
      destruct (N.eqb_spec target i) as [<-|Hne].
      * rewrite (find_replace _ OLD NEW _ Hfind HkNEW).
        destruct (last_row added) as [r'|] eqn:Elast.
        -- intros H. injection H as <-. exists NEW. split; [reflexivity|].
           apply last_row_In in Elast. rewrite Forall_forall in HP.
           now destruct (HP _ Elast) as [_ Hs].
        -- intros H. exists NEW. split; [reflexivity|].
           destruct (Htrack target r H) as [dev [Hf Hs]].
           rewrite Hfind in Hf. injection Hf as <-.
           rewrite Hs, Ha, Hb.
           apply last_row_none in Elast.
           destruct (Status.eqb a b) eqn:Eab.
           ++ destruct (status_eqb_spec a b); congruence.
           ++ exfalso. apply Hfires; [|exact Elast].
              rewrite Ha, Hb. simpl. now rewrite Eab.
      * simpl. intros H. destruct (Htrack i r H) as [dev [Hf Hs]].
        exists dev. split; [|exact Hs]. rewrite <- Hf.
        apply find_replace_other.
        -- intros x Hx. apply has_key_id in Hx. unfold has_key. rewrite Hx.
           simpl. destruct (N.eqb_spec target i); congruence.
        -- unfold has_key. rewrite HidNEW. simpl.
           destruct (N.eqb_spec target i); congruence.
Qed.

(** X9.  In a database where every device has a status and the latest ledger
    row of each device shows the status the device has now, this stays true
    after any sequence of device operations, whether an operation commits or
    is rolled back: the current status of a device can always be read off its
    latest ledger row. *)
Theorem ledger_keeps_tracking_the_status
    (v : variant) (ops : list (session * device_operation)) (d : db) :
  ledger_tracks_status v d ->
  ledger_tracks_status v (fst (run v ops d)).
Proof.
  revert d. induction ops as [|[s op] rest IH]; intros d Hinv; [exact Hinv|].
  simpl. specialize (IH (commit (execute v s op) d)).
  destruct (run v rest (commit (execute v s op) d)) as [d2 log]. simpl in *.
  apply IH. unfold commit.
  destruct (execute v s op d) as [d'|msg] eqn:E; [|exact Hinv].
  now apply execute_keeps_tracking with s op d.
Qed.

Lemma ledger_keeps_tracking_the_status_witness :
  ledger_tracks_status cellular sample_db
  /\ ledger_tracks_status cellular (fst (run cellular repair_visit sample_db))
  /\ List.length (cellular_device_transactions
                    (fst (run cellular repair_visit sample_db))) = 2%nat.
Proof.
  assert (H : ledger_tracks_status cellular sample_db).
  { split.
    - constructor; [discriminate | constructor].
    - intros i r H. discriminate H. }
  split; [exact H|]. split; [|reflexivity].
  exact (ledger_keeps_tracking_the_status cellular repair_visit sample_db H).
Defined.

(** ** The quantity ledger is a chain that ends at the current quantity *)

Lemma items_store_quantity (k w : stock) (r : QtyTx.row) (d : db) :
  items w (store_quantity k r d) = items w d.
Proof. now destruct k, w. Qed.

Lemma items_with_items (k : stock) (l : list Item.row) (d : db) :
  items k (with_items k l d) = l.
Proof. now destruct k. Qed.

Lemma quantity_transactions_with_items (k w : stock) (l : list Item.row) (d : db) :
  quantity_transactions w (with_items k l d) = quantity_transactions w d.
Proof. now destruct k, w. Qed.

Lemma has_item_key_id (target : uuid) (r : Item.row) :
  has_item_key (Some target) r = true <-> Item.id r = Some target.
Proof.
  unfold has_item_key. destruct (Item.id r) as [j|]; simpl; [|split; discriminate].
  destruct (N.eqb_spec j target); split; congruence.
Qed.

Lemma chained_snoc (l : list QtyTx.row) (r : QtyTx.row) :
  chained l ->
  (forall r0, last_row l = Some r0 ->
              QtyTx.previous_quantity r = QtyTx.new_quantity r0) ->
  chained (l ++ [r]).
Proof.
  induction l as [|x l IH]; intros Hc Hlast; [now split|].
  destruct Hc as [Hx Hc]. rewrite last_row_cons in Hlast.
  rewrite <- app_comm_cons. split.
  - destruct l as [|y l']; simpl; [|exact Hx].
    now apply Hlast.
  - apply IH; [exact Hc|]. intros r0 H0. apply Hlast. now rewrite H0.
Qed.

(** What the quantity trigger leaves when it returns. *)
Lemma trg_quantity_change_inv (k : stock) (s : session) (OLD NEW : Item.row) (d d' : db) :
  trg_quantity_change k s OLD NEW d = Ok d' ->
  (is_true (sql_ne Z.eqb (Item.quantity OLD) (Item.quantity NEW)) = false /\ d' = d)
  \/ exists r,
       d' = store_quantity k r d
       /\ QtyTx.item_id r = Item.id NEW
       /\ QtyTx.previous_quantity r = Item.quantity OLD
       /\ QtyTx.new_quantity r = Item.quantity NEW
       /\ QtyTx.created_by r = auth_uid s.
Proof.
  unfold trg_quantity_change.
  destruct (is_true _) eqn:E; [|intros H; left; split; congruence].
  intros H. right.
  apply bind_Ok_inv in H. destruct H as [diff [_ H]].
  apply bind_Ok_inv in H. destruct H as [qty [_ H]].
  apply bind_Ok_inv in H. destruct H as [x [H Hx]].
  apply fn_create_quantity_transaction_inv in H. destruct H as [H _].
  apply Ok_inj in Hx. subst d'. eexists. split; [exact H|]. now repeat split.
Qed.

Lemma update_quantity_keeps_tracking (k : stock) (s : session) (q : option Z)
    (target : uuid) (d d' : db) :
  ledger_tracks_quantity k d ->
  update_quantity k s q target d = Ok d' ->
  ledger_tracks_quantity k d'.
Proof.
  intros [Hq Htrack] Hexec. unfold update_quantity in Hexec.
  destruct (find (has_item_key (Some target)) (items k d)) as [OLD|] eqn:Hfind;
    [|apply Ok_inj in Hexec; subst d'; now split].
  destruct (match q with Some z => in_int4 z | None => true end); [|discriminate].
  destruct (is_not_null q && _) eqn:Hok; [|discriminate].
  apply andb_true_iff in Hok. destruct Hok as [Hnn _].
  apply is_not_null_true in Hnn. destruct Hnn as [n ->].
  set (NEW := {| Item.id := Item.id OLD; Item.quantity := Some n |}) in *.
  pose proof (find_some _ _ Hfind) as [HinOLD HkOLD].
  assert (HidNEW : Item.id NEW = Some target) by now apply has_item_key_id.
  assert (HkNEW : has_item_key (Some target) NEW = true) by now apply has_item_key_id.
  assert (HpOLD : exists p, Item.quantity OLD = Some p).
  { rewrite Forall_forall in Hq. specialize (Hq OLD HinOLD).
    destruct (Item.quantity OLD) as [p|]; [eauto | now elim Hq]. }
  destruct HpOLD as [p Hp].
  set (l' := map (fun r => if has_item_key (Some target) r then NEW else r) (items k d)).
  assert (Hq' : Forall (fun it => Item.quantity it <> None) l').
  { unfold l'. rewrite Forall_forall in *. intros x Hx.
    apply in_map_iff in Hx. destruct Hx as [y [Hy Hin]].
    destruct (has_item_key (Some target) y); subst x; [discriminate | now apply Hq]. }
  assert (Hother : forall i, target <> i ->
            find (has_item_key (Some i)) l' = find (has_item_key (Some i)) (items k d)).
  { intros i Hne. apply find_replace_other.
    - intros x Hx. apply has_item_key_id in Hx. unfold has_item_key. rewrite Hx.
      simpl. destruct (N.eqb_spec target i); congruence.
    - unfold has_item_key. rewrite HidNEW. simpl.
      destruct (N.eqb_spec target i); congruence. }
  apply trg_quantity_change_inv in Hexec.
  destruct Hexec as [[Esame ->]|[r [-> [Hitem [Hprev [Hnew _]]]]]].
  - (* the quantity did not change: no row *)
    assert (Hpn : p = n).
    { rewrite Hp in Esame. simpl in Esame.
      destruct (Z.eqb_spec p n); [assumption|discriminate]. }
    split; [now rewrite items_with_items|].
    intros i. unfold rows_of_item.
    rewrite quantity_transactions_with_items, items_with_items.
    destruct (Htrack i) as [Hc Hl]. split; [exact Hc|].
    intros r H. destruct (Hl r H) as [it [Hf Hs]].
    destruct (N.eq_dec target i) as [<-|Hne].
    + exists NEW. split; [now apply find_replace with OLD|].
      rewrite Hfind in Hf. injection Hf as <-. rewrite Hs, Hp. simpl. congruence.
    + exists it. now rewrite Hother.
  - (* one row *)
    split; [now rewrite items_store_quantity, items_with_items|].
    intros i. unfold rows_of_item.
    rewrite quantity_transactions_store, quantity_transactions_with_items,
      items_store_quantity, items_with_items, filter_app.
    destruct (Htrack i) as [Hc Hl]. cbn [filter].
    rewrite Hitem, HidNEW. cbn [sql_eq is_true].
    destruct (N.eqb_spec target i) as [<-|Hne].
    + split.
      * apply chained_snoc; [exact Hc|]. intros r0 H0.
        destruct (Hl r0 H0) as [it [Hf Hs]].
        rewrite Hfind in Hf. injection Hf as <-. congruence.
      * intros r1. rewrite last_row_app. cbn [last_row].
        intros H. injection H as <-. exists NEW.
        split; [now apply find_replace with OLD | exact Hnew].
    + rewrite app_nil_r. split; [exact Hc|].
      intros r1 H. destruct (Hl r1 H) as [it [Hf Hs]].
      exists it. now rewrite Hother.
Qed.

(** X10.  In a database where every part (accessory) has a quantity and the
    ledger rows of each item form a chain (each row's previous quantity is
    the new quantity of the row before) ending at the item's current
    quantity, this stays true after any sequence of quantity updates,
    whether an update commits or is rolled back: rejected for a negative
    quantity, or raised by the trigger for want of a user. *)
Theorem ledger_keeps_tracking_the_quantity
    (k : stock) (ops : list (session * option Z * uuid)) (d : db) :
  ledger_tracks_quantity k d ->
  ledger_tracks_quantity k (run_stock k ops d).
Proof.
  revert d. induction ops as [|[[s q] target] rest IH]; intros d Hinv; [exact Hinv|].
  simpl. apply IH. unfold commit.
  destruct (update_quantity k s q target d) as [d'|msg] eqn:E; [|exact Hinv].
  now apply update_quantity_keeps_tracking with s q target d.
Qed.

Lemma ledger_keeps_tracking_the_quantity_witness :
  ledger_tracks_quantity part sample_db
  /\ ledger_tracks_quantity part (run_stock part stock_movements sample_db)
  /\ map (fun r => (QtyTx.transaction_type r, QtyTx.quantity r,
                    QtyTx.previous_quantity r, QtyTx.new_quantity r))
         (part_transactions (run_stock part stock_movements sample_db))
     = [(Some Kind.purchase, Some 2, Some 5, Some 7);
        (Some Kind.sale, Some 3, Some 7, Some 4)].
Proof.
  assert (H : ledger_tracks_quantity part sample_db).
  { split.
    - constructor; [discriminate | constructor].
    - intros i. split; [exact I|]. intros r H. discriminate H. }
  split; [exact H|]. split; [|reflexivity].
  exact (ledger_keeps_tracking_the_quantity part stock_movements sample_db H).
Defined.

(** ** Splitting a semicolon-separated text *)

Lemma split_on_not_nil (sep : ascii) (x : string) : split_on sep x <> [].
Proof.
  destruct x as [|c rest]; simpl; [discriminate|].
  destruct (Ascii.eqb c sep); [discriminate|].
  destruct (split_on sep rest); discriminate.
Qed.

Lemma split_on_length (sep : ascii) (x : string) :
  List.length (split_on sep x) = S (count_char sep x).
Proof.
  induction x as [|c rest IH]; [reflexivity|]. simpl.
  destruct (Ascii.eqb c sep); simpl; [now rewrite IH|].
  destruct (split_on sep rest) as [|f fs]; simpl in *; [discriminate | exact IH].
Qed.

Lemma split_on_fields (sep : ascii) (x f : string) :
  In f (split_on sep x) -> has_char sep f = false.
Proof.
  revert f. induction x as [|c rest IH]; intros f; simpl.
  - intros [<-|[]]. reflexivity.
  - destruct (Ascii.eqb c sep) eqn:E.
    + intros [<-|H]; [reflexivity | now apply IH].
    + destruct (split_on sep rest) as [|f0 fs] eqn:Es.
      * intros [<-|[]]. simpl. now rewrite E.
      * intros [<-|H].
        -- simpl. rewrite E. apply IH. now left.
        -- apply IH. now right.
Qed.

Lemma ltrim_has_char (c : ascii) (x : string) :
  has_char c x = false -> has_char c (ltrim x) = false.
Proof.
  induction x as [|c' rest IH]; [trivial|]. simpl.
  intros H. apply orb_false_iff in H. destruct H as [H1 H2].
  destruct (Ascii.eqb c' " "); [now apply IH|]. simpl. now rewrite H1, H2.
Qed.

Lemma rtrim_has_char (c : ascii) (x : string) :
  has_char c x = false -> has_char c (rtrim x) = false.
Proof.
  induction x as [|c' rest IH]; [trivial|]. simpl.
  intros H. apply orb_false_iff in H. destruct H as [H1 H2].
  specialize (IH H2).
  destruct (rtrim rest) as [|k kept].
  - destruct (Ascii.eqb c' " "); [reflexivity|]. simpl. now rewrite H1.
  - simpl in *. now rewrite H1, IH.
Qed.

Lemma ltrim_no_leading_space (x rest : string) : ltrim x <> String " " rest.
Proof.
  induction x as [|c x' IH]; simpl; [discriminate|].
  destruct (Ascii.eqb_spec c " "); [exact IH|]. congruence.
Qed.

Lemma rtrim_head (x : string) (c : ascii) (rest : string) :
  rtrim x = String c rest -> exists rest', x = String c rest'.
Proof.
  destruct x as [|c' x']; simpl; [discriminate|].
  destruct (rtrim x').
  - destruct (Ascii.eqb c' " "); [discriminate|]. intros H. injection H as <- _. eauto.
  - intros H. injection H as <- _. eauto.
Qed.

Lemma rtrim_no_trailing_space (x front : string) : rtrim x <> (front ++ " ")%string.
Proof.
  revert front. induction x as [|c x' IH]; intros front; simpl.
  - destruct front; discriminate.
  - destruct (rtrim x') as [|k kept] eqn:E.
    + destruct (Ascii.eqb_spec c " "); [destruct front; discriminate|].
      destruct front as [|c0 front']; simpl; [congruence|].
      destruct front'; discriminate.
    + destruct front as [|c0 front']; simpl; [discriminate|].
      intros H. injection H as _ H. now apply (IH front').
Qed.

Lemma trim_no_leading_space (x rest : string) : trim x <> String " " rest.
Proof.
  unfold trim. intros H. apply rtrim_head in H. destruct H as [rest' H].
  now apply ltrim_no_leading_space in H.
Qed.

(** X11.  [fn_split_to_array] returns the empty array for a NULL and for an
    empty text, and for any other text one field more than the text has
    semicolons.  No field it returns contains a semicolon, starts with a
    space or ends with a space. *)
Theorem fn_split_to_array_fields (p_string : option string) :
  (p_string = None \/ p_string = Some "" -> fn_split_to_array p_string = [])
  /\ (forall x, p_string = Some x -> x <> "" ->
        List.length (fn_split_to_array p_string) = S (count_char ";" x))
  /\ (forall field, In field (fn_split_to_array p_string) ->
        has_char ";" field = false
        /\ (forall rest, field <> String " " rest)
        /\ (forall front, field <> (front ++ " ")%string)).
Proof.
  split; [|split].
  - intros [->| ->]; reflexivity.
  - intros x -> Hx. unfold fn_split_to_array.
    destruct x as [|c rest]; [now elim Hx|].
    cbn [string_to_array]. rewrite length_map. apply split_on_length.
  - intros field Hin. unfold fn_split_to_array in Hin.
    destruct p_string as [[|c rest]|]; cbn [string_to_array] in Hin;
      try now destruct Hin.
    apply in_map_iff in Hin. destruct Hin as [f [<- Hf]].
    split; [|split].
    + unfold trim. apply rtrim_has_char, ltrim_has_char.
      now apply split_on_fields with (String c rest).
    + intros rest'. apply trim_no_leading_space.
    + intros front. apply rtrim_no_trailing_space.
Qed.

Example fn_split_to_array_colours :
  fn_split_to_array (Some " Black; Space Grey ;;Gold ")
  = ["Black"; "Space Grey"; ""; "Gold"].
Proof. reflexivity. Qed.

Lemma split_on_no_sep (sep : ascii) (x : string) :
  has_char sep x = false -> split_on sep x = [x].
Proof.
  induction x as [|c rest IH]; [reflexivity|]. simpl.
  intros H. apply orb_false_iff in H. destruct H as [H1 H2].
  now rewrite H1, (IH H2).
Qed.

Lemma split_on_app (sep : ascii) (x y : string) :
  has_char sep x = false ->
  split_on sep (x ++ String sep y) = x :: split_on sep y.
Proof.
  induction x as [|c rest IH]; simpl.
  - intros _. now rewrite Ascii.eqb_refl.
  - intros H. apply orb_false_iff in H. destruct H as [H1 H2].
    now rewrite H1, (IH H2).
Qed.

Lemma split_on_concat (sep : ascii) (l : list string) :
  l <> [] ->
  (forall x, In x l -> has_char sep x = false) ->
  split_on sep (String.concat (String sep "") l) = l.
Proof.
  induction l as [|x l IH]; [intros H; now elim H|]. intros _ Hl.
  destruct l as [|y l'].
  - simpl. apply split_on_no_sep. apply Hl. now left.
  - change (String.concat (String sep "") (x :: y :: l'))
      with (x ++ String sep (String.concat (String sep "") (y :: l')))%string.
    rewrite split_on_app by (apply Hl; now left).
    rewrite IH; [reflexivity | discriminate |].
    intros z Hz. apply Hl. now right.
Qed.

(** X12.  Splitting is the inverse of joining with semicolons: for a list of
    texts none of which contains a semicolon, other than the list of the one
    empty text, [fn_split_to_array] of the texts joined by [;] is the list of
    the trimmed texts.  The list of the one empty text is joined to the
    empty text, which splits into the empty array. *)
Theorem fn_split_to_array_of_joined (l : list string) :
  (forall x, In x l -> has_char ";" x = false) ->
  l <> [""] ->
  fn_split_to_array (Some (String.concat ";" l)) = map trim l.
Proof.
  intros Hl Hne. unfold fn_split_to_array.
  destruct l as [|x l']; [reflexivity|].
  assert (Hs : split_on ";" (String.concat ";" (x :: l')) = x :: l')
    by (apply split_on_concat; [discriminate | assumption]).
  destruct (String.concat ";" (x :: l')) as [|c rest] eqn:E.
  - exfalso. destruct l' as [|y l''].
    + simpl in E. subst x. now elim Hne.
    + simpl in Hs. discriminate Hs.
  - cbn [string_to_array]. now rewrite Hs.
Qed.

Lemma fn_split_to_array_of_joined_witness :
  fn_split_to_array (Some "64;128; 256") = ["64"; "128"; "256"]
  /\ fn_split_to_array (Some (String.concat ";" [""])) = [].
Proof.
  split; [|reflexivity].
  apply (fn_split_to_array_of_joined ["64"; "128"; " 256"]).
  - intros x [<-|[<-|[<-|[]]]]; reflexivity.
  - discriminate.
Defined.

(** ** Profiles of the users who sign up *)

Lemma with_users_same (d : db) : with_users (users d) d = d.
Proof. now destruct d. Qed.

Lemma has_id_app (l l' : list (option uuid)) (x : option uuid) :
  has_id (l ++ l') x = has_id l x || has_id l' x.
Proof. unfold has_id. apply existsb_app. Qed.

Lemma handle_new_user_inv (NEW : AuthUser.row) (d d' : db) :
  handle_new_user NEW d = Ok d' ->
  exists u name,
    AuthUser.id NEW = Some u
    /\ coalesce_null (json_text (AuthUser.raw_user_meta_data NEW) "full_name")
                     (AuthUser.email NEW) = Some name
    /\ (has_id (map User.id (users d)) (Some u) = true /\ d' = d
        \/ has_id (map User.id (users d)) (Some u) = false
           /\ d' = with_users
                     (users d ++ [{| User.id := Some u; User.full_name := Some name |}])
                     d).
Proof.
  unfold handle_new_user. cbn [User.id User.full_name].
  destruct (AuthUser.id NEW) as [u|]; [|discriminate].
  destruct (coalesce_null _ _) as [name|]; [|discriminate].
  cbn [is_not_null is_null negb andb].
  destruct (has_id (map User.id (users d)) (Some u)) eqn:E;
    intros H; apply Ok_inj in H; subst d'; exists u, name; auto.
Qed.

Lemma handle_new_user_known (NEW : AuthUser.row) (d d' : db) :
  handle_new_user NEW d = Ok d' ->
  has_id (map User.id (users d')) (AuthUser.id NEW) = true.
Proof.
  intros H. apply handle_new_user_inv in H.
  destruct H as [u [name [Hu [_ [[Hk ->]|[_ ->]]]]]]; rewrite Hu; [exact Hk|].
  cbn [users with_users]. rewrite map_app, has_id_app. cbn [map User.id].
  unfold has_id at 2. simpl. rewrite N.eqb_refl. apply orb_true_r.
Qed.

(** X13.  When [handle_new_user] returns for a new account, the account has
    a profile in [users]; the profiles that were there are kept as they
    were, at most one is added after them, no other table changes, and an
    account that had a profile keeps it with the database unchanged.
    Running the trigger function again changes nothing. *)
Theorem handle_new_user_adds_the_profile_once (NEW : AuthUser.row) (d d' : db) :
  handle_new_user NEW d = Ok d' ->
  has_id (map User.id (users d')) (AuthUser.id NEW) = true
  /\ (exists added, users d' = (users d ++ added)%list /\ (List.length added <= 1)%nat)
  /\ d' = with_users (users d') d
  /\ (has_id (map User.id (users d)) (AuthUser.id NEW) = true -> d' = d)
  /\ handle_new_user NEW d' = Ok d'.
Proof.
  intros H. pose proof (handle_new_user_known _ _ _ H) as Hk.
  split; [exact Hk|].
  pose proof H as Hi. apply handle_new_user_inv in Hi.
  destruct Hi as [u [name [Hu [Hn Hc]]]].
  assert (Hagain : handle_new_user NEW d' = Ok d').
  { unfold handle_new_user. cbn [User.id User.full_name].
    rewrite Hk. rewrite Hu, Hn. reflexivity. }
  destruct Hc as [[Hold ->]|[Hnew ->]].
  - split; [exists []; split; [now rewrite app_nil_r | simpl; lia]|].
    split; [now rewrite with_users_same|]. split; [reflexivity | exact Hagain].
  - split; [eexists; split; [reflexivity | simpl; lia]|].
    split; [reflexivity|]. split; [|exact Hagain].
    rewrite Hu, Hnew. discriminate.
Qed.

Lemma handle_new_user_adds_the_profile_once_witness :
  exists d',
    handle_new_user carol_signup sample_db = Ok d'
    /\ users d' = [alice; bob;
                   {| User.id := Some 3%N; User.full_name := Some "carol@example.com" |}]
    /\ handle_new_user carol_signup d' = Ok d'.
Proof.
  eexists. split; [reflexivity|]. split; [reflexivity|].
  refine (proj2 (proj2 (proj2 (proj2
            (handle_new_user_adds_the_profile_once carol_signup sample_db _ _))))).
  reflexivity.
Defined.

(** X14.  [handle_new_user] returns exactly for an account with an id and
    with a name to store: a [full_name] in its metadata that is not null,
    or else an e-mail address.  Without one the insert into [users] raises,
    also when the account already has a profile. *)
Theorem handle_new_user_needs_a_name (NEW : AuthUser.row) (d : db) :
  (exists d', handle_new_user NEW d = Ok d')
  <-> AuthUser.id NEW <> None
      /\ (json_text (AuthUser.raw_user_meta_data NEW) "full_name" <> None
          \/ AuthUser.email NEW <> None).
Proof.
  split.
  - intros [d' H]. apply handle_new_user_inv in H.
    destruct H as [u [name [Hu [Hn _]]]]. split; [congruence|].
    destruct (json_text _ _); [left; discriminate|].
    right. simpl in Hn. congruence.
  - intros [Hu Hn]. unfold handle_new_user. cbn [User.id User.full_name].
    destruct (AuthUser.id NEW) as [u|]; [|now elim Hu].
    assert (Hname : exists name,
               coalesce_null (json_text (AuthUser.raw_user_meta_data NEW) "full_name")
                 (AuthUser.email NEW) = Some name).
    { destruct (json_text _ _) as [n|]; [now exists n|].
      destruct Hn as [Hn|Hn]; [now elim Hn|].
      destruct (AuthUser.email NEW) as [e|]; [now exists e | now elim Hn]. }
    destruct Hname as [name ->]. cbn [is_not_null is_null negb andb].
    destruct (has_id _ _); eauto.
Qed.

Example phone_signup_is_rejected :
  handle_new_user phone_signup sample_db
  = Raise "null value violates not-null constraint"
  /\ handle_new_user
       {| AuthUser.id := Some 1%N; AuthUser.email := None;
          AuthUser.raw_user_meta_data := None |} sample_db
     = Raise "null value violates not-null constraint".
Proof. split; reflexivity. Qed.

(** X15.  A device row that names a user as its creator and last editor,
    and is otherwise acceptable to the devices table, is rejected as long
    as that user has no profile; once [handle_new_user] has run for the
    user's account the same row is stored and its creation is recorded by
    one ledger row in the user's name. *)
Theorem device_creation_needs_the_profile
    (v : variant) (s : session) (NEW : AuthUser.row) (dev : Device.row)
    (d : db) (u i : uuid) (a : Status.device_status) (c : bool) :
  AuthUser.id NEW = Some u ->
  Device.created_by dev = Some u -> Device.updated_by dev = Some u ->
  Device.id dev = Some i ->
  has_id (map Device.id (devices v d)) (Some i) = false ->
  Device.status dev = Some a -> Device.repair_completed dev = Some c ->
  qc_status_check (Device.qc_status dev) = true ->
  (has_id (map User.id (users d)) (Some u) = false ->
   exists msg, insert_device v s dev d = Raise msg)
  /\ (forall d1, handle_new_user NEW d = Ok d1 ->
      exists d2 r,
        insert_device v s dev d1 = Ok d2
        /\ In dev (devices v d2)
        /\ device_transactions v d2 = (device_transactions v d1 ++ [r])%list
        /\ Tx.device_id r = Some i
        /\ Tx.created_by r = Some u).
Proof.
  intros Hu Hcb Hub Hi Hfresh Ha Hc Hq. split.
  - intros Hno. unfold insert_device.
    assert (Hok : device_row_ok d dev = false).
    { unfold device_row_ok. rewrite Hcb. cbn [references]. rewrite Hno.
      now rewrite !andb_false_r. }
    rewrite Hok. simpl. eauto.
  - intros d1 H1. pose proof (handle_new_user_known _ _ _ H1) as Hk.
    rewrite Hu in Hk.
    assert (Hd : devices v d1 = devices v d).
    { apply handle_new_user_inv in H1.
      destruct H1 as [? [? [_ [_ [[_ ->]|[_ ->]]]]]]; [reflexivity | now destruct v]. }
    assert (Hok : device_row_ok d1 dev = true).
    { unfold device_row_ok. rewrite Hi, Ha, Hc, Hcb, Hub, Hq.
      cbn [references is_not_null is_null negb andb]. now rewrite Hk. }
    assert (Hf : has_id (map Device.id (devices v d1)) (Device.id dev) = false)
      by now rewrite Hd, Hi.
    rewrite (insert_device_run v s d1 dev Hok Hf).
    eexists. eexists. split; [reflexivity|].
    rewrite devices_store, devices_with_devices, device_transactions_store,
      device_transactions_with_devices.
    split; [apply in_or_app; right; now left|].
    split; [reflexivity|]. split; [exact Hi | exact Hcb].
Qed.

Lemma device_creation_needs_the_profile_witness :
  (exists msg, insert_device cellular as_alice carol_phone sample_db = Raise msg)
  /\ exists d1 d2 r,
       handle_new_user carol_signup sample_db = Ok d1
       /\ insert_device cellular as_alice carol_phone d1 = Ok d2
       /\ device_transactions cellular d2
          = (device_transactions cellular d1 ++ [r])%list
       /\ Tx.created_by r = Some 3%N.
Proof.
  pose proof (device_creation_needs_the_profile cellular as_alice carol_signup
                carol_phone sample_db 3%N 12%N Status.in_stock false
                eq_refl eq_refl eq_refl eq_refl eq_refl eq_refl eq_refl eq_refl)
    as [Hno Hyes].
  split; [exact (Hno eq_refl)|].
  destruct (Hyes _ eq_refl) as [d2 [r [H1 [_ [H2 [_ H3]]]]]].
  eexists. exists d2, r. split; [reflexivity|]. auto.
Defined.

Lemma create_existing_users_keeps (auth_users : list AuthUser.row) (d d' : db) :
  create_existing_users auth_users d = Ok d' ->
  exists added, users d' = (users d ++ added)%list /\ d' = with_users (users d') d.
Proof.
  revert d. induction auth_users as [|NEW rest IH]; intros d; cbn [create_existing_users].
  - intros H. apply Ok_inj in H. subst d'. exists [].
    now rewrite app_nil_r, with_users_same.
  - intros H. apply bind_Ok_inv in H. destruct H as [d1 [H1 H2]].
    apply IH in H2. destruct H2 as [added [Hu Hd]].
    apply handle_new_user_inv in H1.
    destruct H1 as [u [name [_ [_ [[_ ->]|[_ ->]]]]]].
    + exists added. auto.
    + cbn [users with_users] in Hu. rewrite <- app_assoc in Hu.
      eexists. split; [exact Hu|]. rewrite Hd at 1. reflexivity.
Qed.

(** X16.  When the statement that creates the profiles of the existing
    accounts completes, every account has a profile, the profiles that were
    there before are kept in place, and only [users] has changed. *)
Theorem create_existing_users_covers_every_account
    (auth_users : list AuthUser.row) (d d' : db) :
  create_existing_users auth_users d = Ok d' ->
  (forall account, In account auth_users ->
     has_id (map User.id (users d')) (AuthUser.id account) = true)
  /\ (exists added, users d' = (users d ++ added)%list)
  /\ d' = with_users (users d') d.
Proof.
  intros H. split.
  - revert d H. induction auth_users as [|NEW rest IH]; intros d H account Hin;
      [destruct Hin|].
    cbn [create_existing_users] in H. apply bind_Ok_inv in H.
    destruct H as [d1 [H1 H2]]. destruct Hin as [<-|Hin]; [|now apply (IH d1)].
    apply handle_new_user_known in H1.
    apply create_existing_users_keeps in H2. destruct H2 as [added [Hu _]].
    rewrite Hu, map_app, has_id_app, H1. reflexivity.
  - apply create_existing_users_keeps in H. destruct H as [added [Hu Hd]]. eauto.
Qed.

Lemma create_existing_users_covers_every_account_witness :
  exists d',
    create_existing_users existing_accounts sample_db = Ok d'
    /\ has_id (map User.id (users d')) (Some 3%N) = true
    /\ find (fun p => is_true (sql_eq N.eqb (User.id p) (Some 1%N))) (users d')
       = Some alice.
Proof.
  eexists. split; [reflexivity|]. split; [|reflexivity].
  exact (proj1 (create_existing_users_covers_every_account
                  existing_accounts sample_db _ eq_refl)
           carol_signup (or_introl eq_refl)).
Defined.

(** ** Details of a cellular device *)

Lemma filter_none {A : Type} (p : A -> bool) (l : list A) :
  (forall x, In x l -> p x = false) -> filter p l = [].
Proof.
  induction l as [|a l IH]; [reflexivity|]. intros H. simpl.
  rewrite (H a) by now left. apply IH. intros x Hx. apply H. now right.
Qed.

Lemma filter_by_unique_key {A : Type} (key : A -> option uuid) (p : A -> bool)
    (i : uuid) (l : list A) :
  (forall y, p y = true <-> key y = Some i) ->
  NoDup (map key l) ->
  filter p l = match find p l with Some t => [t] | None => [] end.
Proof.
  intros Hp. induction l as [|a l IH]; [reflexivity|].
  intros Hnd. simpl in Hnd. inversion Hnd as [|k ks Hnotin Hnd']; subst.
  simpl. destruct (p a) eqn:Ea.
  - f_equal. apply filter_none. intros x Hx.
    destruct (p x) eqn:Ex; [|reflexivity]. exfalso. apply Hnotin.
    apply Hp in Ea. apply Hp in Ex. rewrite Ea, <- Ex. now apply in_map.
  - now apply IH.
Qed.

Lemma find_by_unique_key {A : Type} (key : A -> option uuid) (p : A -> bool)
    (i : uuid) (l : list A) (x : A) :
  (forall y, p y = true <-> key y = Some i) ->
  NoDup (map key l) -> In x l -> key x = Some i ->
  find p l = Some x.
Proof.
  intros Hp. induction l as [|a l IH]; [intros _ []|].
  intros Hnd Hin Hx. simpl in Hnd. inversion Hnd as [|k ks Hnotin Hnd']; subst.
  simpl. destruct Hin as [->|Hin].
  - now rewrite (proj2 (Hp x) Hx).
  - destruct (p a) eqn:Ea; [|now apply IH].
    exfalso. apply Hnotin. apply Hp in Ea. rewrite Ea, <- Hx. now apply in_map.
Qed.

Lemma key_test (x : option uuid) (i : uuid) :
  is_true (sql_eq N.eqb x (Some i)) = true <-> x = Some i.
Proof.
  destruct x as [j|]; simpl; [|split; discriminate].
  destruct (N.eqb_spec j i); split; congruence.
Qed.

Lemma key_test_sym (x : option uuid) (i : uuid) :
  is_true (sql_eq N.eqb (Some i) x) = true <-> x = Some i.
Proof.
  destruct x as [j|]; simpl; [|split; discriminate].
  destruct (N.eqb_spec i j); split; congruence.
Qed.

Lemma filter_joined (q : CellularDevice.row -> bool) (tc_rows : list TacCode.row)
    (cd_rows : list CellularDevice.row) :
  filter (fun joined => q (fst joined)) (flat_map (left_join_tac_codes tc_rows) cd_rows)
  = flat_map (left_join_tac_codes tc_rows) (filter q cd_rows).
Proof.
  induction cd_rows as [|cd l IH]; [reflexivity|].
  cbn [flat_map filter]. rewrite filter_app, IH.
  assert (H : filter (fun joined => q (fst joined)) (left_join_tac_codes tc_rows cd)
              = if q cd then left_join_tac_codes tc_rows cd else []).
  { unfold left_join_tac_codes.
    destruct (filter _ tc_rows) as [|t ts].
    - simpl. now destruct (q cd).
    - generalize (t :: ts). intros m. induction m as [|t' m IHm]; simpl.
      + now destruct (q cd).
      + destruct (q cd); [now rewrite IHm | exact IHm]. }
  rewrite H. destruct (q cd); reflexivity.
Qed.

(** X17.  [get_cellular_device_details] returns no row for a NULL id and for
    an id that no cellular device has.  With the primary keys of the two
    tables in force, it returns exactly one row for the id of a device: the
    device's IMEI with the manufacturer and model of the TAC the device
    refers to, or with NULLs for both when no TAC has that id. *)
Theorem get_cellular_device_details_rows
    (cd_rows : list CellularDevice.row) (tc_rows : list TacCode.row) :
  get_cellular_device_details cd_rows tc_rows None = []
  /\ (forall i,
        (forall cd, In cd cd_rows -> CellularDevice.id cd <> Some i) ->
        get_cellular_device_details cd_rows tc_rows (Some i) = [])
  /\ (forall i cd,
        NoDup (map CellularDevice.id cd_rows) -> NoDup (map TacCode.id tc_rows) ->
        In cd cd_rows -> CellularDevice.id cd = Some i ->
        get_cellular_device_details cd_rows tc_rows (Some i)
        = [details
             (cd, find (fun tc => is_true (sql_eq N.eqb (CellularDevice.tac_id cd)
                                             (TacCode.id tc))) tc_rows)]).
Proof.
  unfold get_cellular_device_details. split; [|split].
  - rewrite filter_none; [reflexivity|].
    intros joined _. now destruct (CellularDevice.id (fst joined)).
  - intros i Hno.
    rewrite (filter_joined
               (fun cd => is_true (sql_eq N.eqb (CellularDevice.id cd) (Some i)))).
    rewrite filter_none; [reflexivity|].
    intros cd Hin. destruct (is_true _) eqn:E; [|reflexivity].
    apply key_test in E. now elim (Hno cd Hin).
  - intros i cd Hcd Htc Hin Hid.
    rewrite (filter_joined
               (fun cd => is_true (sql_eq N.eqb (CellularDevice.id cd) (Some i)))).
    rewrite (filter_by_unique_key CellularDevice.id _ i)
      by (assumption || intros y; apply key_test).
    rewrite (find_by_unique_key CellularDevice.id _ i cd_rows cd)
      by (assumption || intros y; apply key_test).
    cbn [flat_map]. rewrite app_nil_r. unfold left_join_tac_codes.
    destruct (CellularDevice.tac_id cd) as [t|] eqn:Et.
    + rewrite (filter_by_unique_key TacCode.id _ t)
        by (assumption || intros y; apply key_test_sym).
      destruct (find _ tc_rows); reflexivity.
    + rewrite filter_none by reflexivity.
      assert (Hf : forall p : TacCode.row -> bool,
                 (forall tc, p tc = false) -> find p tc_rows = None).
      { intros p Hp. clear Htc. induction tc_rows as [|a l IH]; [reflexivity|].
        simpl. now rewrite Hp. }
      now rewrite Hf by reflexivity.
Qed.

Lemma get_cellular_device_details_rows_witness :
  get_cellular_device_details sample_cellular_devices sample_tac_codes (Some 14%N) = []
  /\ get_cellular_device_details sample_cellular_devices sample_tac_codes (Some 10%N)
     = [{| Details.imei := Some "356938035643809";
           Details.manufacturer := Some "Samsung";
           Details.model_name := Some "Galaxy S21" |}].
Proof.
  pose proof (get_cellular_device_details_rows sample_cellular_devices sample_tac_codes)
    as [_ [Hnone Hone]].
  split.
  - apply Hnone. intros cd [<-|[<-|[]]]; discriminate.
  - refine (eq_trans (Hone 10%N galaxy _ _ _ _) _).
    + repeat constructor; simpl; intuition discriminate.
    + repeat constructor; simpl; intuition discriminate.
    + now left.
    + reflexivity.
    + reflexivity.
Defined.

(** ** The history of a device, as the page builds it *)

Lemma history_of_entry_typed (s : session) (d : db) (r : Tx.row) :
  Tx.transaction_type r <> None ->
  exists h,
    history_of_entry (select_entry s d r) = Ok h
    /\ History.id h = Tx.id r
    /\ History.date h = Tx.created_at r
    /\ History.details h = Tx.notes r
    /\ History.user h = embed_user s d r.
Proof.
  intros H. unfold history_of_entry, select_entry. cbn [Entry.transaction_type].
  destruct (Tx.transaction_type r) as [k|]; [|now elim H].
  eexists. split; [reflexivity|]. repeat split.
Qed.

(** X18.  [loadDeviceHistory] from the answer of its request on.  An answer
    with an error leaves the history as it was, logs the error and ends the
    loading.  For the answer of a served request, over a ledger whose rows
    all carry a transaction type, nothing is thrown or logged: for a
    signed-in reader the history becomes one entry for each ledger row of
    the device, newest first, with the row's id, time and notes; without a
    signed-in user it becomes empty. *)
Theorem loadDeviceHistory_lists_the_ledger
    (type : string) (id : uuid) (s : session) (d : db) (st : Page.state) :
  let v := if String.eqb type "cellular" then cellular else serial in
  (forall r, In r (device_transactions v d) -> Tx.transaction_type r <> None) ->
  (forall e rows,
      loadDeviceHistory_on {| Response.data := rows; Response.error := Some e |} st
      = {| Page.history := Page.history st; Page.loading := false;
           Page.logged := (Page.logged st ++ [e])%list |})
  /\ (auth_uid s = None ->
      loadDeviceHistory_on (device_history_answer type id s d) st
      = {| Page.history := []; Page.loading := false; Page.logged := Page.logged st |})
  /\ (auth_uid s <> None ->
      exists rows history,
        loadDeviceHistory_on (device_history_answer type id s d) st
        = {| Page.history := history; Page.loading := false;
             Page.logged := Page.logged st |}
        /\ Permutation rows
             (filter (fun r => is_true (sql_eq N.eqb (Tx.device_id r) (Some id)))
                     (device_transactions v d))
        /\ Sorted newest_first rows
        /\ map History.id history = map Tx.id rows
        /\ map History.date history = map Tx.created_at rows
        /\ map History.details history = map Tx.notes rows).
Proof.
  intros v Htyped. split; [reflexivity|]. split.
  - intros Hs. unfold loadDeviceHistory_on, device_history_answer,
      query_device_history, readable_transactions, authenticated.
    cbn [Response.error Response.data]. rewrite Hs. reflexivity.
  - intros Hs. destruct (auth_uid s) as [w|] eqn:Hw; [|now elim Hs].
    destruct (query_device_history_spec v s id w d Hw) as [rows [Hq [Hperm [Hsorted _]]]].
    assert (Hrows : forall r, In r rows -> Tx.transaction_type r <> None).
    { intros r Hr. apply Htyped.
      apply (Permutation_in _ Hperm) in Hr. apply filter_In in Hr. tauto. }
    set (entry := fun r =>
           match history_of_entry (select_entry s d r) with
           | Ok h => h
           | Raise _ =>
               {| History.id := None; History.date := None; History.operation := "";
                  History.user := None; History.details := None |}
           end).
    assert (Hentry : forall r, In r rows ->
               history_of_entry (select_entry s d r) = Ok (entry r)
               /\ History.id (entry r) = Tx.id r
               /\ History.date (entry r) = Tx.created_at r
               /\ History.details (entry r) = Tx.notes r).
    { intros r Hr. destruct (history_of_entry_typed s d r (Hrows r Hr))
        as [h [Hh [H1 [H2 [H3 _]]]]].
      unfold entry. rewrite Hh. auto. }
    assert (Hmap : map_result history_of_entry (map (select_entry s d) rows)
                   = Ok (map entry rows)).
    { clear Hq Hperm Hsorted Hrows.
      induction rows as [|r rows IH]; [reflexivity|].
      cbn [map map_result].
      rewrite (proj1 (Hentry r (or_introl eq_refl))). cbn [bind].
      rewrite IH by (intros x Hx; apply Hentry; now right). reflexivity. }
    exists rows, (map entry rows).
    split.
    { unfold loadDeviceHistory_on, device_history_answer.
      cbn [Response.error Response.data]. fold v. rewrite Hq, Hmap. reflexivity. }
    split; [exact Hperm|]. split; [exact Hsorted|].
    rewrite !map_map.
    repeat split; apply map_ext_in; intros r Hr; now apply Hentry.
Qed.

Lemma loadDeviceHistory_lists_the_ledger_witness :
  exists history,
    loadDeviceHistory_on (device_history_answer "cellular" 10%N as_alice traded_db)
      loading_page
    = {| Page.history := history; Page.loading := false; Page.logged := [] |}
    /\ map History.date history = [Some 2000; Some 1000]
    /\ map Tx.created_at (cellular_device_transactions traded_db)
       = [Some 1000; Some 2000]
    /\ map History.details history = [None; Some "Repair required"].
Proof.
  assert (Htyped : forall r, In r (device_transactions cellular traded_db) ->
                     Tx.transaction_type r <> None).
  { intros r H. vm_compute in H.
    repeat (destruct H as [<-|H]; [discriminate|]). destruct H. }
  destruct (proj2 (proj2 (loadDeviceHistory_lists_the_ledger "cellular" 10%N as_alice
                            traded_db loading_page Htyped)))
    as [rows [history [Hl _]]]; [discriminate|].
  exists history. split; [exact Hl|].
  vm_compute in Hl. injection Hl as <-.
  repeat split.
Defined.
